(** * go-common: the resilient outbound-call core

    A shallow embedding of the retry engines of the HTTP and gRPC clients
    (packages [httpclient] and [grpcclient]), of the TTL caches
    ([cache.MemoryCache], the token validation caches), of the token
    validation paths (package [middleware] and package [grpc]) and of the
    per-key rate limiter (package [limiter]), with the properties the
    specification states about them.

    Conventions.  A Go [int], [int64] or [time.Duration] is a [Z]; a Go
    [float64] is a primitive binary64 [float]; a Go [string] is a [string]
    (a sequence of bytes); a Go map with string keys is a [gmap string _];
    a pointer that may be nil is an [option].  Loggers only observe, so
    log calls leave no trace in the model. *)

From Stdlib Require Import ZArith Lia Floats Ascii String.
From stdpp Require Import gmap strings list.

Local Open Scope Z_scope.

(** ** Package [time] *)

Abbreviation Duration := Z (only parsing).

(** An instant, in nanoseconds counted from the zero [time.Time]. *)
Abbreviation Time := Z (only parsing).

Module gotime.
Definition Nanosecond : Duration := 1.
Definition Microsecond : Duration := 1000 * Nanosecond.
Definition Millisecond : Duration := 1000 * Microsecond.
Definition Second : Duration := 1000 * Millisecond.
Definition Minute : Duration := 60 * Second.
Definition Hour : Duration := 60 * Minute.

Definition IsZero (t : Time) : bool := t =? 0.
Definition Add (t : Time) (d : Duration) : Time := t + d.
(** [After t u] is [t.After(u)], [Before t u] is [t.Before(u)]. *)
Definition After (t u : Time) : bool := u <? t.
Definition Before (t u : Time) : bool := t <? u.
End gotime.

(** ** Numeric conversions of the Go language *)

Definition min_int64 : Z := - 2 ^ 63.
Definition max_int64 : Z := 2 ^ 63 - 1.

(** [float64(z)]: the nearest binary64 value, ties to even. *)
Definition float64_of_int64 (z : Z) : float :=
  SF2Prim (binary_normalize prec emax z 0 false).

(** [int64(f)]: the fraction is discarded.  When the value does not fit
    (also for infinities and NaN) the language leaves the result to the
    implementation: [None]. *)
Definition int64_of_float64 (f : float) : option Z :=
  match Prim2SF f with
  | S754_zero _ => Some 0
  | S754_finite s m e =>
      let t := Z.shiftl (Z.pos m) e in
      let z := if s then - t else t in
      if (min_int64 <=? z) && (z <=? max_int64) then Some z else None
  | S754_infinity _ | S754_nan => None
  end.

(** The value of an [int64] expression whose mathematical value is [z]:
    the integer arithmetic of the language wraps around. *)
Definition int64 (z : Z) : Z := (z + 2 ^ 63) mod 2 ^ 64 - 2 ^ 63.

(** [time.Until(t)], which is [t.Sub(time.Now())]: the difference of the
    two instants, kept within the range of a [Duration]. *)
Definition time_Until (now t : Time) : Duration :=
  Z.max min_int64 (Z.min max_int64 (t - now)).

(** ** Errors *)

Inductive ContextErr : Type := Canceled | DeadlineExceeded.

#[warnings="-register-all"]
Inductive error : Type :=
| errorString (msg : string)
    (** [errors.New(msg)], and the errors of collaborators *)
| statusError (code : Z) (msg : string)
    (** [status.Error(code, msg)] *)
| contextError (e : ContextErr)
    (** [ctx.Err()] of a finished context *)
| httpStatusError (StatusCode : Z) (Body : string)
    (** [fmt.Errorf("HTTP %d: %s", StatusCode, Body)] *)
| ServiceUnavailableError (ServiceName : string) (Err : option error).

Definition isServiceUnavailable (e : error) : bool :=
  match e with ServiceUnavailableError _ _ => true | _ => false end.

(** What a retry engine does that a caller or a test can observe. *)
Inductive event : Type :=
| EvWait (attempt : Z) (delay : option Duration)
| EvAttempt (attempt : Z).

Definition isAttempt (ev : event) : bool :=
  match ev with EvAttempt _ => true | EvWait _ _ => false end.

Definition attempts (tr : list event) : nat := length (List.filter isAttempt tr).

Definition emit {R : Type} (ev : event) (k : R * list event) : R * list event :=
  (fst k, ev :: snd k).

(** [for i := 0; i < n; i++ { result *= base }] *)
Fixpoint pow_loop (n : nat) (base result : float) : float :=
  match n with
  | O => result
  | S n' => pow_loop n' base (result * base)%float
  end.

(** ** Package [httpclient] *)

Module httpclient.

Record RetryConfig : Type := {
  MaxRetries : Z;
  InitialDelay : Duration;
  MaxDelay : Duration;
  BackoffFactor : float;
  RetryableErrors : list Z
}.

Definition StatusRequestTimeout : Z := 408.
Definition StatusTooManyRequests : Z := 429.
Definition StatusInternalServerError : Z := 500.
Definition StatusBadGateway : Z := 502.
Definition StatusServiceUnavailable : Z := 503.
Definition StatusGatewayTimeout : Z := 504.

Definition DefaultRetryConfig : RetryConfig := {|
  MaxRetries := 3;
  InitialDelay := 500 * gotime.Millisecond;
  MaxDelay := 5 * gotime.Second;
  BackoffFactor := 2.0%float;
  RetryableErrors :=
    [StatusRequestTimeout; StatusTooManyRequests;
     StatusInternalServerError; StatusBadGateway;
     StatusServiceUnavailable; StatusGatewayTimeout]
|}.

Record Response : Type := {
  StatusCode : Z;
  Body : string;
  Headers : list (string * list string)
}.

(** The pair of a response pointer and an error that [Do] returns;
    [DoPanic] is a run-time panic. *)
Inductive DoResult : Type :=
| DoOk (resp : Response)
| DoErr (err : error)
| DoPanic.

(** Modelled from the spec: the file of package [httpclient] that
    declares [NewServiceUnavailableError] is missing; the spec has the
    exhaustion error wrap the last underlying error and name the target
    service, as the constructor of the same name in package
    [grpcclient] does. *)
Definition NewServiceUnavailableError (serviceName : string) (err : option error) : error :=
  ServiceUnavailableError serviceName err.

Section WithCollaborators.
Context {Logger Interceptor : Type}.

Record Config : Type := {
  BaseURL : string;
  ServiceName : string;
  Timeout : Duration;
  RetryConfig_ : RetryConfig;
  Logger_ : Logger;
  Interceptors : list Interceptor
}.

Record Client : Type := {
  httpClient_Timeout : Duration;
  logger : Logger;
  retryConfig : RetryConfig;
  baseURL : string;
  serviceName : string;
  interceptors : list Interceptor
}.

Definition NewClient (cfg : Config) : Client :=
  let timeout := if Timeout cfg =? 0 then 30 * gotime.Second else Timeout cfg in
  let rc :=
    if MaxRetries (RetryConfig_ cfg) =? 0 then DefaultRetryConfig
    else RetryConfig_ cfg in
  {| httpClient_Timeout := timeout;
     logger := Logger_ cfg;
     retryConfig := rc;
     baseURL := BaseURL cfg;
     serviceName := ServiceName cfg;
     interceptors := Interceptors cfg |}.

Definition pow (base exp : float) : option float :=
  n ← int64_of_float64 exp;
  Some (pow_loop (Z.to_nat n) base 1%float).

Definition calculateBackoff (c : Client) (attempt : Z) : option Duration :=
  p ← pow (BackoffFactor (retryConfig c)) (float64_of_int64 (attempt - 1));
  let delay := (float64_of_int64 (InitialDelay (retryConfig c)) * p)%float in
  if (float64_of_int64 (MaxDelay (retryConfig c)) <? delay)%float
  then Some (MaxDelay (retryConfig c))
  else int64_of_float64 delay.

Fixpoint shouldRetry_loop (codes : list Z) (statusCode : Z) : bool :=
  match codes with
  | [] => false
  | code :: rest =>
      if code =? statusCode then true else shouldRetry_loop rest statusCode
  end.

Definition shouldRetry (c : Client) (statusCode : Z) : bool :=
  shouldRetry_loop (RetryableErrors (retryConfig c)) statusCode.

Section Do.
Variable c : Client.
(** The [select] before attempt [attempt]: [Some e] when
    [ctx.Done()] is taken, [ctx.Err()] being [e]; [None] when the
    timer is. *)
Variable ctxDone : Z -> option ContextErr.
(** The value of [c.doRequest(ctx, req, attempt)]. *)
Variable doRequest : Z -> Response + error.

(** The loop of [Do], [fuel] iterations from [attempt] on, and the
    statements after it. *)
Fixpoint Do_loop (fuel : nat) (attempt : Z) (lastErr : option error)
  : DoResult * list event :=
  match fuel with
  | O =>
      match lastErr with
      | None => (DoPanic, [])
      | Some _ => (DoErr (NewServiceUnavailableError (serviceName c) lastErr), [])
      end
  | S fuel' =>
      let attemptBody :=
        emit (EvAttempt attempt)
          match doRequest attempt with
          | inl resp =>
              if negb (shouldRetry c (StatusCode resp)) then (DoOk resp, [])
              else Do_loop fuel' (attempt + 1)
                     (Some (httpStatusError (StatusCode resp) (Body resp)))
          | inr err => Do_loop fuel' (attempt + 1) (Some err)
          end in
      if 0 <? attempt then
        emit (EvWait attempt (calculateBackoff c attempt))
          match ctxDone attempt with
          | Some e => (DoErr (contextError e), [])
          | None => attemptBody
          end
      else attemptBody
  end.

Definition Do : DoResult * list event :=
  Do_loop (Z.to_nat (MaxRetries (retryConfig c) + 1)) 0 None.
End Do.
End WithCollaborators.

Arguments Config : clear implicits.
Arguments Client : clear implicits.

End httpclient.


(** ** Package [google.golang.org/grpc/codes] *)

Module codes.
Definition OK : Z := 0.
Definition Canceled : Z := 1.
Definition Unknown : Z := 2.
Definition InvalidArgument : Z := 3.
Definition DeadlineExceeded : Z := 4.
Definition NotFound : Z := 5.
Definition AlreadyExists : Z := 6.
Definition PermissionDenied : Z := 7.
Definition ResourceExhausted : Z := 8.
Definition FailedPrecondition : Z := 9.
Definition Aborted : Z := 10.
Definition OutOfRange : Z := 11.
Definition Unimplemented : Z := 12.
Definition Internal : Z := 13.
Definition Unavailable : Z := 14.
Definition DataLoss : Z := 15.
Definition Unauthenticated : Z := 16.
End codes.

(** ** Package [grpcclient] *)

Module grpcclient.

Record RetryConfig : Type := {
  MaxRetries : Z;
  InitialDelay : Duration;
  MaxDelay : Duration;
  BackoffFactor : float;
  RetryableCodes : list Z
}.

Definition DefaultRetryConfig : RetryConfig := {|
  MaxRetries := 3;
  InitialDelay := 500 * gotime.Millisecond;
  MaxDelay := 5 * gotime.Second;
  BackoffFactor := 2.0%float;
  RetryableCodes :=
    [codes.Unavailable; codes.ResourceExhausted;
     codes.DeadlineExceeded; codes.Internal]
|}.

Definition NewServiceUnavailableError (serviceName : string) (err : option error) : error :=
  ServiceUnavailableError serviceName err.

Definition pow (base exp : float) : option float :=
  n ← int64_of_float64 exp;
  Some (pow_loop (Z.to_nat n) base 1%float).

Definition calculateBackoff (cfg : RetryConfig) (attempt : Z) : option Duration :=
  p ← pow (BackoffFactor cfg) (float64_of_int64 (attempt - 1));
  let delay := (float64_of_int64 (InitialDelay cfg) * p)%float in
  if (float64_of_int64 (MaxDelay cfg) <? delay)%float
  then Some (MaxDelay cfg)
  else int64_of_float64 delay.

Fixpoint shouldRetryCode (code : Z) (retryableCodes : list Z) : bool :=
  match retryableCodes with
  | [] => false
  | c :: rest => if c =? code then true else shouldRetryCode code rest
  end.

Section WithCollaborators.
Context {Logger UserInterceptor UserStreamInterceptor : Type}.

Record Config : Type := {
  Target : string;
  ServiceName : string;
  RetryConfig_ : RetryConfig;
  Logger_ : Logger;
  Interceptors : list UserInterceptor;
  StreamInterceptors : list UserStreamInterceptor
}.

(** The unary interceptors a connection is dialled with. *)
Inductive UnaryClientInterceptor : Type :=
| LoggingInterceptor (logger : Logger) (serviceName : string)
| ConfiguredInterceptor (i : UserInterceptor)
| RetryInterceptor (logger : Logger) (serviceName : string) (cfg : RetryConfig).

Inductive StreamClientInterceptor : Type :=
| StreamLoggingInterceptor (logger : Logger) (serviceName : string)
| ConfiguredStreamInterceptor (i : UserStreamInterceptor).

Record ClientConn : Type := {
  connTarget : string;
  chainUnary : list UnaryClientInterceptor;
  chainStream : list StreamClientInterceptor
}.

Record Client : Type := {
  conn : ClientConn;
  logger : Logger;
  retryConfig : RetryConfig;
  target : string;
  serviceName : string
}.

Definition createLoggingInterceptor := LoggingInterceptor.
Definition createStreamLoggingInterceptor := StreamLoggingInterceptor.
Definition createRetryInterceptor := RetryInterceptor.

Section NewClient.
(** [grpc.DialContext(ctx, target, opts...)]: the error it returns, if any. *)
Variable DialContext : string -> option error.

Definition NewClient (cfg : Config) : Client + error :=
  let rc :=
    if MaxRetries (RetryConfig_ cfg) =? 0 then DefaultRetryConfig
    else RetryConfig_ cfg in
  let interceptors :=
    ([createLoggingInterceptor (Logger_ cfg) (ServiceName cfg)]
       ++ map ConfiguredInterceptor (Interceptors cfg))
      ++ [createRetryInterceptor (Logger_ cfg) (ServiceName cfg) rc] in
  let streamInterceptors :=
    [createStreamLoggingInterceptor (Logger_ cfg) (ServiceName cfg)]
      ++ map ConfiguredStreamInterceptor (StreamInterceptors cfg) in
  match DialContext (Target cfg) with
  | Some err => inr err
  | None =>
      inl {| conn := {| connTarget := Target cfg;
                        chainUnary := interceptors;
                        chainStream := streamInterceptors |};
             logger := Logger_ cfg;
             retryConfig := rc;
             target := Target cfg;
             serviceName := ServiceName cfg |}
  end.
End NewClient.
End WithCollaborators.

Arguments Config : clear implicits.
Arguments Client : clear implicits.
Arguments ClientConn : clear implicits.
Arguments UnaryClientInterceptor : clear implicits.
Arguments StreamClientInterceptor : clear implicits.

(** The interceptor [createRetryInterceptor(logger, serviceName, cfg)]
    returns, run on one call. *)
Section RetryInterceptor.
Variable serviceName : string.
Variable cfg : RetryConfig.
(** [status.FromError(err)] followed by [Code()]. *)
Variable statusCode : error -> Z.
(** The [select] before attempt [attempt]: [Some e] when [ctx.Done()] is
    taken, [ctx.Err()] being [e]; [None] when the timer is. *)
Variable ctxDone : Z -> option ContextErr.
(** The error of the [invoker] call of attempt [attempt], [None] for nil. *)
Variable invoker : Z -> option error.

Fixpoint retry_loop (fuel : nat) (attempt : Z) (lastErr : option error)
  : option error * list event :=
  match fuel with
  | O => (Some (NewServiceUnavailableError serviceName lastErr), [])
  | S fuel' =>
      let attemptBody :=
        emit (EvAttempt attempt)
          match invoker attempt with
          | None => (None, [])
          | Some err =>
              if negb (shouldRetryCode (statusCode err) (RetryableCodes cfg))
              then (Some err, [])
              else retry_loop fuel' (attempt + 1) (Some err)
          end in
      if 0 <? attempt then
        emit (EvWait attempt (calculateBackoff cfg attempt))
          match ctxDone attempt with
          | Some e => (Some (contextError e), [])
          | None => attemptBody
          end
      else attemptBody
  end.

Definition retryInterceptor : option error * list event :=
  retry_loop (Z.to_nat (MaxRetries cfg + 1)) 0 None.
End RetryInterceptor.

(** [metadata.AppendToOutgoingContext(ctx, k, v)] on the outgoing
    metadata of [ctx], for a key [k] in lower case: [v] comes after the
    values [k] has already. *)
Definition AppendToOutgoingContext (md : gmap string (list string)) (k v : string)
  : gmap string (list string) :=
  <[k := default [] (md !! k) ++ [v]]> md.

(** The interceptors [BearerAuthInterceptor(token)] and
    [BearerAuthStreamInterceptor(token)] return, run on a call whose
    context has the outgoing metadata [md]: the outgoing metadata of the
    context they call [invoker] or [streamer] with; they return what it
    returns. *)
Definition BearerAuthInterceptor (token : string) (md : gmap string (list string))
  : gmap string (list string) :=
  AppendToOutgoingContext md "authorization" ("Bearer " +:+ token).

Definition BearerAuthStreamInterceptor (token : string) (md : gmap string (list string))
  : gmap string (list string) :=
  AppendToOutgoingContext md "authorization" ("Bearer " +:+ token).

End grpcclient.


(** ** Package [strings] *)

Module strings.
(** [strings.HasPrefix(s, prefix)] *)
Definition HasPrefix (s prefix : string) : bool := String.prefix prefix s.

(** [s[n:]] for [n <= len(s)] *)
Fixpoint slice_from (n : nat) (s : string) : string :=
  match n, s with
  | O, _ => s
  | S n', String _ s' => slice_from n' s'
  | S _, EmptyString => EmptyString
  end.

(** [strings.TrimPrefix(s, prefix)] *)
Definition TrimPrefix (s prefix : string) : string :=
  if HasPrefix s prefix then slice_from (String.length prefix) s else s.

(** [strings.Split(s, sep)] for a separator [sep] of one byte: the
    substrings between the occurrences of [sep], one more than there are
    occurrences. *)
Fixpoint Split (s : string) (sep : ascii) : list string :=
  match s with
  | EmptyString => [EmptyString]
  | String a s' =>
      if Ascii.eqb a sep then EmptyString :: Split s' sep
      else
        match Split s' sep with
        | [] => [String a EmptyString]
        | part :: parts => String a part :: parts
        end
  end.
(** [strings.TrimLeft(s, cutset)] for a cutset of ASCII bytes: the
    leading bytes of [s] that occur in [cutset] go. *)
Fixpoint TrimLeft (s cutset : string) : string :=
  match s with
  | EmptyString => EmptyString
  | String a s' =>
      if existsb (Ascii.eqb a) (list_ascii_of_string cutset) then TrimLeft s' cutset
      else s
  end.

(** [s[:n]] for [n <= len(s)] *)
Fixpoint slice_to (n : nat) (s : string) : string :=
  match n, s with
  | S n', String a s' => String a (slice_to n' s')
  | _, _ => EmptyString
  end.

(** [strings.HasSuffix(s, suffix)] *)
Definition HasSuffix (s suffix : string) : bool :=
  (String.length suffix <=? String.length s)%nat
  && String.eqb (slice_from (String.length s - String.length suffix) s) suffix.

(** [strings.TrimSuffix(s, suffix)] *)
Definition TrimSuffix (s suffix : string) : string :=
  if HasSuffix s suffix
  then slice_to (String.length s - String.length suffix) s
  else s.

(** [strings.Index(s, sep)] for a separator [sep] of one byte: the index
    of its first occurrence, -1 when it does not occur. *)
Fixpoint Index (s : string) (sep : ascii) : Z :=
  match s with
  | EmptyString => -1
  | String a s' =>
      if Ascii.eqb a sep then 0
      else
        let i := Index s' sep in
        if i =? -1 then -1 else i + 1
  end.

End strings.

(** ** Package [cache]: the in-memory cache *)

Module cache.

Definition ErrKeyNotFound : error := errorString "key not found".
Definition ErrKeyExpired : error := errorString "key expired".

(** [Options], without the serializer, which [Get] and [Set] do not use. *)
Record Options : Type := {
  DefaultTTL : Duration;
  KeyPrefix : string
}.

Definition DefaultOptions : Options :=
  {| DefaultTTL := 24 * gotime.Hour; KeyPrefix := "" |}.

Record memoryItem : Type := {
  value : list Byte.byte;
  expiresAt : Time
}.

Record MemoryCache : Type := {
  items : gmap string memoryItem;
  options : Options
}.

Definition NewMemoryCache (opts : list Options) : MemoryCache :=
  {| items := ∅;
     options := match opts with o :: _ => o | [] => DefaultOptions end |}.

Definition buildKey (c : MemoryCache) (key : string) : string :=
  if negb (String.eqb (KeyPrefix (options c)) "")
  then KeyPrefix (options c) +:+ ":" +:+ key
  else key.

(** [!item.expiresAt.IsZero() && now.After(item.expiresAt)] *)
Definition expired (now : Time) (item : memoryItem) : bool :=
  negb (gotime.IsZero (expiresAt item)) && gotime.After now (expiresAt item).

(** [removeExpired], [now] being its reading of the clock. *)
Definition removeExpired (c : MemoryCache) (now : Time) : MemoryCache :=
  {| items := filter (λ kv, expired now kv.2 = false) (items c);
     options := options c |}.

(** [Get], [now] being its reading of the clock. *)
Definition Get (c : MemoryCache) (now : Time) (key : string) : list Byte.byte + error :=
  match items c !! buildKey c key with
  | None => inr ErrKeyNotFound
  | Some item =>
      if expired now item then inr ErrKeyExpired else inl (value item)
  end.

(** [Set], [now] being its reading of the clock; it returns a nil error. *)
Definition Set_ (c : MemoryCache) (now : Time) (key : string)
  (v : list Byte.byte) (ttl : Duration) : MemoryCache :=
  let ttl := if ttl =? 0 then DefaultTTL (options c) else ttl in
  let item :=
    {| value := v;
       expiresAt := if 0 <? ttl then gotime.Add now ttl else 0 |} in
  {| items := <[buildKey c key := item]> (items c);
     options := options c |}.

Definition Delete (c : MemoryCache) (key : string) : MemoryCache :=
  {| items := delete (buildKey c key) (items c); options := options c |}.

(** [Exists], [now] being its reading of the clock; the error it returns
    is nil. *)
Definition Exists (c : MemoryCache) (now : Time) (key : string) : bool :=
  match items c !! buildKey c key with
  | None => false
  | Some item => if expired now item then false else true
  end.

(** [TTL], [now] being its reading of the clock: the duration and the
    error it returns. *)
Definition TTL (c : MemoryCache) (now : Time) (key : string)
  : Duration * option error :=
  match items c !! buildKey c key with
  | None => (0, Some ErrKeyNotFound)
  | Some item =>
      if gotime.IsZero (expiresAt item) then (-1, None)
      else
        let ttl := time_Until now (expiresAt item) in
        if ttl <? 0 then (0, Some ErrKeyExpired) else (ttl, None)
  end.

(** [item.expiresAt.IsZero() || time.Now().Before(item.expiresAt)], the
    test [Increment], [SetNX] and [GetSet] make on the item they find. *)
Definition unexpired (now : Time) (item : memoryItem) : bool :=
  gotime.IsZero (expiresAt item) || gotime.Before now (expiresAt item).

(** [SetNX]: the cache it leaves and the boolean it returns (its error is
    nil); [now] is the clock as the test reads it, [now'] as the
    computation of the expiry does. *)
Definition SetNX (c : MemoryCache) (now now' : Time) (key : string)
  (v : list Byte.byte) (ttl : Duration) : MemoryCache * bool :=
  let fullKey := buildKey c key in
  let held :=
    match items c !! fullKey with
    | Some item => unexpired now item
    | None => false
    end in
  if held then (c, false)
  else
    let newItem :=
      {| value := v;
         expiresAt := if 0 <? ttl then gotime.Add now' ttl else 0 |} in
    ({| items := <[fullKey := newItem]> (items c); options := options c |}, true).

(** [GetSet]: the cache it leaves and the old value it returns, the empty
    list standing for a nil slice; its error is nil. *)
Definition GetSet (c : MemoryCache) (now : Time) (key : string)
  (v : list Byte.byte) : MemoryCache * list Byte.byte :=
  let fullKey := buildKey c key in
  let oldValue :=
    match items c !! fullKey with
    | Some item => if unexpired now item then value item else []
    | None => []
    end in
  ({| items := <[fullKey := {| value := v; expiresAt := 0 |}]> (items c);
      options := options c |},
   oldValue).

(** [Keys]: the keys of the map, in the order the iteration over it
    visits them, which the language leaves open; here the order of
    [map_to_list]. *)
Definition Keys (c : MemoryCache) (pattern : string) : list string :=
  (map_to_list (items c)).*1.

Definition DeleteMany (c : MemoryCache) (keys : list string) : MemoryCache :=
  {| items := foldl (λ m key, delete (buildKey c key) m) (items c) keys;
     options := options c |}.

Definition Clear (c : MemoryCache) : MemoryCache :=
  {| items := ∅; options := options c |}.

Definition Size (c : MemoryCache) : nat := size (items c).

Section Counters.
(** The serializer of the options on an [int64]: the bytes
    [Marshal(value)] returns, and the number [Unmarshal(data, &value)]
    leaves in a [value] that was 0 before the call.  [Increment] drops
    the errors of both. *)
Variable Marshal : Z -> list Byte.byte.
Variable Unmarshal : list Byte.byte -> Z.

(** [Increment], [now] being its reading of the clock: the cache it
    leaves and the number it returns; its error is nil. *)
Definition Increment (c : MemoryCache) (now : Time) (key : string) (delta : Z)
  : MemoryCache * Z :=
  let fullKey := buildKey c key in
  let found := items c !! fullKey in
  let stored :=
    match found with
    | Some item => if unexpired now item then Unmarshal (value item) else 0
    | None => 0
    end in
  let sum := int64 (stored + delta) in
  let newItem :=
    {| value := Marshal sum;
       expiresAt :=
         match found with
         | Some item =>
             if negb (gotime.IsZero (expiresAt item)) then expiresAt item else 0
         | None => 0
         end |} in
  ({| items := <[fullKey := newItem]> (items c); options := options c |}, sum).

Definition Decrement (c : MemoryCache) (now : Time) (key : string) (delta : Z)
  : MemoryCache * Z :=
  Increment c now key (int64 (- delta)).
End Counters.

Section Objects.
Context {T : Type}.
(** The serializer of the options on values of type [T]: what
    [Marshal(v)] returns, and for [Unmarshal(data, dest)] the value it
    leaves in [dest] when its error is nil, or its error. *)
Variable Marshal : T -> list Byte.byte + error.
Variable Unmarshal : list Byte.byte -> T + error.

Definition GetObject (c : MemoryCache) (now : Time) (key : string) : T + error :=
  match Get c now key with
  | inr err => inr err
  | inl data => Unmarshal data
  end.

Definition SetObject (c : MemoryCache) (now : Time) (key : string) (v : T)
  (ttl : Duration) : MemoryCache * option error :=
  match Marshal v with
  | inr err => (c, Some err)
  | inl data => (Set_ c now key data ttl, None)
  end.

(** What a call of [GetOrSet] does. *)
Record gotOrSet : Type := {
  cacheAfter : MemoryCache;
  (** the value and the error it returns *)
  returned : T * option error;
  (** whether [compute] was called *)
  computed : bool
}.

(** [GetOrSet(ctx, c, key, ttl, compute)] on a [MemoryCache]; [compute ()]
    is what [compute] returns, [now] the clock as [Get] reads it and
    [now'] as [Set] does. *)
Definition GetOrSet (c : MemoryCache) (now now' : Time) (key : string)
  (ttl : Duration) (compute : unit -> T * option error) : gotOrSet :=
  match GetObject c now key with
  | inl result => {| cacheAfter := c; returned := (result, None); computed := false |}
  | inr _ =>
      match compute () with
      | (result, Some err) =>
          {| cacheAfter := c; returned := (result, Some err); computed := true |}
      | (result, None) =>
          {| cacheAfter := fst (SetObject c now' key result ttl);
             returned := (result, None);
             computed := true |}
      end
  end.
End Objects.

(** *** The key builder *)

Record KeyBuilder : Type := { prefix : string }.

Definition NewKeyBuilder (p : string) : KeyBuilder := {| prefix := p |}.

Definition Key (b : KeyBuilder) (parts : list string) : string :=
  foldl (λ key part,
           (if negb (String.eqb key "") then key +:+ ":" else key) +:+ part)
    (prefix b) parts.

Definition UserKey (b : KeyBuilder) (userID key : string) : string :=
  Key b ["user"; userID; key].

Definition TenantKey (b : KeyBuilder) (tenantID key : string) : string :=
  Key b ["tenant"; tenantID; key].

Definition SessionKey (b : KeyBuilder) (sessionID : string) : string :=
  Key b ["session"; sessionID].

End cache.

(** ** Token validation: the types both packages declare

    Package [middleware] and package [grpc] each declare
    [TokenValidationResult], the cached entry and the [TokenValidator]
    interface, field for field the same. *)

Record TokenValidationResult : Type := {
  Valid : bool;
  ClientID : string;
  ServiceName : string;
  TenantID : string;
  UserID : string;
  Scopes : list string;
  ExpiresAt : Time
}.

Record cachedValidation : Type := {
  result : TokenValidationResult;
  expiresAt : Time
}.

(** What [TokenValidator.ValidateToken(ctx, token)] returns: a pointer and
    an error. *)
Abbreviation TokenValidator :=
  (string -> option TokenValidationResult * option error) (only parsing).

(** ** Package [middleware]: [RemoteServiceAuthMiddleware] *)

Module middleware.

Record RemoteServiceAuthConfig : Type := {
  TokenValidator_ : TokenValidator;
  CacheTTL : Duration;
  SkipPaths : list string;
  RequiredScope : string;
  Enabled : bool
}.

(** [hasScopeInList] *)
Fixpoint hasScopeInList (scopes : list string) (required : string) : bool :=
  match scopes with
  | [] => false
  | scope :: rest =>
      if String.eqb scope "*" then true
      else if String.eqb scope required then true
      else
        let parts := strings.Split required ":"%char in
        if (length parts =? 2)%nat && String.eqb scope (nth 0 parts "" +:+ ":*")
        then true
        else hasScopeInList rest required
  end.

(** [TokenValidationCache.get], [now] being its reading of the clock. *)
Definition get (c : gmap string cachedValidation) (now : Time)
  (token : string) : option TokenValidationResult :=
  match c !! token with
  | None => None
  | Some cached =>
      if gotime.After now (expiresAt cached) then None
      else Some (result cached)
  end.

(** [TokenValidationCache.cleanup], [now] being its reading of the clock. *)
Definition cleanup (c : gmap string cachedValidation) (now : Time)
  : gmap string cachedValidation :=
  filter (λ kv, gotime.After now (expiresAt kv.2) = false) c.

(** [TokenValidationCache.set]; [now] is its reading of the clock, [now']
    the one of the [cleanup] it may call. *)
Definition set (c : gmap string cachedValidation) (now now' : Time)
  (token : string) (res : TokenValidationResult) (ttl : Duration)
  : gmap string cachedValidation :=
  let c1 := <[token := {| result := res; expiresAt := gotime.Add now ttl |}]> c in
  if 1000 <? Z.of_nat (size c1) then cleanup c1 now' else c1.

(** [InvalidateToken] and [ClearTokenCache] *)
Definition InvalidateToken (c : gmap string cachedValidation) (token : string)
  : gmap string cachedValidation := delete token c.
Definition ClearTokenCache (c : gmap string cachedValidation)
  : gmap string cachedValidation := ∅.

(** A value stored with [c.Locals(key, value)]. *)
Inductive local : Type :=
| LString (s : string)
| LStrings (l : list string).

(** How the handler ends: [c.Next()] after the listed [c.Locals] calls, a
    JSON reply with a status, or a panic (a nil result dereferenced). *)
Inductive outcome : Type :=
| Next (locals : list (string * local))
| Reply (status : Z) (body : list (string * string))
| Panic.

Definition StatusUnauthorized : Z := 401.
Definition StatusForbidden : Z := 403.

Record handled : Type := {
  out : outcome;
  (** the global [remoteTokenCache] when the handler returns *)
  tokenCache : gmap string cachedValidation;
  (** the tokens [ValidateToken] was called with, in order *)
  validated : list string
}.

Definition serviceLocals (v : TokenValidationResult) : list (string * local) :=
  [("serviceClientId", LString (ClientID v));
   ("serviceName", LString (ServiceName v));
   ("serviceScopes", LStrings (Scopes v));
   ("tenantId", LString (TenantID v))].

(** The handler [RemoteServiceAuthMiddleware(cfg)] returns, run on a
    request with path [path] and [Authorization] header [authHeader] (the
    empty string when the request has none), [remoteTokenCache] being
    [cache].  [clock 0] is the clock as [get] reads it, [clock 1] as [set]
    does and [clock 2] as the [cleanup] in [set] does. *)
Definition RemoteServiceAuthMiddleware (cfg : RemoteServiceAuthConfig)
  (cache : gmap string cachedValidation) (clock : nat -> Time)
  (path authHeader : string) : handled :=
  let ret o c calls := {| out := o; tokenCache := c; validated := calls |} in
  if negb (Enabled cfg) then ret (Next []) cache []
  else if existsb (λ p, strings.HasPrefix path p) (SkipPaths cfg)
  then ret (Next []) cache []
  else if String.eqb authHeader "" || negb (strings.HasPrefix authHeader "Bearer ")
  then ret (Reply StatusUnauthorized
              [("error", "Missing or invalid authorization header")]) cache []
  else
    let token := strings.slice_from 7 authHeader in
    match get cache (clock 0%nat) token with
    | Some cached =>
        if negb (String.eqb (RequiredScope cfg) "")
           && negb (hasScopeInList (Scopes cached) (RequiredScope cfg))
        then ret (Reply StatusForbidden [("error", "Insufficient permissions")])
               cache []
        else ret (Next (serviceLocals cached)) cache []
    | None =>
        match TokenValidator_ cfg token with
        | (_, Some err) =>
            ret (Reply StatusUnauthorized [("error", "Invalid service token")])
              cache [token]
        | (None, None) => ret Panic cache [token]
        | (Some validation, None) =>
            if negb (Valid validation)
            then ret (Reply StatusUnauthorized [("error", "Token is not valid")])
                   cache [token]
            else
              let ttl := if CacheTTL cfg =? 0 then 5 * gotime.Minute
                         else CacheTTL cfg in
              let cache' :=
                set cache (clock 1%nat) (clock 2%nat) token validation ttl in
              if negb (String.eqb (RequiredScope cfg) "")
                 && negb (hasScopeInList (Scopes validation) (RequiredScope cfg))
              then ret (Reply StatusForbidden
                          [("error", "Insufficient permissions");
                           ("required", RequiredScope cfg)]) cache' [token]
              else ret (Next (serviceLocals validation)) cache' [token]
        end
    end.

(** [c.Locals(key)] after the calls [c.Locals(k, v)] of [locals], made in
    that order: the value the last of them stored for [key], if any. *)
Fixpoint Locals (locals : list (string * local)) (key : string) : option local :=
  match locals with
  | [] => None
  | (k, v) :: rest =>
      match Locals rest key with
      | Some v' => Some v'
      | None => if String.eqb k key then Some v else None
      end
  end.

(** The handler [RequireScope(scope)] returns, run on a request whose
    locals are those of [locals]. *)
Definition RequireScope (scope : string) (locals : list (string * local)) : outcome :=
  match Locals locals "serviceScopes" with
  | Some (LStrings scopes) =>
      if negb (hasScopeInList scopes scope)
      then Reply StatusForbidden
             [("error", "Insufficient permissions"); ("required", scope)]
      else Next []
  | _ => Reply StatusForbidden [("error", "No scopes available")]
  end.

(** *** The tenant middleware *)

Module tenant.

Record TenantConfig : Type := {
  Enabled : bool;
  HeaderName : string;
  ExtractFromSubdomain : bool;
  BaseDomain : string;
  SkipPaths : list string;
  AllowMissingTenant : bool;
  ContextKey : string;
  (** [None] for a nil function *)
  TenantValidator : option (string -> bool)
}.

Definition StatusBadRequest : Z := 400.

(** How the handler ends: [c.Next()] after the listed [c.Locals] calls,
    or what [config.ErrorHandler] returns for the error
    [fiber.NewError(code, message)]. *)
Inductive outcome : Type :=
| Next (locals : list (string * local))
| HandlesError (code : Z) (message : string).

Definition extractTenantFromSubdomain (hostname baseDomain : string) : string :=
  let idx := strings.Index hostname ":" in
  let hostname :=
    if negb (idx =? -1) then strings.slice_to (Z.to_nat idx) hostname else hostname in
  if negb (strings.HasSuffix hostname baseDomain) then ""
  else
    let subdomain := strings.TrimSuffix hostname ("." +:+ baseDomain) in
    let subdomain := strings.TrimSuffix subdomain baseDomain in
    if String.eqb subdomain "" || String.eqb subdomain "www" || String.eqb subdomain "api"
    then ""
    else subdomain.

(** The handler [TenantMiddleware(config)] returns, run on a request with
    path [path] whose locals are those of [locals]; [Get] is [c.Get] on
    the headers, [Hostname] is [c.Hostname()] and [Query] is [c.Query]. *)
Definition TenantMiddleware (config : TenantConfig)
  (locals : list (string * local)) (Get : string -> string) (Hostname : string)
  (Query : string -> string) (path : string) : outcome :=
  let contextKey :=
    if String.eqb (ContextKey config) "" then "tenantId" else ContextKey config in
  let headerName :=
    if String.eqb (HeaderName config) "" then "X-Tenant-ID" else HeaderName config in
  if negb (Enabled config) then Next []
  else if existsb (λ skipPath, strings.HasPrefix path skipPath || String.eqb path skipPath)
            (SkipPaths config)
  then Next []
  else
    let tenantID :=
      match Locals locals "tenantId" with
      | Some (LString tid) => if negb (String.eqb tid "") then tid else ""
      | _ => ""
      end in
    let tenantID := if String.eqb tenantID "" then Get headerName else tenantID in
    let tenantID :=
      if String.eqb tenantID "" && ExtractFromSubdomain config
         && negb (String.eqb (BaseDomain config) "")
      then extractTenantFromSubdomain Hostname (BaseDomain config)
      else tenantID in
    let tenantID := if String.eqb tenantID "" then Query "tenant_id" else tenantID in
    if String.eqb tenantID "" then
      if AllowMissingTenant config then Next []
      else HandlesError StatusBadRequest "Tenant ID required"
    else
      match TenantValidator config with
      | Some validator =>
          if negb (validator tenantID)
          then HandlesError StatusBadRequest "Invalid tenant"
          else Next [(contextKey, LString tenantID)]
      | None => Next [(contextKey, LString tenantID)]
      end.

End tenant.

End middleware.

(** ** Package [grpc]: the authentication interceptor *)

Module grpc.

Record AuthInterceptorConfig : Type := {
  TokenValidator_ : TokenValidator;
  CacheTTL : Duration;
  ScopeMap : option (gmap string string);
  SkipMethods : list string;
  Enabled : bool
}.

Inductive contextKey : Type :=
| ServiceClientIDKey | ServiceNameKey | ServiceScopesKey | TenantIDKey | UserIDKey.

Inductive ctxValue : Type :=
| VString (s : string)
| VStrings (l : list string).

(** A context: the incoming metadata, if it has any, and the values added
    with [context.WithValue], the last one first. *)
Record Context : Type := {
  incoming : option (gmap string (list string));
  values : list (contextKey * ctxValue)
}.

Definition WithValue (ctx : Context) (k : contextKey) (v : ctxValue) : Context :=
  {| incoming := incoming ctx; values := (k, v) :: values ctx |}.

(** [md.Get(k)] for a key [k] in lower case *)
Definition md_Get (md : gmap string (list string)) (k : string) : list string :=
  default [] (md !! k).

Definition addServiceInfoToContext (ctx : Context) (validation : TokenValidationResult)
  : Context :=
  let ctx := WithValue ctx ServiceClientIDKey (VString (ClientID validation)) in
  let ctx := WithValue ctx ServiceNameKey (VString (ServiceName validation)) in
  let ctx := WithValue ctx ServiceScopesKey (VStrings (Scopes validation)) in
  let ctx := WithValue ctx TenantIDKey (VString (TenantID validation)) in
  if negb (String.eqb (UserID validation) "")
  then WithValue ctx UserIDKey (VString (UserID validation))
  else ctx.

(** [HasScope] *)
Fixpoint HasScope (scopes : list string) (required : string) : bool :=
  match scopes with
  | [] => false
  | scope :: rest =>
      if String.eqb scope "*" then true
      else if String.eqb scope required then true
      else
        let parts := strings.Split required ":"%char in
        if (length parts =? 2)%nat && String.eqb scope (nth 0 parts "" +:+ ":*")
        then true
        else HasScope rest required
  end.

(** [grpcTokenCache.get], [now] being its reading of the clock. *)
Definition get (c : gmap string cachedValidation) (now : Time)
  (token : string) : option TokenValidationResult :=
  match c !! token with
  | None => None
  | Some cached =>
      if gotime.After now (expiresAt cached) then None
      else Some (result cached)
  end.

(** [grpcTokenCache.cleanup], [now] being its reading of the clock. *)
Definition cleanup (c : gmap string cachedValidation) (now : Time)
  : gmap string cachedValidation :=
  filter (λ kv, gotime.After now (expiresAt kv.2) = false) c.

(** [grpcTokenCache.set]; [now] is its reading of the clock, [now'] the
    one of the [cleanup] it may call. *)
Definition set (c : gmap string cachedValidation) (now now' : Time)
  (token : string) (res : TokenValidationResult) (ttl : Duration)
  : gmap string cachedValidation :=
  let c1 := <[token := {| result := res; expiresAt := gotime.Add now ttl |}]> c in
  if 1000 <? Z.of_nat (size c1) then cleanup c1 now' else c1.

(** How [validateGRPCToken] ends: the context and error it returns, or a
    panic (a nil result dereferenced). *)
Inductive outcome : Type :=
| Authenticated (newCtx : Context)
| Rejected (err : error)
| Panic.

Record validatedCall : Type := {
  out : outcome;
  (** the global [tokenCache] when the function returns *)
  tokenCache : gmap string cachedValidation;
  (** the tokens [ValidateToken] was called with, in order *)
  validated : list string
}.

(** [validateGRPCToken(ctx, cfg)], the global [tokenCache] being [cache];
    [clock 0] is the clock as [get] reads it, [clock 1] as [set] does and
    [clock 2] as the [cleanup] in [set] does. *)
Definition validateGRPCToken (ctx : Context) (cfg : AuthInterceptorConfig)
  (cache : gmap string cachedValidation) (clock : nat -> Time) : validatedCall :=
  let ret o c calls := {| out := o; tokenCache := c; validated := calls |} in
  match incoming ctx with
  | None =>
      ret (Rejected (statusError codes.Unauthenticated "missing metadata")) cache []
  | Some md =>
      match md_Get md "authorization" with
      | [] =>
          ret (Rejected (statusError codes.Unauthenticated
                           "missing authorization header")) cache []
      | authHeader0 :: _ =>
          let token := strings.TrimPrefix authHeader0 "Bearer " in
          if String.eqb token authHeader0
          then ret (Rejected (statusError codes.Unauthenticated
                                "invalid authorization format")) cache []
          else
            match get cache (clock 0%nat) token with
            | Some cached =>
                ret (Authenticated (addServiceInfoToContext ctx cached)) cache []
            | None =>
                match TokenValidator_ cfg token with
                | (_, Some err) =>
                    ret (Rejected (statusError codes.Unauthenticated
                                     "token validation failed")) cache [token]
                | (None, None) => ret Panic cache [token]
                | (Some validation, None) =>
                    if negb (Valid validation)
                    then ret (Rejected (statusError codes.Unauthenticated
                                          "invalid token")) cache [token]
                    else
                      let ttl := if CacheTTL cfg =? 0 then 5 * gotime.Minute
                                 else CacheTTL cfg in
                      let cache' :=
                        set cache (clock 1%nat) (clock 2%nat) token validation ttl in
                      ret (Authenticated (addServiceInfoToContext ctx validation))
                        cache' [token]
                end
            end
      end
  end.

Definition ClearGRPCTokenCache (c : gmap string cachedValidation)
  : gmap string cachedValidation := ∅.

Definition contextKey_eqb (a b : contextKey) : bool :=
  match a, b with
  | ServiceClientIDKey, ServiceClientIDKey
  | ServiceNameKey, ServiceNameKey
  | ServiceScopesKey, ServiceScopesKey
  | TenantIDKey, TenantIDKey
  | UserIDKey, UserIDKey => true
  | _, _ => false
  end.

(** [ctx.Value(key)]: the value of the last [context.WithValue] for
    [key], if any. *)
Fixpoint Value_ (values : list (contextKey * ctxValue)) (key : contextKey)
  : option ctxValue :=
  match values with
  | [] => None
  | (k, v) :: rest => if contextKey_eqb k key then Some v else Value_ rest key
  end.

Definition Value (ctx : Context) (key : contextKey) : option ctxValue :=
  Value_ (values ctx) key.

(** [v, _ := ctx.Value(key).(string)] and [v, _ := ctx.Value(key).([]string)] *)
Definition asString (v : option ctxValue) : string :=
  match v with Some (VString s) => s | _ => "" end.
Definition asStrings (v : option ctxValue) : list string :=
  match v with Some (VStrings l) => l | _ => [] end.

Definition GetServiceClientID (ctx : Context) : string :=
  asString (Value ctx ServiceClientIDKey).
Definition GetServiceName (ctx : Context) : string :=
  asString (Value ctx ServiceNameKey).
Definition GetServiceScopes (ctx : Context) : list string :=
  asStrings (Value ctx ServiceScopesKey).
Definition GetTenantID (ctx : Context) : string :=
  asString (Value ctx TenantIDKey).
Definition GetUserID (ctx : Context) : string :=
  asString (Value ctx UserIDKey).

(** How an interceptor ends: it calls the handler, for a unary call with
    the context [ctx] and for a stream with a stream whose [Context()] is
    [ctx], and returns what the handler returns; it returns an error
    without calling the handler; or it panics. *)
Inductive intercepted : Type :=
| CallsHandler (ctx : Context)
| Refuses (err : error)
| Panics.

Record interceptedCall : Type := {
  did : intercepted;
  (** the global [tokenCache] when the interceptor returns *)
  cacheAfter : gmap string cachedValidation;
  (** the tokens [ValidateToken] was called with, in order *)
  validatorCalls : list string
}.

(** The interceptor [UnaryAuthInterceptor(cfg)] returns, run on a call of
    method [FullMethod] with context [ctx], the global [tokenCache] being
    [cache]; [clock] is as for [validateGRPCToken]. *)
Definition UnaryAuthInterceptor (cfg : AuthInterceptorConfig)
  (cache : gmap string cachedValidation) (clock : nat -> Time)
  (ctx : Context) (FullMethod : string) : interceptedCall :=
  let ret d c calls := {| did := d; cacheAfter := c; validatorCalls := calls |} in
  if negb (Enabled cfg) then ret (CallsHandler ctx) cache []
  else if existsb (λ method, String.eqb FullMethod method) (SkipMethods cfg)
  then ret (CallsHandler ctx) cache []
  else
    let v := validateGRPCToken ctx cfg cache clock in
    match out v with
    | Rejected err => ret (Refuses err) (tokenCache v) (validated v)
    | Panic => ret Panics (tokenCache v) (validated v)
    | Authenticated newCtx =>
        let refuse :=
          ret (Refuses (statusError codes.PermissionDenied "insufficient permissions"))
            (tokenCache v) (validated v) in
        let proceed := ret (CallsHandler newCtx) (tokenCache v) (validated v) in
        match ScopeMap cfg with
        | Some scopeMap =>
            let requiredScope := default "" (scopeMap !! FullMethod) in
            if negb (String.eqb requiredScope "") then
              match Value newCtx ServiceScopesKey with
              | Some (VStrings scopes) =>
                  if negb (HasScope scopes requiredScope) then refuse else proceed
              | _ => refuse
              end
            else proceed
        | None => proceed
        end
    end.

(** The interceptor [StreamAuthInterceptor(cfg)] returns, run on a stream
    of method [FullMethod] whose [Context()] is [ctx]. *)
Definition StreamAuthInterceptor (cfg : AuthInterceptorConfig)
  (cache : gmap string cachedValidation) (clock : nat -> Time)
  (ctx : Context) (FullMethod : string) : interceptedCall :=
  let ret d c calls := {| did := d; cacheAfter := c; validatorCalls := calls |} in
  if negb (Enabled cfg) then ret (CallsHandler ctx) cache []
  else if existsb (λ method, String.eqb FullMethod method) (SkipMethods cfg)
  then ret (CallsHandler ctx) cache []
  else
    let v := validateGRPCToken ctx cfg cache clock in
    match out v with
    | Rejected err => ret (Refuses err) (tokenCache v) (validated v)
    | Panic => ret Panics (tokenCache v) (validated v)
    | Authenticated newCtx =>
        let refuse :=
          ret (Refuses (statusError codes.PermissionDenied "insufficient permissions"))
            (tokenCache v) (validated v) in
        let proceed := ret (CallsHandler newCtx) (tokenCache v) (validated v) in
        match ScopeMap cfg with
        | Some scopeMap =>
            let requiredScope := default "" (scopeMap !! FullMethod) in
            if negb (String.eqb requiredScope "") then
              match Value newCtx ServiceScopesKey with
              | Some (VStrings scopes) =>
                  if negb (HasScope scopes requiredScope) then refuse else proceed
              | _ => refuse
              end
            else proceed
        | None => proceed
        end
    end.

End grpc.

(** ** Package [limiter]: the per-key rate limiter *)

Module limiter.

(** A [rate.Limiter] pointer is the address of the limiter on the heap;
    the heap records the rate and burst each limiter was created with. *)
Abbreviation LimiterPtr := nat (only parsing).

Record limiterEntry : Type := {
  limiter_ : LimiterPtr;
  lastSeen : Time
}.

Record IPRateLimiter : Type := {
  ips : gmap string limiterEntry;
  r : float;
  b : Z;
  ttl : Duration;
  stopped : bool
}.

(** The limiter object and the heap of [rate.Limiter]s: [rate.NewLimiter]
    allocates at the end of [heap]. *)
Record world : Type := {
  lim : IPRateLimiter;
  heap : list (float * Z)
}.

Definition with_ips (i : IPRateLimiter) (m : gmap string limiterEntry) : IPRateLimiter :=
  {| ips := m; r := r i; b := b i; ttl := ttl i; stopped := stopped i |}.

Definition NewIPRateLimiterWithTTL (r0 : float) (b0 : Z) (ttl0 cleanupInterval : Duration)
  : IPRateLimiter :=
  {| ips := ∅; r := r0; b := b0;
     ttl := if ttl0 =? 0 then gotime.Hour else ttl0;
     stopped := false |}.

Definition NewIPRateLimiter (r0 : float) (b0 : Z) : IPRateLimiter :=
  NewIPRateLimiterWithTTL r0 b0 gotime.Hour (5 * gotime.Minute).

(** [cleanup], one critical section; [now] is its reading of the clock. *)
Definition cleanup (w : world) (now : Time) : world :=
  let cutoff := gotime.Add now (- ttl (lim w)) in
  {| lim := with_ips (lim w)
              (filter (λ kv, gotime.Before (lastSeen kv.2) cutoff = false)
                 (ips (lim w)));
     heap := heap w |}.

(** [AddIP], one critical section: it holds [mu] from its first statement
    to its return. *)
Definition AddIP (w : world) (now : Time) (ip : string) : world * LimiterPtr :=
  let limiter := length (heap w) in
  ({| lim := with_ips (lim w)
               (<[ip := {| limiter_ := limiter; lastSeen := now |}]> (ips (lim w)));
      heap := heap w ++ [(r (lim w), b (lim w))] |},
   limiter).

(** The critical section of [GetLimiter], from [i.mu.Lock()] to the
    [i.mu.Unlock()] of the branch taken: [Some l] when the entry exists
    and [l] is returned, [None] when it does not and [AddIP] is called
    next, the lock released. *)
Definition GetLimiter_locked (w : world) (now : Time) (ip : string)
  : world * option LimiterPtr :=
  match ips (lim w) !! ip with
  | None => (w, None)
  | Some entry =>
      ({| lim := with_ips (lim w)
                   (<[ip := {| limiter_ := limiter_ entry; lastSeen := now |}]>
                      (ips (lim w)));
          heap := heap w |},
       Some (limiter_ entry))
  end.

(** [GetLimiter] run with no other goroutine in between; [now] and [now']
    are the readings of the clock in [GetLimiter] and in [AddIP]. *)
Definition GetLimiter (w : world) (now now' : Time) (ip : string) : world * LimiterPtr :=
  match GetLimiter_locked w now ip with
  | (w', Some l) => (w', l)
  | (w', None) => AddIP w' now' ip
  end.

Definition Len (w : world) : nat := size (ips (lim w)).

(** *** Goroutines calling [GetLimiter]

    The mutex makes each critical section atomic, so an execution of
    several goroutines is an interleaving of their critical sections. *)

Inductive goroutine : Type :=
| Calling (ip : string)
    (** about to enter [GetLimiter(ip)] *)
| Adding (ip : string)
    (** in [GetLimiter(ip)], lock released, about to enter [AddIP(ip)] *)
| Returned (l : LimiterPtr).

Record system : Type := {
  shared : world;
  goroutines : list goroutine
}.

(** Goroutine [g] runs its next critical section at time [now]. *)
Definition step (s : system) (g : nat) (now : Time) : system :=
  match goroutines s !! g with
  | Some (Calling ip) =>
      match GetLimiter_locked (shared s) now ip with
      | (w', Some l) =>
          {| shared := w'; goroutines := <[g := Returned l]> (goroutines s) |}
      | (w', None) =>
          {| shared := w'; goroutines := <[g := Adding ip]> (goroutines s) |}
      end
  | Some (Adding ip) =>
      let '(w', l) := AddIP (shared s) now ip in
      {| shared := w'; goroutines := <[g := Returned l]> (goroutines s) |}
  | Some (Returned _) | None => s
  end.

(** A schedule lists, in order, which goroutine runs and what the clock
    reads then. *)
Fixpoint run (schedule : list (nat * Time)) (s : system) : system :=
  match schedule with
  | [] => s
  | (g, now) :: rest => run rest (step s g now)
  end.

Definition Clear (w : world) : world :=
  {| lim := with_ips (lim w) ∅; heap := heap w |}.

(** The critical sections of the methods, each what a goroutine does
    between taking [mu] and releasing it, with the clock as it reads it:
    the first part of [GetLimiter(ip)], up to the [Unlock] of the branch
    taken; [AddIP(ip)], called by [GetLimiter] or by a user; [cleanup];
    [Clear]. *)
Inductive critical : Type :=
| Looks (ip : string) (now : Time)
| Adds (ip : string) (now : Time)
| Sweeps (now : Time)
| Clears.

Definition exec (w : world) (cs : critical) : world :=
  match cs with
  | Looks ip now => fst (GetLimiter_locked w now ip)
  | Adds ip now => fst (AddIP w now ip)
  | Sweeps now => cleanup w now
  | Clears => Clear w
  end.

(** An execution of any number of goroutines: the critical sections in
    the order the mutex admits them. *)
Definition execs (w : world) (l : list critical) : world := foldl exec w l.

End limiter.

(** ** Package [common] *)

Module common.

(** The inner loop of [ContainsAll]: whether [elem] is an item of [slice]. *)
Fixpoint found (slice : list string) (elem : string) : bool :=
  match slice with
  | [] => false
  | item :: rest => if String.eqb item elem then true else found rest elem
  end.

Fixpoint ContainsAll (slice elements : list string) : bool :=
  match elements with
  | [] => true
  | elem :: rest =>
      if negb (found slice elem) then false else ContainsAll slice rest
  end.

(** *** Phone numbers *)

Record PhoneNumberConfig : Type := {
  DefaultCountryCode : string;
  Format : string
}.

Definition FormatE164 : string := "e164".
Definition FormatLocal : string := "local".
Definition FormatInternational : string := "international".

(** A byte that the class [\d] of package [regexp] matches: an ASCII
    digit. *)
Definition isDigit (a : ascii) : bool :=
  (48 <=? nat_of_ascii a)%nat && (nat_of_ascii a <=? 57)%nat.

(** [digitRegex.ReplaceAllString(s, "")] for the expression [\D]: what
    is not an ASCII digit goes, and no byte of a longer rune is one. *)
Fixpoint onlyDigits (s : string) : string :=
  match s with
  | EmptyString => EmptyString
  | String a s' => if isDigit a then String a (onlyDigits s') else onlyDigits s'
  end.

Definition NormalizePhoneNumber (phone : string) (config : PhoneNumberConfig) : string :=
  if String.eqb phone "" then ""
  else
    let format := if String.eqb (Format config) "" then FormatE164 else Format config in
    let digits := onlyDigits phone in
    let digits := strings.TrimLeft digits "0" in
    let digits :=
      if negb (String.eqb (DefaultCountryCode config) "")
         && negb (strings.HasPrefix digits (DefaultCountryCode config))
      then DefaultCountryCode config +:+ digits
      else digits in
    if String.eqb format FormatE164 then "+" +:+ digits
    else if String.eqb format FormatLocal then
      let digits :=
        if negb (String.eqb (DefaultCountryCode config) "")
           && strings.HasPrefix digits (DefaultCountryCode config)
        then strings.TrimPrefix digits (DefaultCountryCode config)
        else digits in
      "0" +:+ digits
    else if String.eqb format FormatInternational then digits
    else "+" +:+ digits.

Definition NormalizeIranPhone (phone : string) : string :=
  NormalizePhoneNumber phone
    {| DefaultCountryCode := "98"; Format := FormatE164 |}.

Definition NormalizeIranPhoneLocal (phone : string) : string :=
  NormalizePhoneNumber phone
    {| DefaultCountryCode := "98"; Format := FormatLocal |}.

(** Whether every byte of [s] is an ASCII digit. *)
Fixpoint allDigits (s : string) : bool :=
  match s with
  | EmptyString => true
  | String a s' => isDigit a && allDigits s'
  end.

(** [regexp.MatchString(`^09\d{9}$`, s)]: the text is [09] and nine
    more digits. *)
Definition matchIranMobile (s : string) : bool :=
  match s with
  | String "0" (String "9" rest) =>
      (String.length rest =? 9)%nat && allDigits rest
  | _ => false
  end.

Definition ValidateIranMobileNumber (phone : string) : bool :=
  let normalized := NormalizeIranPhoneLocal phone in
  if negb (String.length normalized =? 11)%nat then false
  else if negb (strings.HasPrefix normalized "09") then false
  else matchIranMobile normalized.

End common.

(** ** Package [pagination] *)

Module pagination.

Definition DefaultPageSize : Z := 20.
Definition MaxPageSize : Z := 100.

Record Params : Type := {
  Page : Z;
  PerPage : Z;
  Cursor : string;
  Sort : string;
  Order : string
}.

Section ParseParams.
(** [c.Query(key, defaultValue...)] of the request, and [strconv.Atoi]
    with its error dropped and [strconv.Itoa]. *)
Variable Query : string -> list string -> string.
Variable Atoi : string -> Z.
Variable Itoa : Z -> string.

Definition ParseParams : Params :=
  let page := Atoi (Query "page" ["1"]) in
  let perPage := Atoi (Query "per_page" [Itoa DefaultPageSize]) in
  let page := if page <? 1 then 1 else page in
  let perPage := if perPage <? 1 then DefaultPageSize else perPage in
  let perPage := if MaxPageSize <? perPage then MaxPageSize else perPage in
  let order := Query "order" ["desc"] in
  let order :=
    if negb (String.eqb order "asc") && negb (String.eqb order "desc")
    then "desc" else order in
  {| Page := page;
     PerPage := perPage;
     Cursor := Query "cursor" [];
     Sort := Query "sort" ["created_at"];
     Order := order |}.
End ParseParams.

Definition Offset (p : Params) : Z := int64 ((Page p - 1) * PerPage p).
Definition Limit (p : Params) : Z := PerPage p.

End pagination.

(** * What the specification's words mean on the model *)

(** The error [Do] keeps in [lastErr] when the attempt that returned [r]
    is one it retries: any error, or a response whose status is in
    [RetryableErrors]; [None] when the attempt is not retried. *)
Definition httpRetryable {L I : Type} (c : httpclient.Client L I)
  (r : httpclient.Response + error) : option error :=
  match r with
  | inl resp =>
      if httpclient.shouldRetry c (httpclient.StatusCode resp)
      then Some (httpStatusError (httpclient.StatusCode resp) (httpclient.Body resp))
      else None
  | inr err => Some err
  end.

(** The error the retry interceptor keeps in [lastErr] when the call that
    returned [r] is one it retries: an error whose code is in
    [RetryableCodes]. *)
Definition grpcRetryable (cfg : grpcclient.RetryConfig) (statusCode : error -> Z)
  (r : option error) : option error :=
  match r with
  | Some err =>
      if grpcclient.shouldRetryCode (statusCode err) (grpcclient.RetryableCodes cfg)
      then Some err else None
  | None => None
  end.

(** [has_byte a s]: the byte [a] occurs in [s]. *)
Fixpoint has_byte (a : ascii) (s : string) : bool :=
  match s with
  | EmptyString => false
  | String b s' => Ascii.eqb b a || has_byte a s'
  end.

(** The held scope [scope] satisfies [required] as the specification has
    it: the universal scope, the required scope itself, or the resource
    wildcard [x:*] for a required scope [x:y] of one resource and one
    action. *)
Definition satisfies (scope required : string) : Prop :=
  scope = "*" \/
  scope = required \/
  exists x y : string,
    required = x +:+ ":" +:+ y /\
    has_byte ":" x = false /\ has_byte ":" y = false /\
    scope = x +:+ ":*".

(** The bearer token a header value carries: what follows the prefix
    ["Bearer "], when the value has it. *)
Definition bearerToken (header : string) : option string :=
  if strings.HasPrefix header "Bearer " then Some (strings.slice_from 7 header)
  else None.

(** The first value of the [authorization] key of the incoming metadata. *)
Definition grpcAuthorization (ctx : grpc.Context) : option string :=
  match grpc.incoming ctx with
  | Some md => head (grpc.md_Get md "authorization")
  | None => None
  end.

(** The remote validation did not report a valid token. *)
Definition validationFailed (r : option TokenValidationResult * option error) : Prop :=
  match r with
  | (_, Some _) => True
  | (Some v, None) => Valid v = false
  | (None, None) => False
  end.

(** ** Binary64 numbers that are at least one

    The delays of the backoff are products of floats that are at least
    one; the notions below describe such floats, their order and the
    rounding of their products. *)



(** [big f]: [f] is a normal positive number with exponent at least -52,
    so a number that is at least 1, or positive infinity. *)
Definition big (f : spec_float) : Prop :=
  match f with
  | S754_finite false m e => Z.pos (digits2_pos m) = 53 /\ -52 <= e <= 971
  | S754_infinity false => True
  | _ => False
  end.

(** The order of such floats: by exponent, then by mantissa. *)
Definition le_big (f g : spec_float) : Prop :=
  match f, g with
  | S754_finite _ m1 e1, S754_finite _ m2 e2 =>
      e1 < e2 \/ (e1 = e2 /\ Z.pos m1 <= Z.pos m2)
  | _, S754_infinity _ => True
  | _, _ => False
  end.




(** ** Concrete clients and collaborators *)

Module examples.

Definition retry503 (k : Z) : httpclient.RetryConfig :=
  {| httpclient.MaxRetries := k;
     httpclient.InitialDelay := 100 * gotime.Millisecond;
     httpclient.MaxDelay := 5 * gotime.Second;
     httpclient.BackoffFactor := 2.0%float;
     httpclient.RetryableErrors := [503] |}.

Definition httpClient (k : Z) : httpclient.Client unit unit :=
  {| httpclient.httpClient_Timeout := 30 * gotime.Second;
     httpclient.logger := tt;
     httpclient.retryConfig := retry503 k;
     httpclient.baseURL := "http://orders";
     httpclient.serviceName := "orders";
     httpclient.interceptors := [] |}.

Definition response (status : Z) (body : string) : httpclient.Response :=
  {| httpclient.StatusCode := status;
     httpclient.Body := body;
     httpclient.Headers := [] |}.

Definition retryUnavailable (k : Z) : grpcclient.RetryConfig :=
  {| grpcclient.MaxRetries := k;
     grpcclient.InitialDelay := 100 * gotime.Millisecond;
     grpcclient.MaxDelay := 5 * gotime.Second;
     grpcclient.BackoffFactor := 2.0%float;
     grpcclient.RetryableCodes := [codes.Unavailable] |}.

(** [status.FromError(err).Code()] of grpc-go for the errors of the model. *)
Definition statusCode (err : error) : Z :=
  match err with
  | statusError code _ => code
  | _ => codes.Unknown
  end.

Definition neverDone : Z -> option ContextErr := λ _, None.
Definition doneAt (n : Z) (e : ContextErr) : Z -> option ContextErr :=
  λ a, if a =? n then Some e else None.

Definition httpConfig (rc : httpclient.RetryConfig) : httpclient.Config unit unit :=
  {| httpclient.BaseURL := "http://orders";
     httpclient.ServiceName := "orders";
     httpclient.Timeout := 0;
     httpclient.RetryConfig_ := rc;
     httpclient.Logger_ := tt;
     httpclient.Interceptors := [] |}.

Definition grpcConfig (rc : grpcclient.RetryConfig) : grpcclient.Config unit unit unit :=
  {| grpcclient.Target := "orders:9090";
     grpcclient.ServiceName := "orders";
     grpcclient.RetryConfig_ := rc;
     grpcclient.Logger_ := tt;
     grpcclient.Interceptors := [];
     grpcclient.StreamInterceptors := [] |}.

Definition validToken : TokenValidationResult :=
  {| Valid := true;
     ClientID := "client-1";
     ServiceName := "billing";
     TenantID := "tenant-1";
     UserID := "";
     Scopes := ["notifications:send"];
     ExpiresAt := 4000 |}.

(** A validator that knows the token ["tok"], reports ["old"] as not
    valid and fails on every other token. *)
Definition validator : TokenValidator :=
  λ token,
    if String.eqb token "tok" then (Some validToken, None)
    else if String.eqb token "old"
    then (Some {| Valid := false; ClientID := ""; ServiceName := "";
                  TenantID := ""; UserID := ""; Scopes := []; ExpiresAt := 0 |},
          None)
    else (None, Some (errorString "auth service: unknown token")).

Definition authConfig : middleware.RemoteServiceAuthConfig :=
  {| middleware.TokenValidator_ := validator;
     middleware.CacheTTL := 0;
     middleware.SkipPaths := ["/health"];
     middleware.RequiredScope := "notifications:send";
     middleware.Enabled := true |}.

Definition grpcAuthConfig : grpc.AuthInterceptorConfig :=
  {| grpc.TokenValidator_ := validator;
     grpc.CacheTTL := 0;
     grpc.ScopeMap := None;
     grpc.SkipMethods := [];
     grpc.Enabled := true |}.

Definition clock : nat -> Time := λ n, 1000 + Z.of_nat n.

(** An incoming context whose [authorization] metadata is [values]. *)
Definition incomingWith (values : list string) : grpc.Context :=
  {| grpc.incoming := Some {["authorization" := values]}; grpc.values := [] |}.


End examples.

(** The client [NewClient] returns for [examples.grpcConfig] with
    [MaxRetries = 0] when dialling succeeds. *)
Definition dialledDefault : grpcclient.Client unit unit unit :=
  {| grpcclient.conn :=
       {| grpcclient.connTarget := "orders:9090";
          grpcclient.chainUnary :=
            [grpcclient.LoggingInterceptor tt "orders";
             grpcclient.RetryInterceptor tt "orders" grpcclient.DefaultRetryConfig];
          grpcclient.chainStream := [grpcclient.StreamLoggingInterceptor tt "orders"] |};
     grpcclient.logger := tt;
     grpcclient.retryConfig := grpcclient.DefaultRetryConfig;
     grpcclient.target := "orders:9090";
     grpcclient.serviceName := "orders" |}.

(** Two goroutines that call [GetLimiter] for one key no goroutine has
    asked for before. *)
Definition twoCallers : limiter.system :=
  {| limiter.shared :=
       {| limiter.lim := limiter.NewIPRateLimiter 10%float 20;
          limiter.heap := [] |};
     limiter.goroutines := [limiter.Calling "10.0.0.7"; limiter.Calling "10.0.0.7"] |}.

(** Both goroutines pass the existence check before either calls [AddIP]. *)
Definition bothCheckFirst : list (nat * Time) :=
  [(0%nat, 1000); (1%nat, 1001); (0%nat, 1002); (1%nat, 1003)].

(** ** The trace of a run of retried attempts *)

(** What the iteration of a retry loop for attempt [attempt] does: from
    the second attempt on, a wait of the backoff delay, then the
    attempt. *)
Definition iteration (delay : Z -> option Duration) (attempt : Z) : list event :=
  if 0 <? attempt then [EvWait attempt (delay attempt); EvAttempt attempt]
  else [EvAttempt attempt].

(** [n] iterations in a row, from attempt [attempt] on. *)
Fixpoint iterations (delay : Z -> option Duration) (attempt : Z) (n : nat)
  : list event :=
  match n with
  | O => []
  | S n' => iteration delay attempt ++ iterations delay (attempt + 1) n'
  end.

(** ** The state of the rate limiter *)

(** Every entry of the map points to a limiter of the heap that was
    created with the rate and burst of the object, and no two keys share
    a limiter. *)
Definition bucketsSeparate (w : limiter.world) : Prop :=
  (forall ip e,
      limiter.ips (limiter.lim w) !! ip = Some e ->
      limiter.heap w !! limiter.limiter_ e
      = Some (limiter.r (limiter.lim w), limiter.b (limiter.lim w))) /\
  (forall ip1 ip2 e1 e2,
      limiter.ips (limiter.lim w) !! ip1 = Some e1 ->
      limiter.ips (limiter.lim w) !! ip2 = Some e2 ->
      limiter.limiter_ e1 = limiter.limiter_ e2 -> ip1 = ip2).

(** The limiter [NewIPRateLimiter(10, 20)] returns, no bucket made yet. *)
Definition freshLimiter : limiter.world :=
  {| limiter.lim := limiter.NewIPRateLimiter 10%float 20; limiter.heap := [] |}.

(** A mobile number of the national plan without its leading zero: the
    digit 9, a digit other than 8, and eight digits more. *)
Definition mobileDigits (n : string) : Prop :=
  exists d rest,
    n = String "9" (String d rest) /\
    common.isDigit d = true /\ d <> "8"%char /\
    common.allDigits rest = true /\ String.length rest = 8%nat.

(** ** Further collaborators and examples *)

(** A serializer of numbers for the examples: a sign byte and one byte
    for every unit of the magnitude. *)
Definition tallyMarshal (z : Z) : list Byte.byte :=
  (if 0 <=? z then Byte.x00 else Byte.x01) :: replicate (Z.abs_nat z) Byte.x2a.

Definition tallyUnmarshal (data : list Byte.byte) : Z :=
  match data with
  | [] => 0
  | Byte.x00 :: rest => Z.of_nat (length rest)
  | _ :: rest => - Z.of_nat (length rest)
  end.

(** A cache with the default options that holds one key, set at time
    1000 to live for 60. *)
Definition sessionCache : cache.MemoryCache :=
  cache.Set_ (cache.NewMemoryCache []) 1000 "session" [Byte.x2a] 60.

(** An interceptor configuration that skips the health check and asks
    for a scope on one method. *)
Definition scopedGrpcConfig : grpc.AuthInterceptorConfig :=
  {| grpc.TokenValidator_ := examples.validator;
     grpc.CacheTTL := 0;
     grpc.ScopeMap :=
       Some {["/notify.Notifier/Send" := "notifications:send";
              "/billing.Ledger/Post" := "billing:write"]};
     grpc.SkipMethods := ["/grpc.health.v1.Health/Check"];
     grpc.Enabled := true |}.

(** A middleware configuration whose validator rejects every token. *)
Definition rejectingConfig : middleware.RemoteServiceAuthConfig :=
  {| middleware.TokenValidator_ :=
       λ _, (None, Some (errorString "auth service: token revoked"));
     middleware.CacheTTL := 0;
     middleware.SkipPaths := [];
     middleware.RequiredScope := "";
     middleware.Enabled := true |}.

(** A middleware configuration that asks for no scope, and the same with
    a required scope. *)
Definition unscopedConfig : middleware.RemoteServiceAuthConfig :=
  {| middleware.TokenValidator_ := examples.validator;
     middleware.CacheTTL := 0;
     middleware.SkipPaths := ["/health"];
     middleware.RequiredScope := "";
     middleware.Enabled := true |}.

Definition unscopedConfigWith : middleware.RemoteServiceAuthConfig :=
  {| middleware.TokenValidator_ := middleware.TokenValidator_ unscopedConfig;
     middleware.CacheTTL := middleware.CacheTTL unscopedConfig;
     middleware.SkipPaths := middleware.SkipPaths unscopedConfig;
     middleware.RequiredScope := "billing:write";
     middleware.Enabled := middleware.Enabled unscopedConfig |}.

(** The tenant middleware as [DefaultTenantConfig] sets it up, with the
    tenant also read from the subdomains of [example.com]. *)
Definition tenantConfig : middleware.tenant.TenantConfig :=
  {| middleware.tenant.Enabled := true;
     middleware.tenant.HeaderName := "X-Tenant-ID";
     middleware.tenant.ExtractFromSubdomain := true;
     middleware.tenant.BaseDomain := "example.com";
     middleware.tenant.SkipPaths := ["/health"; "/ready"; "/metrics"];
     middleware.tenant.AllowMissingTenant := true;
     middleware.tenant.ContextKey := "tenantId";
     middleware.tenant.TenantValidator := None |}.

(** The serializer of the examples on numbers, as [GetOrSet] uses it. *)
Definition tallyEncode (z : Z) : list Byte.byte + error := inl (tallyMarshal z).
Definition tallyDecode (data : list Byte.byte) : Z + error := inl (tallyUnmarshal data).

(** A first [GetOrSet] on an empty cache, whose [compute] returns 42. *)
Definition computedOnce : cache.gotOrSet :=
  cache.GetOrSet tallyEncode tallyDecode (cache.NewMemoryCache []) 1000 1001
    "answer" 60 (λ _, (42, None)).

(** * Properties *)

Lemma attempts_cons_attempt a tr : attempts (EvAttempt a :: tr) = S (attempts tr).
Proof. reflexivity. Qed.

Lemma attempts_cons_wait a d tr : attempts (EvWait a d :: tr) = attempts tr.
Proof. reflexivity. Qed.

Lemma attempts_app tr1 tr2 : attempts (tr1 ++ tr2) = (attempts tr1 + attempts tr2)%nat.
Proof. unfold attempts. by rewrite List.filter_app, length_app. Qed.

(** ** The retry loop of [httpclient.Client.Do] *)

Section DoFacts.
Context {L I : Type}.
Variable c : httpclient.Client L I.
Variable ctxDone : Z -> option ContextErr.
Variable doRequest : Z -> httpclient.Response + error.

Let loop := httpclient.Do_loop c ctxDone doRequest.

(** One iteration that is retried: the wait (from the second attempt on)
    is not cancelled and the attempt fails with a retryable outcome. *)
Lemma Do_loop_retry fuel attempt lastErr e :
  (0 < attempt -> ctxDone attempt = None) ->
  httpRetryable c (doRequest attempt) = Some e ->
  exists pre,
    attempts pre = 1%nat /\
    loop (S fuel) attempt lastErr
    = (fst (loop fuel (attempt + 1) (Some e)),
       pre ++ snd (loop fuel (attempt + 1) (Some e))).
Proof.
  intros Hwait Hfail. subst loop. cbn [httpclient.Do_loop].
  unfold httpRetryable in Hfail.
  destruct (0 <? attempt) eqn:Hpos.
  - apply Z.ltb_lt in Hpos. rewrite (Hwait Hpos).
    exists [EvWait attempt (httpclient.calculateBackoff c attempt); EvAttempt attempt].
    split; [reflexivity|].
    destruct (doRequest attempt) as [resp | err].
    + destruct (httpclient.shouldRetry c (httpclient.StatusCode resp)); [|discriminate].
      injection Hfail as <-. reflexivity.
    + injection Hfail as <-. reflexivity.
  - exists [EvAttempt attempt]. split; [reflexivity|].
    destruct (doRequest attempt) as [resp | err].
    + destruct (httpclient.shouldRetry c (httpclient.StatusCode resp)); [|discriminate].
      injection Hfail as <-. reflexivity.
    + injection Hfail as <-. reflexivity.
Qed.

(** [n] iterations that are all retried: the loop runs [n] attempts and
    goes on from attempt [attempt + n] with the last failure in
    [lastErr]. *)
Lemma Do_loop_retries n : forall fuel attempt lastErr,
  (forall a, attempt <= a < attempt + Z.of_nat n -> 0 < a -> ctxDone a = None) ->
  (forall a, attempt <= a < attempt + Z.of_nat n ->
             is_Some (httpRetryable c (doRequest a))) ->
  let next :=
    loop fuel (attempt + Z.of_nat n)
      match n with
      | O => lastErr
      | S m => httpRetryable c (doRequest (attempt + Z.of_nat m))
      end in
  exists pre,
    attempts pre = n /\
    loop (n + fuel) attempt lastErr = (fst next, pre ++ snd next).
Proof.
  induction n as [|n IH]; intros fuel attempt lastErr Hwait Hfail; cbn zeta.
  - replace (attempt + Z.of_nat 0) with attempt by lia.
    exists []. split; [reflexivity|]. apply surjective_pairing.
  - destruct (Hfail attempt ltac:(lia)) as [e He].
    destruct (Do_loop_retry (n + fuel) attempt lastErr e) as (pre1 & Hcnt1 & Heq1);
      [intros Hpos; apply Hwait; lia | exact He |].
    destruct (IH fuel (attempt + 1) (Some e)) as (pre2 & Hcnt2 & Heq2).
    { intros a Ha. apply Hwait. lia. }
    { intros a Ha. apply Hfail. lia. }
    change (S n + fuel)%nat with (S (n + fuel)).
    exists (pre1 ++ pre2). split; [rewrite attempts_app; lia|].
    rewrite Heq1, Heq2. cbn [fst snd]. rewrite app_assoc.
    replace (attempt + 1 + Z.of_nat n) with (attempt + Z.of_nat (S n)) by lia.
    destruct n as [|m].
    + replace (attempt + Z.of_nat 0) with attempt by lia. rewrite He. reflexivity.
    + replace (attempt + 1 + Z.of_nat m) with (attempt + Z.of_nat (S m)) by lia.
      reflexivity.
Qed.

(** The statements after the loop. *)
Lemma Do_loop_exhausted attempt e :
  loop 0 attempt (Some e)
  = (httpclient.DoErr
       (httpclient.NewServiceUnavailableError (httpclient.serviceName c) (Some e)),
     []).
Proof. reflexivity. Qed.

(** An iteration whose wait is cancelled. *)
Lemma Do_loop_cancelled fuel attempt lastErr e :
  0 < attempt -> ctxDone attempt = Some e ->
  loop (S fuel) attempt lastErr
  = (httpclient.DoErr (contextError e),
     [EvWait attempt (httpclient.calculateBackoff c attempt)]).
Proof.
  intros Hpos Hdone. subst loop. cbn [httpclient.Do_loop].
  apply Z.ltb_lt in Hpos. rewrite Hpos, Hdone. reflexivity.
Qed.

(** The first iteration when the response is one [Do] does not retry. *)
Lemma Do_loop_first_final fuel lastErr resp :
  doRequest 0 = inl resp ->
  httpclient.shouldRetry c (httpclient.StatusCode resp) = false ->
  loop (S fuel) 0 lastErr = (httpclient.DoOk resp, [EvAttempt 0]).
Proof.
  intros Hresp Hfinal. subst loop. cbn [httpclient.Do_loop].
  rewrite Hresp, Hfinal. reflexivity.
Qed.

End DoFacts.

(** ** The retry loop of [grpcclient.createRetryInterceptor] *)

Section RetryInterceptorFacts.
Variable serviceName : string.
Variable cfg : grpcclient.RetryConfig.
Variable statusCode : error -> Z.
Variable ctxDone : Z -> option ContextErr.
Variable invoker : Z -> option error.

Let loop := grpcclient.retry_loop serviceName cfg statusCode ctxDone invoker.

Lemma retry_loop_retry fuel attempt lastErr e :
  (0 < attempt -> ctxDone attempt = None) ->
  grpcRetryable cfg statusCode (invoker attempt) = Some e ->
  exists pre,
    attempts pre = 1%nat /\
    loop (S fuel) attempt lastErr
    = (fst (loop fuel (attempt + 1) (Some e)),
       pre ++ snd (loop fuel (attempt + 1) (Some e))).
Proof.
  intros Hwait Hfail. subst loop. cbn [grpcclient.retry_loop].
  unfold grpcRetryable in Hfail.
  destruct (invoker attempt) as [err|]; [|discriminate].
  destruct (grpcclient.shouldRetryCode _ _); [|discriminate].
  injection Hfail as <-.
  destruct (0 <? attempt) eqn:Hpos.
  - apply Z.ltb_lt in Hpos. rewrite (Hwait Hpos).
    exists [EvWait attempt (grpcclient.calculateBackoff cfg attempt); EvAttempt attempt].
    split; reflexivity.
  - exists [EvAttempt attempt]. split; reflexivity.
Qed.

Lemma retry_loop_retries n : forall fuel attempt lastErr,
  (forall a, attempt <= a < attempt + Z.of_nat n -> 0 < a -> ctxDone a = None) ->
  (forall a, attempt <= a < attempt + Z.of_nat n ->
             is_Some (grpcRetryable cfg statusCode (invoker a))) ->
  let next :=
    loop fuel (attempt + Z.of_nat n)
      match n with
      | O => lastErr
      | S m => grpcRetryable cfg statusCode (invoker (attempt + Z.of_nat m))
      end in
  exists pre,
    attempts pre = n /\
    loop (n + fuel) attempt lastErr = (fst next, pre ++ snd next).
Proof.
  induction n as [|n IH]; intros fuel attempt lastErr Hwait Hfail; cbn zeta.
  - replace (attempt + Z.of_nat 0) with attempt by lia.
    exists []. split; [reflexivity|]. apply surjective_pairing.
  - destruct (Hfail attempt ltac:(lia)) as [e He].
    destruct (retry_loop_retry (n + fuel) attempt lastErr e) as (pre1 & Hcnt1 & Heq1);
      [intros Hpos; apply Hwait; lia | exact He |].
    destruct (IH fuel (attempt + 1) (Some e)) as (pre2 & Hcnt2 & Heq2).
    { intros a Ha. apply Hwait. lia. }
    { intros a Ha. apply Hfail. lia. }
    change (S n + fuel)%nat with (S (n + fuel)).
    exists (pre1 ++ pre2). split; [rewrite attempts_app; lia|].
    rewrite Heq1, Heq2. cbn [fst snd]. rewrite app_assoc.
    replace (attempt + 1 + Z.of_nat n) with (attempt + Z.of_nat (S n)) by lia.
    destruct n as [|m].
    + replace (attempt + Z.of_nat 0) with attempt by lia. rewrite He. reflexivity.
    + replace (attempt + 1 + Z.of_nat m) with (attempt + Z.of_nat (S m)) by lia.
      reflexivity.
Qed.

Lemma retry_loop_exhausted attempt lastErr :
  loop 0 attempt lastErr
  = (Some (grpcclient.NewServiceUnavailableError serviceName lastErr), []).
Proof. reflexivity. Qed.

Lemma retry_loop_cancelled fuel attempt lastErr e :
  0 < attempt -> ctxDone attempt = Some e ->
  loop (S fuel) attempt lastErr
  = (Some (contextError e), [EvWait attempt (grpcclient.calculateBackoff cfg attempt)]).
Proof.
  intros Hpos Hdone. subst loop. cbn [grpcclient.retry_loop].
  apply Z.ltb_lt in Hpos. rewrite Hpos, Hdone. reflexivity.
Qed.

Lemma retry_loop_first_final fuel lastErr err :
  invoker 0 = Some err ->
  grpcclient.shouldRetryCode (statusCode err) (grpcclient.RetryableCodes cfg) = false ->
  loop (S fuel) 0 lastErr = (Some err, [EvAttempt 0]).
Proof.
  intros Herr Hfinal. subst loop. cbn [grpcclient.retry_loop].
  rewrite Herr, Hfinal. reflexivity.
Qed.

End RetryInterceptorFacts.

(** ** The retry engines *)

(** C2.  Retry budget respected.  With [MaxRetries = k], [0 <= k] (so for
    every [k >= 1]), attempts that all fail with a retryable outcome and
    no wait cancelled, [Do] and the gRPC retry interceptor each make
    exactly [k + 1] attempts and return the service-unavailable error,
    which names the service and wraps the last attempt's error. *)
Theorem retry_budget_respected {L I : Type}
  (c : httpclient.Client L I) (ctxDone : Z -> option ContextErr)
  (doRequest : Z -> httpclient.Response + error)
  (serviceName : string) (cfg : grpcclient.RetryConfig)
  (statusCode : error -> Z) (ctxDone' : Z -> option ContextErr)
  (invoker : Z -> option error) (k : Z) :
  0 <= k ->
  httpclient.MaxRetries (httpclient.retryConfig c) = k ->
  grpcclient.MaxRetries cfg = k ->
  (forall a, 0 <= a <= k -> is_Some (httpRetryable c (doRequest a))) ->
  (forall a, 0 <= a <= k -> is_Some (grpcRetryable cfg statusCode (invoker a))) ->
  (forall a, 1 <= a <= k -> ctxDone a = None) ->
  (forall a, 1 <= a <= k -> ctxDone' a = None) ->
  (exists lastErr,
      httpRetryable c (doRequest k) = Some lastErr /\
      fst (httpclient.Do c ctxDone doRequest)
      = httpclient.DoErr
          (ServiceUnavailableError (httpclient.serviceName c) (Some lastErr)) /\
      attempts (snd (httpclient.Do c ctxDone doRequest)) = Z.to_nat (k + 1)) /\
  (exists lastErr,
      invoker k = Some lastErr /\
      fst (grpcclient.retryInterceptor serviceName cfg statusCode ctxDone' invoker)
      = Some (ServiceUnavailableError serviceName (Some lastErr)) /\
      attempts (snd (grpcclient.retryInterceptor serviceName cfg statusCode ctxDone' invoker))
      = Z.to_nat (k + 1)).
Proof.
  intros Hk HkH HkG HfailH HfailG HwaitH HwaitG.
  assert (Hn : Z.to_nat (k + 1) = (S (Z.to_nat k) + 0)%nat) by lia.
  split.
  - destruct (HfailH k ltac:(lia)) as [lastErr Hlast]. exists lastErr.
    split; [exact Hlast|].
    unfold httpclient.Do. rewrite HkH, Hn.
    destruct (Do_loop_retries c ctxDone doRequest (S (Z.to_nat k)) 0 0 None)
      as (pre & Hcnt & Heq).
    { intros a Ha Hpos. apply HwaitH. lia. }
    { intros a Ha. apply HfailH. lia. }
    cbn zeta in Heq. rewrite Heq.
    replace (0 + Z.of_nat (Z.to_nat k)) with k by lia. rewrite Hlast.
    cbn [fst snd httpclient.Do_loop]. rewrite app_nil_r.
    split; [reflexivity | lia].
  - destruct (HfailG k ltac:(lia)) as [lastErr Hlast]. exists lastErr.
    assert (Hinv : invoker k = Some lastErr).
    { unfold grpcRetryable in Hlast. destruct (invoker k) as [err|]; [|discriminate].
      destruct (grpcclient.shouldRetryCode _ _); [|discriminate]. exact Hlast. }
    split; [exact Hinv|].
    unfold grpcclient.retryInterceptor. rewrite HkG, Hn.
    destruct (retry_loop_retries serviceName cfg statusCode ctxDone' invoker
                (S (Z.to_nat k)) 0 0 None) as (pre & Hcnt & Heq).
    { intros a Ha Hpos. apply HwaitG. lia. }
    { intros a Ha. apply HfailG. lia. }
    cbn zeta in Heq. rewrite Heq.
    replace (0 + Z.of_nat (Z.to_nat k)) with k by lia. rewrite Hlast.
    cbn [fst snd grpcclient.retry_loop]. rewrite app_nil_r.
    split; [reflexivity | lia].
Qed.

Lemma retry_budget_respected_witness :
  (exists lastErr,
      httpRetryable (examples.httpClient 2)
        (inl (examples.response 503 "busy")) = Some lastErr /\
      fst (httpclient.Do (examples.httpClient 2) examples.neverDone
             (λ _, inl (examples.response 503 "busy")))
      = httpclient.DoErr (ServiceUnavailableError "orders" (Some lastErr)) /\
      attempts (snd (httpclient.Do (examples.httpClient 2) examples.neverDone
                       (λ _, inl (examples.response 503 "busy"))))
      = 3%nat) /\
  (exists lastErr,
      Some (statusError codes.Unavailable "down") = Some lastErr /\
      fst (grpcclient.retryInterceptor "orders" (examples.retryUnavailable 2)
             examples.statusCode examples.neverDone
             (λ _, Some (statusError codes.Unavailable "down")))
      = Some (ServiceUnavailableError "orders" (Some lastErr)) /\
      attempts (snd (grpcclient.retryInterceptor "orders" (examples.retryUnavailable 2)
                       examples.statusCode examples.neverDone
                       (λ _, Some (statusError codes.Unavailable "down"))))
      = 3%nat).
Proof.
  apply (retry_budget_respected (examples.httpClient 2) examples.neverDone
           (λ _, inl (examples.response 503 "busy"))
           "orders" (examples.retryUnavailable 2) examples.statusCode
           examples.neverDone
           (λ _, Some (statusError codes.Unavailable "down")) 2).
  - lia.
  - reflexivity.
  - reflexivity.
  - intros a _. eexists. reflexivity.
  - intros a _. eexists. reflexivity.
  - reflexivity.
  - reflexivity.
Defined.

(** C3.  Non-retryable short-circuit.  When the first attempt ends with an
    outcome that is not retried (for [Do] a response whose status is not
    in [RetryableErrors], for the gRPC interceptor an error whose code is
    not in [RetryableCodes]), exactly one attempt is made and that
    outcome itself is returned: the response, with a nil error, by [Do],
    the invoker's error by the interceptor. *)
Theorem non_retryable_short_circuit {L I : Type}
  (c : httpclient.Client L I) (ctxDone : Z -> option ContextErr)
  (doRequest : Z -> httpclient.Response + error) (resp : httpclient.Response)
  (serviceName : string) (cfg : grpcclient.RetryConfig)
  (statusCode : error -> Z) (ctxDone' : Z -> option ContextErr)
  (invoker : Z -> option error) (err : error) :
  0 <= httpclient.MaxRetries (httpclient.retryConfig c) ->
  0 <= grpcclient.MaxRetries cfg ->
  doRequest 0 = inl resp ->
  httpclient.shouldRetry c (httpclient.StatusCode resp) = false ->
  invoker 0 = Some err ->
  grpcclient.shouldRetryCode (statusCode err) (grpcclient.RetryableCodes cfg) = false ->
  httpclient.Do c ctxDone doRequest = (httpclient.DoOk resp, [EvAttempt 0]) /\
  attempts (snd (httpclient.Do c ctxDone doRequest)) = 1%nat /\
  grpcclient.retryInterceptor serviceName cfg statusCode ctxDone' invoker
  = (Some err, [EvAttempt 0]) /\
  attempts (snd (grpcclient.retryInterceptor serviceName cfg statusCode ctxDone' invoker))
  = 1%nat.
Proof.
  intros HkH HkG Hresp HfinalH Herr HfinalG.
  assert (HH : httpclient.Do c ctxDone doRequest = (httpclient.DoOk resp, [EvAttempt 0])).
  { unfold httpclient.Do.
    replace (Z.to_nat (httpclient.MaxRetries (httpclient.retryConfig c) + 1))
      with (S (Z.to_nat (httpclient.MaxRetries (httpclient.retryConfig c)))) by lia.
    by apply Do_loop_first_final. }
  assert (HG : grpcclient.retryInterceptor serviceName cfg statusCode ctxDone' invoker
               = (Some err, [EvAttempt 0])).
  { unfold grpcclient.retryInterceptor.
    replace (Z.to_nat (grpcclient.MaxRetries cfg + 1))
      with (S (Z.to_nat (grpcclient.MaxRetries cfg))) by lia.
    by apply retry_loop_first_final. }
  rewrite HH, HG. repeat split; reflexivity.
Qed.

Lemma non_retryable_short_circuit_witness :
  httpclient.Do (examples.httpClient 2) examples.neverDone
    (λ _, inl (examples.response 404 "no such order"))
  = (httpclient.DoOk (examples.response 404 "no such order"), [EvAttempt 0]) /\
  attempts (snd (httpclient.Do (examples.httpClient 2) examples.neverDone
                   (λ _, inl (examples.response 404 "no such order")))) = 1%nat /\
  grpcclient.retryInterceptor "orders" (examples.retryUnavailable 2)
    examples.statusCode examples.neverDone
    (λ _, Some (statusError codes.NotFound "no such order"))
  = (Some (statusError codes.NotFound "no such order"), [EvAttempt 0]) /\
  attempts (snd (grpcclient.retryInterceptor "orders" (examples.retryUnavailable 2)
                   examples.statusCode examples.neverDone
                   (λ _, Some (statusError codes.NotFound "no such order")))) = 1%nat.
Proof.
  apply (non_retryable_short_circuit (examples.httpClient 2) examples.neverDone
           (λ _, inl (examples.response 404 "no such order"))
           (examples.response 404 "no such order")
           "orders" (examples.retryUnavailable 2) examples.statusCode
           examples.neverDone
           (λ _, Some (statusError codes.NotFound "no such order"))
           (statusError codes.NotFound "no such order")).
  - vm_compute. discriminate.
  - vm_compute. discriminate.
  - reflexivity.
  - reflexivity.
  - reflexivity.
  - reflexivity.
Defined.

(** C5.  Cancellation during wait.  When the first [n] attempts
    ([1 <= n <= MaxRetries]) fail with retryable outcomes and the context
    is done while the engine waits before the next one, [Do] and the gRPC
    interceptor return the context's error, not the service-unavailable
    error, and the [n] attempts made so far are the only ones. *)
Theorem cancellation_during_wait {L I : Type}
  (c : httpclient.Client L I) (ctxDone : Z -> option ContextErr)
  (doRequest : Z -> httpclient.Response + error)
  (serviceName : string) (cfg : grpcclient.RetryConfig)
  (statusCode : error -> Z) (ctxDone' : Z -> option ContextErr)
  (invoker : Z -> option error) (n : Z) (e e' : ContextErr) :
  1 <= n <= httpclient.MaxRetries (httpclient.retryConfig c) ->
  n <= grpcclient.MaxRetries cfg ->
  (forall a, 0 <= a < n -> is_Some (httpRetryable c (doRequest a))) ->
  (forall a, 0 <= a < n -> is_Some (grpcRetryable cfg statusCode (invoker a))) ->
  (forall a, 1 <= a < n -> ctxDone a = None) ->
  (forall a, 1 <= a < n -> ctxDone' a = None) ->
  ctxDone n = Some e ->
  ctxDone' n = Some e' ->
  fst (httpclient.Do c ctxDone doRequest) = httpclient.DoErr (contextError e) /\
  attempts (snd (httpclient.Do c ctxDone doRequest)) = Z.to_nat n /\
  last (snd (httpclient.Do c ctxDone doRequest))
  = Some (EvWait n (httpclient.calculateBackoff c n)) /\
  fst (grpcclient.retryInterceptor serviceName cfg statusCode ctxDone' invoker)
  = Some (contextError e') /\
  attempts (snd (grpcclient.retryInterceptor serviceName cfg statusCode ctxDone' invoker))
  = Z.to_nat n /\
  last (snd (grpcclient.retryInterceptor serviceName cfg statusCode ctxDone' invoker))
  = Some (EvWait n (grpcclient.calculateBackoff cfg n)).
Proof.
  intros [Hn HnH] HnG HfailH HfailG HwaitH HwaitG HdoneH HdoneG.
  assert (HH : exists pre, attempts pre = Z.to_nat n /\
            httpclient.Do c ctxDone doRequest
            = (httpclient.DoErr (contextError e),
               pre ++ [EvWait n (httpclient.calculateBackoff c n)])).
  { unfold httpclient.Do.
    replace (Z.to_nat (httpclient.MaxRetries (httpclient.retryConfig c) + 1))
      with (Z.to_nat n
            + S (Z.to_nat (httpclient.MaxRetries (httpclient.retryConfig c) - n)))%nat
      by lia.
    destruct (Do_loop_retries c ctxDone doRequest (Z.to_nat n)
                (S (Z.to_nat (httpclient.MaxRetries (httpclient.retryConfig c) - n)))
                0 None) as (pre & Hcnt & Heq).
    { intros a Ha Hpos. apply HwaitH. lia. }
    { intros a Ha. apply HfailH. lia. }
    cbn zeta in Heq. exists pre. split; [exact Hcnt|]. rewrite Heq.
    replace (0 + Z.of_nat (Z.to_nat n)) with n by lia.
    rewrite (Do_loop_cancelled c ctxDone doRequest _ n _ e) by (lia || assumption).
    reflexivity. }
  assert (HG : exists pre, attempts pre = Z.to_nat n /\
            grpcclient.retryInterceptor serviceName cfg statusCode ctxDone' invoker
            = (Some (contextError e'),
               pre ++ [EvWait n (grpcclient.calculateBackoff cfg n)])).
  { unfold grpcclient.retryInterceptor.
    replace (Z.to_nat (grpcclient.MaxRetries cfg + 1))
      with (Z.to_nat n + S (Z.to_nat (grpcclient.MaxRetries cfg - n)))%nat by lia.
    destruct (retry_loop_retries serviceName cfg statusCode ctxDone' invoker
                (Z.to_nat n) (S (Z.to_nat (grpcclient.MaxRetries cfg - n)))
                0 None) as (pre & Hcnt & Heq).
    { intros a Ha Hpos. apply HwaitG. lia. }
    { intros a Ha. apply HfailG. lia. }
    cbn zeta in Heq. exists pre. split; [exact Hcnt|]. rewrite Heq.
    replace (0 + Z.of_nat (Z.to_nat n)) with n by lia.
    rewrite (retry_loop_cancelled serviceName cfg statusCode ctxDone' invoker _ n _ e')
      by (lia || assumption).
    reflexivity. }
  destruct HH as (preH & HcntH & ->). destruct HG as (preG & HcntG & ->).
  cbn [fst snd]. rewrite !attempts_app, !last_snoc, HcntH, HcntG. cbn.
  repeat split; first [reflexivity | lia].
Qed.

Lemma cancellation_during_wait_witness :
  fst (httpclient.Do (examples.httpClient 2) (examples.doneAt 1 DeadlineExceeded)
         (λ _, inl (examples.response 503 "busy")))
  = httpclient.DoErr (contextError DeadlineExceeded) /\
  attempts (snd (httpclient.Do (examples.httpClient 2)
                   (examples.doneAt 1 DeadlineExceeded)
                   (λ _, inl (examples.response 503 "busy")))) = 1%nat /\
  last (snd (httpclient.Do (examples.httpClient 2)
               (examples.doneAt 1 DeadlineExceeded)
               (λ _, inl (examples.response 503 "busy"))))
  = Some (EvWait 1 (httpclient.calculateBackoff (examples.httpClient 2) 1)) /\
  fst (grpcclient.retryInterceptor "orders" (examples.retryUnavailable 2)
         examples.statusCode (examples.doneAt 1 Canceled)
         (λ _, Some (statusError codes.Unavailable "down")))
  = Some (contextError Canceled) /\
  attempts (snd (grpcclient.retryInterceptor "orders" (examples.retryUnavailable 2)
                   examples.statusCode (examples.doneAt 1 Canceled)
                   (λ _, Some (statusError codes.Unavailable "down")))) = 1%nat /\
  last (snd (grpcclient.retryInterceptor "orders" (examples.retryUnavailable 2)
               examples.statusCode (examples.doneAt 1 Canceled)
               (λ _, Some (statusError codes.Unavailable "down"))))
  = Some (EvWait 1 (grpcclient.calculateBackoff (examples.retryUnavailable 2) 1)).
Proof.
  apply (cancellation_during_wait (examples.httpClient 2)
           (examples.doneAt 1 DeadlineExceeded)
           (λ _, inl (examples.response 503 "busy"))
           "orders" (examples.retryUnavailable 2) examples.statusCode
           (examples.doneAt 1 Canceled)
           (λ _, Some (statusError codes.Unavailable "down"))
           1 DeadlineExceeded Canceled).
  - cbn. lia.
  - cbn. lia.
  - intros a _. eexists. reflexivity.
  - intros a _. eexists. reflexivity.
  - intros a Ha. lia.
  - intros a Ha. lia.
  - reflexivity.
  - reflexivity.
Defined.

(** ** The constructors of the clients *)

(** C10.  A configuration whose [RetryConfig.MaxRetries] is 0 loses its
    whole retry configuration to [DefaultRetryConfig()] in [NewClient] of
    both packages (in package [grpcclient] the retry interceptor is built
    from the default as well); hence no client that [NewClient] returns
    has a retry configuration with [MaxRetries = 0]. *)
Theorem zero_MaxRetries_means_default {L I S : Type}
  (cfg : httpclient.Config L I) (cfg' : grpcclient.Config L I S)
  (DialContext : string -> option error) (c' : grpcclient.Client L I S) :
  httpclient.MaxRetries (httpclient.RetryConfig_ cfg) = 0 ->
  grpcclient.MaxRetries (grpcclient.RetryConfig_ cfg') = 0 ->
  grpcclient.NewClient DialContext cfg' = inl c' ->
  httpclient.retryConfig (httpclient.NewClient cfg) = httpclient.DefaultRetryConfig /\
  grpcclient.retryConfig c' = grpcclient.DefaultRetryConfig /\
  last (grpcclient.chainUnary (grpcclient.conn c'))
  = Some (grpcclient.createRetryInterceptor (grpcclient.Logger_ cfg')
            (grpcclient.ServiceName cfg') grpcclient.DefaultRetryConfig) /\
  (forall cfg0 : httpclient.Config L I,
      httpclient.MaxRetries (httpclient.retryConfig (httpclient.NewClient cfg0)) <> 0) /\
  (forall (cfg0 : grpcclient.Config L I S) (c0 : grpcclient.Client L I S),
      grpcclient.NewClient DialContext cfg0 = inl c0 ->
      grpcclient.MaxRetries (grpcclient.retryConfig c0) <> 0).
Proof.
  intros HH HG Hnew. repeat split.
  - unfold httpclient.NewClient. cbn. by rewrite HH.
  - unfold grpcclient.NewClient in Hnew. rewrite HG in Hnew. cbn in Hnew.
    destruct (DialContext _); [discriminate|]. by injection Hnew as <-.
  - unfold grpcclient.NewClient in Hnew. rewrite HG in Hnew. cbn in Hnew.
    destruct (DialContext _); [discriminate|]. injection Hnew as <-.
    cbn [grpcclient.conn grpcclient.chainUnary]. rewrite app_comm_cons. apply last_snoc.
  - intros cfg0. unfold httpclient.NewClient. cbn.
    destruct (httpclient.MaxRetries (httpclient.RetryConfig_ cfg0) =? 0) eqn:E.
    + discriminate.
    + by apply Z.eqb_neq.
  - intros cfg0 c0 Hnew0. unfold grpcclient.NewClient in Hnew0.
    destruct (DialContext _); [discriminate|]. injection Hnew0 as <-. cbn.
    destruct (grpcclient.MaxRetries (grpcclient.RetryConfig_ cfg0) =? 0) eqn:E.
    + discriminate.
    + by apply Z.eqb_neq.
Qed.

Lemma zero_MaxRetries_means_default_witness :
  httpclient.retryConfig
    (httpclient.NewClient (examples.httpConfig (examples.retry503 0)))
  = httpclient.DefaultRetryConfig /\
  grpcclient.retryConfig dialledDefault = grpcclient.DefaultRetryConfig /\
  last (grpcclient.chainUnary (grpcclient.conn dialledDefault))
  = Some (grpcclient.createRetryInterceptor
            (grpcclient.Logger_ (examples.grpcConfig (examples.retryUnavailable 0)))
            (grpcclient.ServiceName (examples.grpcConfig (examples.retryUnavailable 0)))
            grpcclient.DefaultRetryConfig) /\
  (forall cfg0 : httpclient.Config unit unit,
      httpclient.MaxRetries (httpclient.retryConfig (httpclient.NewClient cfg0)) <> 0) /\
  (forall (cfg0 : grpcclient.Config unit unit unit) (c0 : grpcclient.Client unit unit unit),
      grpcclient.NewClient (λ _, None) cfg0 = inl c0 ->
      grpcclient.MaxRetries (grpcclient.retryConfig c0) <> 0).
Proof.
  apply (zero_MaxRetries_means_default
           (examples.httpConfig (examples.retry503 0))
           (examples.grpcConfig (examples.retryUnavailable 0))
           (λ _, None) dialledDefault).
  - reflexivity.
  - reflexivity.
  - reflexivity.
Defined.

(** ** Scope matching *)

Section SplitFacts.
Variable sep : ascii.

Lemma Split_decompose s :
  exists x rest,
    strings.Split s sep = x :: rest /\
    has_byte sep x = false /\
    (rest = [] -> s = x) /\
    (rest <> [] -> exists y, s = x +:+ String sep y /\ strings.Split y sep = rest).
Proof.
  induction s as [|a s' IH].
  - exists EmptyString, []. split; [reflexivity|]. split; [reflexivity|].
    split; [reflexivity | intros Hne; by destruct Hne].
  - cbn [strings.Split]. destruct (Ascii.eqb a sep) eqn:Ea.
    + apply Ascii.eqb_eq in Ea. subst a.
      exists EmptyString, (strings.Split s' sep).
      split; [reflexivity|]. split; [reflexivity|]. split.
      * intros Hnil. destruct IH as (x & rest & Hs & _). congruence.
      * intros _. exists s'. split; reflexivity.
    + destruct IH as (x & rest & Hs & Hx & Hone & Hmore). rewrite Hs.
      exists (String a x), rest.
      split; [reflexivity|]. split; [cbn [has_byte]; by rewrite Ea, Hx|]. split.
      * intros Hnil. by rewrite (Hone Hnil).
      * intros Hne. destruct (Hmore Hne) as (y & -> & Hy). exists y. by split.
Qed.

Lemma Split_no_sep s : has_byte sep s = false -> strings.Split s sep = [s].
Proof.
  induction s as [|a s' IH]; [reflexivity|]. cbn [has_byte strings.Split].
  intros [Ha Hs]%orb_false_iff. rewrite Ha, (IH Hs). reflexivity.
Qed.

Lemma Split_at_sep x y :
  has_byte sep x = false ->
  strings.Split (x +:+ String sep y) sep = x :: strings.Split y sep.
Proof.
  induction x as [|a x IH].
  - intros _. change ("" +:+ String sep y) with (String sep y).
    cbn [strings.Split]. by rewrite Ascii.eqb_refl.
  - cbn [has_byte]. intros [Ha Hx]%orb_false_iff.
    change (String a x +:+ String sep y) with (String a (x +:+ String sep y)).
    cbn [strings.Split]. rewrite Ha, (IH Hx). reflexivity.
Qed.

(** [strings.Split] returns two parts exactly for the strings with one
    separator. *)
Lemma Split_two s x :
  (length (strings.Split s sep) = 2%nat /\ nth 0 (strings.Split s sep) "" = x) <->
  exists y, s = x +:+ String sep y /\ has_byte sep x = false /\ has_byte sep y = false.
Proof.
  split.
  - intros [Hlen Hx]. destruct (Split_decompose s) as (x0 & rest & Hs & Hx0 & _ & Hmore).
    rewrite Hs in Hlen, Hx. cbn in Hx. subst x0.
    destruct rest as [|y0 [|? ?]]; try discriminate.
    destruct (Hmore ltac:(done)) as (y & -> & Hy). exists y. repeat split; [done|].
    destruct (Split_decompose y) as (y1 & rest & Hs' & Hy1 & Hone & _).
    rewrite Hy in Hs'. injection Hs' as <- <-. by rewrite (Hone eq_refl).
  - intros (y & -> & Hx & Hy). by rewrite (Split_at_sep _ _ Hx), (Split_no_sep _ Hy).
Qed.
End SplitFacts.

Lemma hasScopeInList_iff scopes required :
  middleware.hasScopeInList scopes required = true <->
  exists scope, In scope scopes /\ satisfies scope required.
Proof.
  induction scopes as [|scope rest IH]; cbn [middleware.hasScopeInList].
  - split; [discriminate | intros (? & [] & _)].
  - destruct (String.eqb scope "*") eqn:Eall.
    { apply String.eqb_eq in Eall. split; [|done].
      intros _. exists scope. split; [by left | by left]. }
    destruct (String.eqb scope required) eqn:Eexact.
    { apply String.eqb_eq in Eexact. split; [|done].
      intros _. exists scope. split; [by left | right; by left]. }
    destruct ((length (strings.Split required ":") =? 2)%nat
              && String.eqb scope (nth 0 (strings.Split required ":") "" +:+ ":*"))
      eqn:Ewild.
    { apply andb_true_iff in Ewild as [Hlen Hscope].
      apply Nat.eqb_eq in Hlen. apply String.eqb_eq in Hscope.
      split; [|done]. intros _. exists scope. split; [by left|]. right; right.
      destruct (proj1 (Split_two ":" required _) (conj Hlen eq_refl))
        as (y & Hreq & Hx & Hy).
      eexists _, y. repeat split; eauto. }
    rewrite IH. split.
    + intros (s & Hin & Hsat). exists s. split; [by right | done].
    + intros (s & [<- | Hin] & Hsat); [|by exists s].
      exfalso. destruct Hsat as [-> | [-> | (x & y & Hreq & Hx & Hy & ->)]].
      * by rewrite String.eqb_refl in Eall.
      * by rewrite String.eqb_refl in Eexact.
      * apply andb_false_iff in Ewild.
        assert (Htwo : length (strings.Split required ":") = 2%nat /\
                       nth 0 (strings.Split required ":") "" = x).
        { apply Split_two. exists y. by repeat split. }
        destruct Htwo as [Hlen Hnth]. rewrite Hlen, Hnth, String.eqb_refl in Ewild.
        by destruct Ewild.
Qed.

Lemma HasScope_hasScopeInList scopes required :
  grpc.HasScope scopes required = middleware.hasScopeInList scopes required.
Proof. induction scopes as [|scope rest IH]; cbn; [done|]. by rewrite IH. Qed.

(** C8.  Scope matching, for [hasScopeInList] and for [HasScope]: the held
    scope [notifications:*] satisfies the required [notifications:send];
    the held scope [*] satisfies every required scope; the held scope
    [notifications:send] does not satisfy [notifications:read]; and a
    list of held scopes satisfies a required scope exactly when one of
    them is [*], is the required scope, or is [x:*] for a required scope
    [x:y] with no further colon. *)
Theorem scope_matching :
  middleware.hasScopeInList ["notifications:*"] "notifications:send" = true /\
  grpc.HasScope ["notifications:*"] "notifications:send" = true /\
  (forall required,
      middleware.hasScopeInList ["*"] required = true /\
      grpc.HasScope ["*"] required = true) /\
  middleware.hasScopeInList ["notifications:send"] "notifications:read" = false /\
  grpc.HasScope ["notifications:send"] "notifications:read" = false /\
  (forall scopes required,
      (middleware.hasScopeInList scopes required = true <->
       exists scope, In scope scopes /\ satisfies scope required) /\
      (grpc.HasScope scopes required = true <->
       exists scope, In scope scopes /\ satisfies scope required)).
Proof.
  repeat split; try reflexivity.
  - by apply hasScopeInList_iff.
  - by apply hasScopeInList_iff.
  - rewrite HasScope_hasScopeInList. by apply hasScopeInList_iff.
  - rewrite HasScope_hasScopeInList. by apply hasScopeInList_iff.
Qed.

(** ** The TTL caches *)

Lemma cache_Get_Set_ c now key v ttl t :
  cache.Get (cache.Set_ c now key v ttl) t key
  = let ttl' := if ttl =? 0 then cache.DefaultTTL (cache.options c) else ttl in
    let item := {| cache.value := v;
                   cache.expiresAt := if 0 <? ttl' then gotime.Add now ttl' else 0 |} in
    if cache.expired t item then inr cache.ErrKeyExpired else inl v.
Proof.
  unfold cache.Get, cache.Set_, cache.buildKey. cbn [cache.items cache.options].
  by rewrite lookup_insert_eq.
Qed.

Lemma tokencache_get_set (c : gmap string cachedValidation) now now' token res ttl t :
  middleware.get (middleware.set c now now' token res ttl) t token
  = if gotime.After t (gotime.Add now ttl) then None
    else if (1000 <? Z.of_nat (size (<[token :=
               {| result := res; expiresAt := gotime.Add now ttl |}]> c)))
            && gotime.After now' (gotime.Add now ttl)
         then None
         else Some res.
Proof.
  unfold middleware.get, middleware.set.
  destruct (1000 <? _) eqn:Hbig; cbn [andb].
  - unfold middleware.cleanup.
    destruct (gotime.After now' (gotime.Add now ttl)) eqn:Hgone.
    + rewrite map_lookup_filter_None_2; [by destruct (gotime.After t _)|].
      right. intros x. rewrite lookup_insert_eq. intros [= <-]. cbn. by rewrite Hgone.
    + rewrite (map_lookup_filter_Some_2 _ _ token
                 {| result := res; expiresAt := gotime.Add now ttl |});
        [reflexivity | apply lookup_insert_eq | exact Hgone].
  - by rewrite lookup_insert_eq.
Qed.

Lemma grpc_cache_same (c : gmap string cachedValidation) now now' token res ttl t :
  grpc.get (grpc.set c now now' token res ttl) t token
  = middleware.get (middleware.set c now now' token res ttl) t token.
Proof. reflexivity. Qed.




(** ** The token validation paths *)

Lemma slice_from_length n s :
  String.length (strings.slice_from n s) = (String.length s - n)%nat.
Proof.
  revert s. induction n as [|n IH]; intros [|a s]; cbn; done.
Qed.

Lemma prefix_length p : forall s,
  String.prefix p s = true -> (String.length p <= String.length s)%nat.
Proof.
  induction p as [|a p IH]; intros [|b s]; cbn [String.prefix String.length];
    try done; try lia.
  destruct (ascii_dec a b); [|done]. intros H. specialize (IH _ H). lia.
Qed.

Lemma prefix_slice p : forall s,
  String.prefix p s = true ->
  s = p +:+ strings.slice_from (String.length p) s.
Proof.
  induction p as [|a p IH]; intros s H; [reflexivity|].
  destruct s as [|b s]; cbn [String.prefix] in H; [discriminate|].
  destruct (ascii_dec a b) as [<-|]; [|discriminate].
  change (String a s = String a (p +:+ strings.slice_from (String.length p) s)).
  by rewrite <- (IH s H).
Qed.

Lemma TrimPrefix_Bearer h :
  String.eqb (strings.TrimPrefix h "Bearer ") h
  = negb (strings.HasPrefix h "Bearer ").
Proof.
  unfold strings.TrimPrefix.
  destruct (strings.HasPrefix h "Bearer ") eqn:Hp; cbn [negb].
  - apply String.eqb_neq. intros Heq.
    apply (f_equal String.length) in Heq. rewrite slice_from_length in Heq.
    apply prefix_length in Hp. cbn [String.length] in Hp, Heq. lia.
  - apply String.eqb_refl.
Qed.

Lemma bearerToken_Some header token :
  bearerToken header = Some token -> header = "Bearer " +:+ token.
Proof.
  unfold bearerToken, strings.HasPrefix.
  destruct (String.prefix "Bearer " header) eqn:Hp; [|discriminate].
  intros [= <-]. exact (prefix_slice _ _ Hp).
Qed.

(** C7.  The bearer prefix is required and stripped.  A request that
    reaches the token check of [RemoteServiceAuthMiddleware] (the
    middleware is enabled and the path is not skipped), or a call of
    [validateGRPCToken], whose authorization header is absent or lacks
    the prefix ["Bearer "] is rejected as unauthenticated with no call of
    the remote validator and the cache untouched; with the prefix, the
    token is the header without it, and the validator is called with
    that token when the cache has no live entry for it, and not at all
    when it has. *)
Theorem bearer_prefix_required_and_stripped
  (cfg : middleware.RemoteServiceAuthConfig) (cache : gmap string cachedValidation)
  (clock : nat -> Time) (path authHeader : string)
  (ctx : grpc.Context) (cfg' : grpc.AuthInterceptorConfig)
  (cache' : gmap string cachedValidation) (clock' : nat -> Time) :
  middleware.Enabled cfg = true ->
  existsb (λ p, strings.HasPrefix path p) (middleware.SkipPaths cfg) = false ->
  match bearerToken authHeader with
  | None =>
      middleware.RemoteServiceAuthMiddleware cfg cache clock path authHeader
      = {| middleware.out :=
             middleware.Reply middleware.StatusUnauthorized
               [("error", "Missing or invalid authorization header")];
           middleware.tokenCache := cache;
           middleware.validated := [] |}
  | Some token =>
      authHeader = "Bearer " +:+ token /\
      middleware.validated
        (middleware.RemoteServiceAuthMiddleware cfg cache clock path authHeader)
      = match middleware.get cache (clock 0%nat) token with
        | Some _ => []
        | None => [token]
        end
  end /\
  match grpcAuthorization ctx ≫= bearerToken with
  | None =>
      exists msg,
        grpc.validateGRPCToken ctx cfg' cache' clock'
        = {| grpc.out := grpc.Rejected (statusError codes.Unauthenticated msg);
             grpc.tokenCache := cache';
             grpc.validated := [] |}
  | Some token =>
      grpcAuthorization ctx = Some ("Bearer " +:+ token) /\
      grpc.validated (grpc.validateGRPCToken ctx cfg' cache' clock')
      = match grpc.get cache' (clock' 0%nat) token with
        | Some _ => []
        | None => [token]
        end
  end.
Proof.
  intros Hon Hskip. split.
  - unfold middleware.RemoteServiceAuthMiddleware. rewrite Hon, Hskip. cbn [negb].
    destruct (bearerToken authHeader) as [token|] eqn:Hb.
    + pose proof (bearerToken_Some _ _ Hb) as Hh. split; [exact Hh|].
      unfold bearerToken in Hb.
      destruct (strings.HasPrefix authHeader "Bearer ") eqn:Hp; [|discriminate].
      injection Hb as <-.
      replace (String.eqb authHeader "") with false
        by (symmetry; apply String.eqb_neq; by rewrite Hh).
      cbn [negb orb].
      destruct (middleware.get cache (clock 0%nat) _) as [cached|].
      * by destruct (negb _ && negb _).
      * destruct (middleware.TokenValidator_ cfg _) as [[v|] [err|]]; try done.
        destruct (Valid v); cbn [negb]; [|done].
        by destruct (negb _ && negb _).
    + unfold bearerToken in Hb.
      destruct (strings.HasPrefix authHeader "Bearer "); [discriminate|].
      by rewrite orb_true_r.
  - unfold grpcAuthorization, grpc.validateGRPCToken.
    destruct (grpc.incoming ctx) as [md|]; cbn [mbind option_bind]; [|by eexists].
    destruct (grpc.md_Get md "authorization") as [|h rest]; cbn [head mbind option_bind];
      [by eexists|].
    rewrite TrimPrefix_Bearer.
    destruct (bearerToken h) as [token|] eqn:Hb.
    + pose proof (bearerToken_Some _ _ Hb) as Hh. split; [by rewrite Hh|].
      unfold bearerToken in Hb.
      destruct (strings.HasPrefix h "Bearer ") eqn:Hp; [|discriminate].
      injection Hb as <-. cbn [negb].
      unfold strings.TrimPrefix. rewrite Hp.
      change (String.length "Bearer ") with 7%nat.
      destruct (grpc.get cache' (clock' 0%nat) _) as [cached|]; [done|].
      destruct (grpc.TokenValidator_ cfg' _) as [[v|] [err|]]; try done.
      by destruct (Valid v).
    + unfold bearerToken in Hb.
      destruct (strings.HasPrefix h "Bearer "); [discriminate|]. by eexists.
Qed.

Lemma bearer_prefix_required_and_stripped_witness :
  middleware.RemoteServiceAuthMiddleware examples.authConfig ∅ examples.clock
    "/orders" "Basic dXNlcg"
  = {| middleware.out :=
         middleware.Reply middleware.StatusUnauthorized
           [("error", "Missing or invalid authorization header")];
       middleware.tokenCache := ∅;
       middleware.validated := [] |} /\
  (exists msg,
      grpc.validateGRPCToken (examples.incomingWith ["tok"]) examples.grpcAuthConfig
        ∅ examples.clock
      = {| grpc.out := grpc.Rejected (statusError codes.Unauthenticated msg);
           grpc.tokenCache := ∅;
           grpc.validated := [] |}) /\
  middleware.validated
    (middleware.RemoteServiceAuthMiddleware examples.authConfig ∅ examples.clock
       "/orders" "Bearer tok") = ["tok"] /\
  grpc.validated
    (grpc.validateGRPCToken (examples.incomingWith ["Bearer tok"])
       examples.grpcAuthConfig ∅ examples.clock) = ["tok"].
Proof.
  pose proof (bearer_prefix_required_and_stripped examples.authConfig ∅ examples.clock
                "/orders" "Basic dXNlcg" (examples.incomingWith ["tok"])
                examples.grpcAuthConfig ∅ examples.clock eq_refl eq_refl) as [H1 H2].
  pose proof (bearer_prefix_required_and_stripped examples.authConfig ∅ examples.clock
                "/orders" "Bearer tok" (examples.incomingWith ["Bearer tok"])
                examples.grpcAuthConfig ∅ examples.clock eq_refl eq_refl) as [H3 H4].
  split; [exact H1|]. split; [exact H2|]. split; [exact (proj2 H3) | exact (proj2 H4)].
Defined.

Lemma prefix_append p t : String.prefix p (p +:+ t) = true.
Proof.
  induction p as [|a p IH]; [by destruct t|].
  change (String a p +:+ t) with (String a (p +:+ t)). cbn [String.prefix].
  by destruct (ascii_dec a a).
Qed.

Lemma Bearer_header token :
  strings.HasPrefix ("Bearer " +:+ token) "Bearer " = true /\
  strings.slice_from 7 ("Bearer " +:+ token) = token /\
  String.eqb ("Bearer " +:+ token) "" = false.
Proof.
  split; [apply prefix_append|]. split; reflexivity.
Qed.

Lemma middleware_cache_written cfg cache clock path authHeader :
  let h := middleware.RemoteServiceAuthMiddleware cfg cache clock path authHeader in
  middleware.tokenCache h = cache \/
  exists token v,
    bearerToken authHeader = Some token /\
    middleware.TokenValidator_ cfg token = (Some v, None) /\
    Valid v = true /\
    middleware.tokenCache h
    = middleware.set cache (clock 1%nat) (clock 2%nat) token v
        (if middleware.CacheTTL cfg =? 0 then 5 * gotime.Minute
         else middleware.CacheTTL cfg).
Proof.
  cbn zeta. unfold middleware.RemoteServiceAuthMiddleware, bearerToken.
  destruct (negb (middleware.Enabled cfg)); [by left|].
  destruct (existsb _ _); [by left|].
  destruct (String.eqb authHeader ""); cbn [orb]; [by left|].
  destruct (strings.HasPrefix authHeader "Bearer "); cbn [negb]; [|by left].
  destruct (middleware.get cache _ _) as [cached|].
  { destruct (negb _ && negb _); by left. }
  destruct (middleware.TokenValidator_ cfg _) as [[v|] [err|]] eqn:Hv;
    try (by left).
  destruct (Valid v) eqn:Hvalid; cbn [negb]; [|by left].
  right. exists (strings.slice_from 7 authHeader), v.
  split; [reflexivity|]. split; [exact Hv|]. split; [exact Hvalid|].
  by destruct (negb _ && negb _).
Qed.

Lemma grpc_cache_written ctx cfg cache clock :
  let h := grpc.validateGRPCToken ctx cfg cache clock in
  grpc.tokenCache h = cache \/
  exists token v,
    grpcAuthorization ctx ≫= bearerToken = Some token /\
    grpc.TokenValidator_ cfg token = (Some v, None) /\
    Valid v = true /\
    grpc.tokenCache h
    = grpc.set cache (clock 1%nat) (clock 2%nat) token v
        (if grpc.CacheTTL cfg =? 0 then 5 * gotime.Minute else grpc.CacheTTL cfg).
Proof.
  cbn zeta. unfold grpc.validateGRPCToken, grpcAuthorization, bearerToken.
  destruct (grpc.incoming ctx) as [md|]; [|by left].
  destruct (grpc.md_Get md "authorization") as [|h rest]; [by left|].
  rewrite TrimPrefix_Bearer. cbn [head mbind option_bind].
  unfold strings.TrimPrefix.
  destruct (strings.HasPrefix h "Bearer "); cbn [negb]; [|by left].
  change (String.length "Bearer ") with 7%nat.
  destruct (grpc.get cache _ _) as [cached|]; [by left|].
  destruct (grpc.TokenValidator_ cfg _) as [[v|] [err|]] eqn:Hv; try (by left).
  destruct (Valid v) eqn:Hvalid; cbn [negb]; [|by left].
  right. exists (strings.slice_from 7 h), v.
  split; [reflexivity|]. split; [exact Hv|]. split; [exact Hvalid | reflexivity].
Qed.

(** C9.  Only successful validations populate the cache.  When the cache
    has no live entry for the token and the remote validator returns an
    error or a result that is not valid, the HTTP middleware and
    [validateGRPCToken] reject the request as unauthenticated and leave
    the cache as it was; and on every request the cache after the call
    is the cache before it unless the validator returned, without error,
    a valid result for the request's token, which is then what [set]
    stores. *)
Theorem failures_never_cached
  (cfg : middleware.RemoteServiceAuthConfig) (cache : gmap string cachedValidation)
  (clock : nat -> Time) (path token : string)
  (ctx : grpc.Context) (cfg' : grpc.AuthInterceptorConfig)
  (cache' : gmap string cachedValidation) (clock' : nat -> Time) (token' : string) :
  middleware.Enabled cfg = true ->
  existsb (λ p, strings.HasPrefix path p) (middleware.SkipPaths cfg) = false ->
  middleware.get cache (clock 0%nat) token = None ->
  validationFailed (middleware.TokenValidator_ cfg token) ->
  grpcAuthorization ctx = Some ("Bearer " +:+ token') ->
  grpc.get cache' (clock' 0%nat) token' = None ->
  validationFailed (grpc.TokenValidator_ cfg' token') ->
  (exists msg,
      middleware.RemoteServiceAuthMiddleware cfg cache clock path ("Bearer " +:+ token)
      = {| middleware.out :=
             middleware.Reply middleware.StatusUnauthorized [("error", msg)];
           middleware.tokenCache := cache;
           middleware.validated := [token] |}) /\
  (exists msg,
      grpc.validateGRPCToken ctx cfg' cache' clock'
      = {| grpc.out := grpc.Rejected (statusError codes.Unauthenticated msg);
           grpc.tokenCache := cache';
           grpc.validated := [token'] |}) /\
  (forall path0 authHeader0,
      let h := middleware.RemoteServiceAuthMiddleware cfg cache clock path0 authHeader0 in
      middleware.tokenCache h = cache \/
      exists token0 v,
        bearerToken authHeader0 = Some token0 /\
        middleware.TokenValidator_ cfg token0 = (Some v, None) /\
        Valid v = true /\
        middleware.tokenCache h
        = middleware.set cache (clock 1%nat) (clock 2%nat) token0 v
            (if middleware.CacheTTL cfg =? 0 then 5 * gotime.Minute
             else middleware.CacheTTL cfg)) /\
  (forall ctx0,
      let h := grpc.validateGRPCToken ctx0 cfg' cache' clock' in
      grpc.tokenCache h = cache' \/
      exists token0 v,
        grpcAuthorization ctx0 ≫= bearerToken = Some token0 /\
        grpc.TokenValidator_ cfg' token0 = (Some v, None) /\
        Valid v = true /\
        grpc.tokenCache h
        = grpc.set cache' (clock' 1%nat) (clock' 2%nat) token0 v
            (if grpc.CacheTTL cfg' =? 0 then 5 * gotime.Minute
             else grpc.CacheTTL cfg')).
Proof.
  intros Hon Hskip Hmiss Hfail Hauth Hmiss' Hfail'.
  split; [|split; [|split]].
  - unfold middleware.RemoteServiceAuthMiddleware. rewrite Hon, Hskip.
    destruct (Bearer_header token) as (-> & -> & ->). cbn [negb orb].
    rewrite Hmiss. unfold validationFailed in Hfail.
    destruct (middleware.TokenValidator_ cfg token) as [[v|] [err|]];
      [by eexists | | by eexists | done].
    rewrite Hfail. by eexists.
  - unfold grpc.validateGRPCToken. unfold grpcAuthorization in Hauth.
    destruct (grpc.incoming ctx) as [md|]; [|discriminate].
    destruct (grpc.md_Get md "authorization") as [|h rest]; [discriminate|].
    injection Hauth as ->. rewrite TrimPrefix_Bearer. unfold strings.TrimPrefix.
    destruct (Bearer_header token') as (-> & Hslice & _). cbn [negb].
    change (String.length "Bearer ") with 7%nat. rewrite Hslice, Hmiss'.
    unfold validationFailed in Hfail'.
    destruct (grpc.TokenValidator_ cfg' token') as [[v|] [err|]];
      [by eexists | | by eexists | done].
    rewrite Hfail'. by eexists.
  - intros path0 authHeader0. apply middleware_cache_written.
  - intros ctx0. apply grpc_cache_written.
Qed.

Lemma failures_never_cached_witness :
  (exists msg,
      middleware.RemoteServiceAuthMiddleware examples.authConfig ∅ examples.clock
        "/orders" ("Bearer " +:+ "forged")
      = {| middleware.out :=
             middleware.Reply middleware.StatusUnauthorized [("error", msg)];
           middleware.tokenCache := ∅;
           middleware.validated := ["forged"] |}) /\
  (exists msg,
      grpc.validateGRPCToken (examples.incomingWith ["Bearer old"])
        examples.grpcAuthConfig ∅ examples.clock
      = {| grpc.out := grpc.Rejected (statusError codes.Unauthenticated msg);
           grpc.tokenCache := ∅;
           grpc.validated := ["old"] |}).
Proof.
  pose proof (failures_never_cached examples.authConfig ∅ examples.clock
                "/orders" "forged" (examples.incomingWith ["Bearer old"])
                examples.grpcAuthConfig ∅ examples.clock "old"
                eq_refl eq_refl eq_refl I eq_refl eq_refl eq_refl) as (H1 & H2 & _).
  split; [exact H1 | exact H2].
Defined.

(** ** The rate limiter *)

(** Run alone, [GetLimiter] creates a bucket for a new key and returns the
    bucket of the map for a key that has one. *)
Lemma GetLimiter_alone w now now' ip :
  limiter.GetLimiter w now now' ip
  = match limiter.ips (limiter.lim w) !! ip with
    | Some entry =>
        ({| limiter.lim :=
              limiter.with_ips (limiter.lim w)
                (<[ip := {| limiter.limiter_ := limiter.limiter_ entry;
                            limiter.lastSeen := now |}]>
                   (limiter.ips (limiter.lim w)));
            limiter.heap := limiter.heap w |},
         limiter.limiter_ entry)
    | None => limiter.AddIP w now' ip
    end.
Proof.
  unfold limiter.GetLimiter, limiter.GetLimiter_locked.
  by destruct (limiter.ips (limiter.lim w) !! ip).
Qed.

(** C1 fails on the code.  [GetLimiter] releases the lock between its
    existence check and [AddIP], and [AddIP] stores a new bucket without
    looking: when two goroutines both pass the check before either adds,
    each creates a bucket of its own.  The two callers hold different
    buckets, two buckets are on the heap, and the map keeps the second
    one only. *)
Theorem GetLimiter_two_buckets_for_one_key :
  limiter.goroutines (limiter.run bothCheckFirst twoCallers)
  = [limiter.Returned 0; limiter.Returned 1] /\
  length (limiter.heap (limiter.shared (limiter.run bothCheckFirst twoCallers))) = 2%nat /\
  limiter.ips (limiter.lim (limiter.shared (limiter.run bothCheckFirst twoCallers)))
    !! "10.0.0.7"
  = Some {| limiter.limiter_ := 1; limiter.lastSeen := 1003 |}.
Proof. repeat split; vm_compute; reflexivity. Qed.

(** ** Binary64 arithmetic on numbers that are at least one *)






(** ** The right shifts of [SpecFloat] *)





(** ** Digits *)




(** ** Rounding a long mantissa *)





(** ** Floats that are at least one *)

Lemma le_big_refl f : big f -> le_big f f.
Proof. destruct f as [| [] | | [] m e]; cbn; try done. intros _. right. lia. Qed.

Lemma le_big_trans f g h : le_big f g -> le_big g h -> le_big f h.
Proof.
  destruct f as [| | |? m1 e1], g as [| | |? m2 e2], h as [| | |? m3 e3]; cbn;
    try done; lia.
Qed.














(** ** Comparison and conversion *)









(** ** The conversions and the backoff *)










Section BackoffFacts.
Variables (init max : Z) (b : float).
Hypothesis Hinit : 0 < init <= max.
Hypothesis Hmax : max <= 2 ^ 53.
Hypothesis Hb : (1 <? b)%float = true.




End BackoffFacts.



(** ** The backoff policy *)




(** * Further properties of the code *)

(** ** Retries that end before the budget is spent *)

Lemma iterations_snoc delay n : forall attempt,
  iterations delay attempt (S n)
  = iterations delay attempt n ++ iteration delay (attempt + Z.of_nat n).
Proof.
  induction n as [|n IH]; intros attempt.
  - cbn [iterations]. rewrite app_nil_r. cbn [app].
    by replace (attempt + Z.of_nat 0) with attempt by lia.
  - change (iterations delay attempt (S (S n)))
      with (iteration delay attempt ++ iterations delay (attempt + 1) (S n)).
    rewrite IH. cbn [iterations]. rewrite <- app_assoc.
    by replace (attempt + 1 + Z.of_nat n) with (attempt + Z.of_nat (S n)) by lia.
Qed.

Lemma Do_loop_trace {L I : Type} (c : httpclient.Client L I)
  (ctxDone : Z -> option ContextErr) (doRequest : Z -> httpclient.Response + error)
  (n : nat) : forall fuel attempt lastErr,
  (forall a, attempt <= a < attempt + Z.of_nat n -> 0 < a -> ctxDone a = None) ->
  (forall a, attempt <= a < attempt + Z.of_nat n ->
             is_Some (httpRetryable c (doRequest a))) ->
  exists lastErr',
    let next :=
      httpclient.Do_loop c ctxDone doRequest fuel (attempt + Z.of_nat n) lastErr' in
    httpclient.Do_loop c ctxDone doRequest (n + fuel) attempt lastErr
    = (fst next, iterations (httpclient.calculateBackoff c) attempt n ++ snd next).
Proof.
  induction n as [|n IH]; intros fuel attempt lastErr Hwait Hfail.
  - exists lastErr. cbn zeta. replace (attempt + Z.of_nat 0) with attempt by lia.
    apply surjective_pairing.
  - destruct (Hfail attempt ltac:(lia)) as [e He].
    destruct (IH fuel (attempt + 1) (Some e)) as (lastErr' & Heq).
    { intros a Ha. apply Hwait. lia. }
    { intros a Ha. apply Hfail. lia. }
    exists lastErr'. cbn zeta in *.
    replace (attempt + Z.of_nat (S n)) with (attempt + 1 + Z.of_nat n) by lia.
    change (S n + fuel)%nat with (S (n + fuel)).
    cbn [httpclient.Do_loop iterations]. unfold iteration, httpRetryable in *.
    destruct (0 <? attempt) eqn:Hpos.
    + rewrite (Hwait attempt ltac:(lia) ltac:(lia)).
      destruct (doRequest attempt) as [resp | err].
      * destruct (httpclient.shouldRetry c (httpclient.StatusCode resp)); [|discriminate].
        injection He as <-. cbn [negb]. rewrite Heq. reflexivity.
      * injection He as <-. rewrite Heq. reflexivity.
    + destruct (doRequest attempt) as [resp | err].
      * destruct (httpclient.shouldRetry c (httpclient.StatusCode resp)); [|discriminate].
        injection He as <-. cbn [negb]. rewrite Heq. reflexivity.
      * injection He as <-. rewrite Heq. reflexivity.
Qed.

Lemma retry_loop_trace (serviceName : string) (cfg : grpcclient.RetryConfig)
  (statusCode : error -> Z) (ctxDone : Z -> option ContextErr)
  (invoker : Z -> option error) (n : nat) : forall fuel attempt lastErr,
  (forall a, attempt <= a < attempt + Z.of_nat n -> 0 < a -> ctxDone a = None) ->
  (forall a, attempt <= a < attempt + Z.of_nat n ->
             is_Some (grpcRetryable cfg statusCode (invoker a))) ->
  exists lastErr',
    let next :=
      grpcclient.retry_loop serviceName cfg statusCode ctxDone invoker fuel
        (attempt + Z.of_nat n) lastErr' in
    grpcclient.retry_loop serviceName cfg statusCode ctxDone invoker (n + fuel)
      attempt lastErr
    = (fst next, iterations (grpcclient.calculateBackoff cfg) attempt n ++ snd next).
Proof.
  induction n as [|n IH]; intros fuel attempt lastErr Hwait Hfail.
  - exists lastErr. cbn zeta. replace (attempt + Z.of_nat 0) with attempt by lia.
    apply surjective_pairing.
  - destruct (Hfail attempt ltac:(lia)) as [e He].
    destruct (IH fuel (attempt + 1) (Some e)) as (lastErr' & Heq).
    { intros a Ha. apply Hwait. lia. }
    { intros a Ha. apply Hfail. lia. }
    exists lastErr'. cbn zeta in *.
    replace (attempt + Z.of_nat (S n)) with (attempt + 1 + Z.of_nat n) by lia.
    change (S n + fuel)%nat with (S (n + fuel)).
    cbn [grpcclient.retry_loop iterations]. unfold iteration, grpcRetryable in *.
    destruct (invoker attempt) as [err|]; [|discriminate].
    destruct (grpcclient.shouldRetryCode _ _); [|discriminate].
    injection He as <-. cbn [negb].
    destruct (0 <? attempt) eqn:Hpos.
    + rewrite (Hwait attempt ltac:(lia) ltac:(lia)). rewrite Heq. reflexivity.
    + rewrite Heq. reflexivity.
Qed.

(** X1.  Retries stop at the first outcome that is not retried.  When the
    attempts before attempt [j] all fail with a retryable outcome, no
    wait is cancelled and attempt [j], within the budget, ends with an
    outcome that is not retried, [Do] and the gRPC retry interceptor
    return that outcome after exactly the iterations 0 to [j]: [j + 1]
    attempts, each but the first after a wait of the backoff delay of
    its number. *)
Theorem retries_stop_at_first_final_outcome {L I : Type}
  (c : httpclient.Client L I) (ctxDone : Z -> option ContextErr)
  (doRequest : Z -> httpclient.Response + error)
  (serviceName : string) (cfg : grpcclient.RetryConfig)
  (statusCode : error -> Z) (ctxDone' : Z -> option ContextErr)
  (invoker : Z -> option error) (j : Z) (resp : httpclient.Response) :
  0 <= j <= httpclient.MaxRetries (httpclient.retryConfig c) ->
  j <= grpcclient.MaxRetries cfg ->
  (forall a, 0 <= a < j -> is_Some (httpRetryable c (doRequest a))) ->
  (forall a, 0 <= a < j -> is_Some (grpcRetryable cfg statusCode (invoker a))) ->
  (forall a, 1 <= a <= j -> ctxDone a = None) ->
  (forall a, 1 <= a <= j -> ctxDone' a = None) ->
  doRequest j = inl resp ->
  httpclient.shouldRetry c (httpclient.StatusCode resp) = false ->
  grpcRetryable cfg statusCode (invoker j) = None ->
  httpclient.Do c ctxDone doRequest
  = (httpclient.DoOk resp,
     iterations (httpclient.calculateBackoff c) 0 (S (Z.to_nat j))) /\
  grpcclient.retryInterceptor serviceName cfg statusCode ctxDone' invoker
  = (invoker j, iterations (grpcclient.calculateBackoff cfg) 0 (S (Z.to_nat j))).
Proof.
  intros HjH HjG HfailH HfailG HwaitH HwaitG Hresp Hfinal HfinalG. split.
  - unfold httpclient.Do.
    replace (Z.to_nat (httpclient.MaxRetries (httpclient.retryConfig c) + 1))
      with (Z.to_nat j
            + S (Z.to_nat (httpclient.MaxRetries (httpclient.retryConfig c) - j)))%nat
      by lia.
    destruct (Do_loop_trace c ctxDone doRequest (Z.to_nat j)
                (S (Z.to_nat (httpclient.MaxRetries (httpclient.retryConfig c) - j)))
                0 None) as (lastErr' & Heq).
    { intros a Ha Hpos. apply HwaitH. lia. }
    { intros a Ha. apply HfailH. lia. }
    cbn zeta in Heq. rewrite Heq, iterations_snoc.
    replace (0 + Z.of_nat (Z.to_nat j)) with j by lia.
    cbn [httpclient.Do_loop]. rewrite Hresp, Hfinal. cbn [negb]. unfold iteration.
    destruct (0 <? j) eqn:Hpos; [|reflexivity].
    rewrite (HwaitH j ltac:(lia)). reflexivity.
  - unfold grpcclient.retryInterceptor.
    replace (Z.to_nat (grpcclient.MaxRetries cfg + 1))
      with (Z.to_nat j + S (Z.to_nat (grpcclient.MaxRetries cfg - j)))%nat by lia.
    destruct (retry_loop_trace serviceName cfg statusCode ctxDone' invoker (Z.to_nat j)
                (S (Z.to_nat (grpcclient.MaxRetries cfg - j))) 0 None)
      as (lastErr' & Heq).
    { intros a Ha Hpos. apply HwaitG. lia. }
    { intros a Ha. apply HfailG. lia. }
    cbn zeta in Heq. rewrite Heq, iterations_snoc.
    replace (0 + Z.of_nat (Z.to_nat j)) with j by lia.
    cbn [grpcclient.retry_loop]. unfold iteration, grpcRetryable in *.
    assert (Hw : 0 < j -> ctxDone' j = None) by (intros; apply HwaitG; lia).
    destruct (invoker j) as [err|].
    + destruct (grpcclient.shouldRetryCode _ _); [discriminate|]. cbn [negb].
      destruct (0 <? j) eqn:Hpos; [|reflexivity].
      rewrite Hw by lia. reflexivity.
    + destruct (0 <? j) eqn:Hpos; [|reflexivity].
      rewrite Hw by lia. reflexivity.
Qed.

Lemma retries_stop_at_first_final_outcome_witness :
  httpclient.Do (examples.httpClient 3) examples.neverDone
    (λ a, if a <? 2 then inl (examples.response 503 "busy")
          else inl (examples.response 200 "ok"))
  = (httpclient.DoOk (examples.response 200 "ok"),
     [EvAttempt 0;
      EvWait 1 (Some (100 * gotime.Millisecond)); EvAttempt 1;
      EvWait 2 (Some (200 * gotime.Millisecond)); EvAttempt 2]) /\
  grpcclient.retryInterceptor "orders" (examples.retryUnavailable 3)
    examples.statusCode examples.neverDone
    (λ a, if a <? 2 then Some (statusError codes.Unavailable "down")
          else Some (statusError codes.NotFound "no such order"))
  = (Some (statusError codes.NotFound "no such order"),
     [EvAttempt 0;
      EvWait 1 (Some (100 * gotime.Millisecond)); EvAttempt 1;
      EvWait 2 (Some (200 * gotime.Millisecond)); EvAttempt 2]).
Proof.
  apply (retries_stop_at_first_final_outcome (examples.httpClient 3) examples.neverDone
           (λ a, if a <? 2 then inl (examples.response 503 "busy")
                 else inl (examples.response 200 "ok"))
           "orders" (examples.retryUnavailable 3) examples.statusCode examples.neverDone
           (λ a, if a <? 2 then Some (statusError codes.Unavailable "down")
                 else Some (statusError codes.NotFound "no such order"))
           2 (examples.response 200 "ok")).
  - vm_compute. split; discriminate.
  - vm_compute. discriminate.
  - intros a Ha. replace (a <? 2) with true by lia. by eexists.
  - intros a Ha. replace (a <? 2) with true by lia. by eexists.
  - reflexivity.
  - reflexivity.
  - reflexivity.
  - reflexivity.
  - reflexivity.
Defined.

(** X2.  A negative [MaxRetries] survives [NewClient], which replaces 0 only.
    The loops then make no attempt: [Do] panics on the nil [lastErr] it
    passes to the logger, and the gRPC interceptor returns a
    service-unavailable error that wraps nil. *)
Theorem negative_MaxRetries_no_attempt {L I : Type}
  (cfg : httpclient.Config L I) (ctxDone : Z -> option ContextErr)
  (doRequest : Z -> httpclient.Response + error)
  (serviceName : string) (cfg' : grpcclient.RetryConfig)
  (statusCode : error -> Z) (ctxDone' : Z -> option ContextErr)
  (invoker : Z -> option error) :
  httpclient.MaxRetries (httpclient.RetryConfig_ cfg) < 0 ->
  grpcclient.MaxRetries cfg' < 0 ->
  httpclient.Do (httpclient.NewClient cfg) ctxDone doRequest = (httpclient.DoPanic, []) /\
  grpcclient.retryInterceptor serviceName cfg' statusCode ctxDone' invoker
  = (Some (ServiceUnavailableError serviceName None), []).
Proof.
  intros HH HG. split.
  - unfold httpclient.Do, httpclient.NewClient. cbn [httpclient.retryConfig].
    replace (httpclient.MaxRetries (httpclient.RetryConfig_ cfg) =? 0) with false by lia.
    replace (Z.to_nat (httpclient.MaxRetries (httpclient.RetryConfig_ cfg) + 1))
      with 0%nat by lia.
    reflexivity.
  - unfold grpcclient.retryInterceptor.
    replace (Z.to_nat (grpcclient.MaxRetries cfg' + 1)) with 0%nat by lia.
    reflexivity.
Qed.

Lemma negative_MaxRetries_no_attempt_witness :
  httpclient.Do (httpclient.NewClient (examples.httpConfig (examples.retry503 (-1))))
    examples.neverDone (λ _, inl (examples.response 200 "ok"))
  = (httpclient.DoPanic, []) /\
  grpcclient.retryInterceptor "orders" (examples.retryUnavailable (-1))
    examples.statusCode examples.neverDone (λ _, None)
  = (Some (ServiceUnavailableError "orders" None), []).
Proof.
  apply (negative_MaxRetries_no_attempt (examples.httpConfig (examples.retry503 (-1)))
           examples.neverDone (λ _, inl (examples.response 200 "ok"))
           "orders" (examples.retryUnavailable (-1)) examples.statusCode
           examples.neverDone (λ _, None)); cbn; lia.
Defined.

(** ** Further properties of the rate limiter *)

(** X3.  Idle eviction: a key whose last access is more than [ttl] before the
    sweep is absent after it, the other keys keep their entries, and
    [Len] is smaller. *)
Theorem cleanup_evicts_idle (w : limiter.world) (now : Time) (ip : string)
  (entry : limiter.limiterEntry) :
  limiter.ips (limiter.lim w) !! ip = Some entry ->
  limiter.lastSeen entry < now - limiter.ttl (limiter.lim w) ->
  limiter.ips (limiter.lim (limiter.cleanup w now)) !! ip = None /\
  (limiter.Len (limiter.cleanup w now) < limiter.Len w)%nat /\
  (forall ip' entry',
      limiter.ips (limiter.lim w) !! ip' = Some entry' ->
      now - limiter.ttl (limiter.lim w) <= limiter.lastSeen entry' ->
      limiter.ips (limiter.lim (limiter.cleanup w now)) !! ip' = Some entry').
Proof.
  intros Hip Hidle. unfold limiter.Len, limiter.cleanup.
  cbn [limiter.lim limiter.ips limiter.with_ips].
  assert (Hgone : filter (λ kv, gotime.Before (limiter.lastSeen kv.2)
                                  (gotime.Add now (- limiter.ttl (limiter.lim w))) = false)
                    (limiter.ips (limiter.lim w)) !! ip = None).
  { apply map_lookup_filter_None_2. right. intros x Hx.
    rewrite Hip in Hx. injection Hx as <-. cbn.
    unfold gotime.Before, gotime.Add. intros Hkeep. apply Z.ltb_ge in Hkeep. lia. }
  split; [exact Hgone|]. split.
  - apply map_subset_size. split; [apply map_filter_subseteq|].
    intros Hsub. specialize (Hsub ip). rewrite Hip, Hgone in Hsub. exact Hsub.
  - intros ip' entry' Hip' Hfresh. apply map_lookup_filter_Some_2; [done|].
    cbn. unfold gotime.Before, gotime.Add. apply Z.ltb_ge. lia.
Qed.

Lemma cleanup_evicts_idle_witness :
  limiter.ips (limiter.lim
    (limiter.cleanup (fst (limiter.AddIP (limiter.shared twoCallers) 1000 "10.0.0.7"))
       (1000 + gotime.Hour + 1))) !! "10.0.0.7" = None /\
  (limiter.Len
     (limiter.cleanup (fst (limiter.AddIP (limiter.shared twoCallers) 1000 "10.0.0.7"))
        (1000 + gotime.Hour + 1))
   < limiter.Len (fst (limiter.AddIP (limiter.shared twoCallers) 1000 "10.0.0.7")))%nat /\
  (forall ip' entry',
      limiter.ips (limiter.lim
        (fst (limiter.AddIP (limiter.shared twoCallers) 1000 "10.0.0.7"))) !! ip'
      = Some entry' ->
      1000 + gotime.Hour + 1
      - limiter.ttl (limiter.lim
          (fst (limiter.AddIP (limiter.shared twoCallers) 1000 "10.0.0.7")))
      <= limiter.lastSeen entry' ->
      limiter.ips (limiter.lim
        (limiter.cleanup (fst (limiter.AddIP (limiter.shared twoCallers) 1000 "10.0.0.7"))
           (1000 + gotime.Hour + 1))) !! ip' = Some entry').
Proof.
  apply (cleanup_evicts_idle
           (fst (limiter.AddIP (limiter.shared twoCallers) 1000 "10.0.0.7"))
           (1000 + gotime.Hour + 1) "10.0.0.7"
           {| limiter.limiter_ := 0; limiter.lastSeen := 1000 |}).
  - vm_compute. reflexivity.
  - vm_compute. reflexivity.
Defined.

Lemma exec_bucketsSeparate w cs : bucketsSeparate w -> bucketsSeparate (limiter.exec w cs).
Proof.
  intros [Hheap Hsep]. destruct cs as [ip now | ip now | now |]; cbn [limiter.exec].
  - unfold limiter.GetLimiter_locked.
    destruct (limiter.ips (limiter.lim w) !! ip) as [entry|] eqn:Hip; cbn [fst];
      [|by split].
    split; cbn [limiter.lim limiter.heap limiter.with_ips limiter.ips limiter.r limiter.b].
    + intros ip' e. destruct (decide (ip' = ip)) as [->|Hne].
      * rewrite lookup_insert_eq. intros [= <-]. cbn. by eapply Hheap.
      * rewrite lookup_insert_ne by done. apply Hheap.
    + intros ip1 ip2 e1 e2.
      destruct (decide (ip1 = ip)) as [->|Hne1]; destruct (decide (ip2 = ip)) as [->|Hne2];
        try done.
      * rewrite lookup_insert_eq, lookup_insert_ne by done. intros [= <-] H2. cbn.
        intros Heq. symmetry. by eapply Hsep.
      * rewrite lookup_insert_eq, lookup_insert_ne by done. intros H1 [= <-]. cbn.
        intros Heq. by eapply Hsep.
      * rewrite !lookup_insert_ne by done. apply Hsep.
  - unfold limiter.AddIP. cbn [fst].
    split; cbn [limiter.lim limiter.heap limiter.with_ips limiter.ips limiter.r limiter.b].
    + intros ip' e. destruct (decide (ip' = ip)) as [->|Hne].
      * rewrite lookup_insert_eq. intros [= <-]. cbn.
        rewrite lookup_app_r by lia. by rewrite Nat.sub_diag.
      * rewrite lookup_insert_ne by done. intros He.
        rewrite lookup_app_l; [by eapply Hheap|].
        eapply lookup_lt_Some, Hheap, He.
    + intros ip1 ip2 e1 e2.
      destruct (decide (ip1 = ip)) as [->|Hne1]; destruct (decide (ip2 = ip)) as [->|Hne2];
        try done.
      * rewrite lookup_insert_eq, lookup_insert_ne by done. intros [= <-] H2. cbn.
        intros Heq. apply Hheap, lookup_lt_Some in H2. lia.
      * rewrite lookup_insert_eq, lookup_insert_ne by done. intros H1 [= <-]. cbn.
        intros Heq. apply Hheap, lookup_lt_Some in H1. lia.
      * rewrite !lookup_insert_ne by done. apply Hsep.
  - unfold limiter.cleanup.
    split; cbn [limiter.lim limiter.heap limiter.with_ips limiter.ips limiter.r limiter.b].
    + intros ip e [He _]%map_lookup_filter_Some. by eapply Hheap.
    + intros ip1 ip2 e1 e2 [H1 _]%map_lookup_filter_Some [H2 _]%map_lookup_filter_Some.
      by eapply Hsep.
  - unfold limiter.Clear.
    split; cbn [limiter.lim limiter.heap limiter.with_ips limiter.ips limiter.r limiter.b].
    + intros ip e. by rewrite lookup_empty.
    + intros ip1 ip2 e1 e2. by rewrite lookup_empty.
Qed.

(** X5.  Whatever the goroutines do and however the mutex orders their
    critical sections ([GetLimiter], [AddIP], the sweep, [Clear]), from a
    state in which the entries of the map point to limiters made with
    the rate and burst of the object, no two keys to the same one, the
    state reached is such a state again: two keys never share a bucket. *)
Theorem keys_never_share_a_bucket (w : limiter.world) (l : list limiter.critical) :
  bucketsSeparate w -> bucketsSeparate (limiter.execs w l).
Proof.
  unfold limiter.execs. revert w.
  induction l as [|cs l IH]; intros w Hw; [exact Hw|].
  cbn [foldl]. by apply IH, exec_bucketsSeparate.
Qed.

Lemma keys_never_share_a_bucket_witness :
  bucketsSeparate
    (limiter.execs freshLimiter
       [limiter.Looks "10.0.0.7" 1000; limiter.Looks "10.0.0.7" 1001;
        limiter.Adds "10.0.0.7" 1002; limiter.Adds "10.0.0.7" 1003;
        limiter.Looks "10.0.0.8" 1004; limiter.Adds "10.0.0.8" 1005;
        limiter.Sweeps 1006; limiter.Looks "10.0.0.7" 1007]).
Proof.
  apply (keys_never_share_a_bucket freshLimiter).
  split.
  - intros ip e. cbn. by rewrite lookup_empty.
  - intros ip1 ip2 e1 e2. cbn. by rewrite lookup_empty.
Defined.

(** X4.  A key in use keeps its bucket.  Run with no other goroutine in
    between, a second [GetLimiter] for a key returns the bucket the
    first one returned and creates none; and so it does when the sweep
    has run in between, provided the sweep ran no later than [ttl] after
    the first call: a key that is in use is not evicted. *)
Theorem key_in_use_keeps_its_bucket (w : limiter.world) (t t' now u u' : Time)
  (ip : string) :
  let first := limiter.GetLimiter w t t' ip in
  let again := limiter.GetLimiter (fst first) u u' ip in
  let swept := limiter.cleanup (fst first) now in
  let second := limiter.GetLimiter swept u u' ip in
  (snd again = snd first /\ limiter.heap (fst again) = limiter.heap (fst first)) /\
  (now - limiter.ttl (limiter.lim w) <= t ->
   now - limiter.ttl (limiter.lim w) <= t' ->
   snd second = snd first /\ limiter.heap (fst second) = limiter.heap (fst first)).
Proof.
  cbn zeta.
  rewrite (GetLimiter_alone (limiter.cleanup _ _)), (GetLimiter_alone (fst _)),
    (GetLimiter_alone w).
  assert (Hkeep : forall (m : gmap string limiter.limiterEntry) l s,
             now - limiter.ttl (limiter.lim w) <= s ->
             filter (λ kv, gotime.Before (limiter.lastSeen kv.2)
                             (gotime.Add now (- limiter.ttl (limiter.lim w))) = false)
               (<[ip := {| limiter.limiter_ := l; limiter.lastSeen := s |}]> m) !! ip
             = Some {| limiter.limiter_ := l; limiter.lastSeen := s |}).
  { intros m l s Hs. apply map_lookup_filter_Some_2; [apply lookup_insert_eq|].
    cbn. unfold gotime.Before, gotime.Add. apply Z.ltb_ge. lia. }
  destruct (limiter.ips (limiter.lim w) !! ip) as [entry|] eqn:Hw.
  - unfold limiter.cleanup.
    cbn [fst snd limiter.lim limiter.ips limiter.with_ips limiter.heap limiter.ttl].
    rewrite lookup_insert_eq. split; [done|]. intros Ht Ht'.
    rewrite Hkeep by done. done.
  - unfold limiter.cleanup, limiter.AddIP.
    cbn [fst snd limiter.lim limiter.ips limiter.with_ips limiter.heap limiter.ttl].
    rewrite lookup_insert_eq. split; [done|]. intros Ht Ht'.
    rewrite Hkeep by done. done.
Qed.

Lemma key_in_use_keeps_its_bucket_witness :
  (snd (limiter.GetLimiter (fst (limiter.GetLimiter freshLimiter 1000 1001 "10.0.0.7"))
          (1002 + gotime.Hour) (1003 + gotime.Hour) "10.0.0.7")
   = snd (limiter.GetLimiter freshLimiter 1000 1001 "10.0.0.7") /\
   limiter.heap
     (fst (limiter.GetLimiter (fst (limiter.GetLimiter freshLimiter 1000 1001 "10.0.0.7"))
             (1002 + gotime.Hour) (1003 + gotime.Hour) "10.0.0.7"))
   = limiter.heap (fst (limiter.GetLimiter freshLimiter 1000 1001 "10.0.0.7"))) /\
  (snd (limiter.GetLimiter
          (limiter.cleanup (fst (limiter.GetLimiter freshLimiter 1000 1001 "10.0.0.7"))
             (1000 + gotime.Hour))
          (1002 + gotime.Hour) (1003 + gotime.Hour) "10.0.0.7")
   = snd (limiter.GetLimiter freshLimiter 1000 1001 "10.0.0.7") /\
   limiter.heap
     (fst (limiter.GetLimiter
             (limiter.cleanup (fst (limiter.GetLimiter freshLimiter 1000 1001 "10.0.0.7"))
                (1000 + gotime.Hour))
             (1002 + gotime.Hour) (1003 + gotime.Hour) "10.0.0.7"))
   = limiter.heap (fst (limiter.GetLimiter freshLimiter 1000 1001 "10.0.0.7"))).
Proof.
  destruct (key_in_use_keeps_its_bucket freshLimiter 1000 1001 (1000 + gotime.Hour)
              (1002 + gotime.Hour) (1003 + gotime.Hour) "10.0.0.7") as [Hagain Hswept].
  split; [exact Hagain|]. apply Hswept.
  - vm_compute. discriminate.
  - vm_compute. discriminate.
Defined.

(** ** Further properties of the in-memory cache *)

Lemma append_inj_r (p a b : string) : p +:+ a = p +:+ b -> a = b.
Proof.
  induction p as [|x p IH]; [done|].
  change (String x p +:+ a) with (String x (p +:+ a)).
  change (String x p +:+ b) with (String x (p +:+ b)).
  intros [= H]. by apply IH.
Qed.

Lemma buildKey_inj c key key' : cache.buildKey c key = cache.buildKey c key' -> key = key'.
Proof.
  unfold cache.buildKey. destruct (negb _); [|done].
  intros H. apply append_inj_r in H. by apply (append_inj_r ":") in H.
Qed.

Lemma buildKey_items c m key :
  cache.buildKey {| cache.items := m; cache.options := cache.options c |} key
  = cache.buildKey c key.
Proof. reflexivity. Qed.

Lemma expired_monotone item t t' :
  t <= t' -> cache.expired t item = true -> cache.expired t' item = true.
Proof.
  unfold cache.expired, gotime.After. intros Ht [Hz Ha]%andb_true_iff.
  rewrite Hz. cbn [andb]. lia.
Qed.

(** X6.  [Exists], [TTL] and [Get] agree.  Read at the same instant, [Exists]
    reports a key exactly when [Get] returns its value, [TTL] returns an
    error exactly when [Get] does, and the same one, and otherwise a
    remaining time that is not negative, or -1 for an item that does not
    expire. *)
Theorem Get_Exists_TTL_agree (c : cache.MemoryCache) (now : Time) (key : string) :
  (cache.Exists c now key = true <-> exists v, cache.Get c now key = inl v) /\
  (forall err, snd (cache.TTL c now key) = Some err <-> cache.Get c now key = inr err) /\
  (snd (cache.TTL c now key) = None ->
   fst (cache.TTL c now key) = -1 \/ 0 <= fst (cache.TTL c now key)).
Proof.
  unfold cache.Exists, cache.TTL, cache.Get.
  destruct (cache.items c !! cache.buildKey c key) as [item|].
  - unfold cache.expired, gotime.After, time_Until, min_int64, max_int64.
    destruct (gotime.IsZero (cache.expiresAt item)) eqn:Hz; cbn [negb andb fst snd].
    + split; [split; [by eexists | done]|]. split; [|by left].
      intros err. split; discriminate.
    + destruct (Z.max _ _ <? 0) eqn:Hneg; cbn [fst snd].
      * replace (cache.expiresAt item <? now) with true by lia.
        split; [split; [done | by intros [v ?]]|]. split; [|done].
        intros err. split; by intros [= <-].
      * replace (cache.expiresAt item <? now) with false by lia.
        split; [split; [by eexists | done]|]. split; [|right; lia].
        intros err. split; discriminate.
  - cbn [fst snd]. split; [split; [done | by intros [v ?]]|]. split; [|done].
    intros err. split; by intros [= <-].
Qed.

(** X7.  [SetNX] respects the values [Get] returns no longer than they live.
    A key [Get] does not return at that instant is always set.  When
    [SetNX] reports that it did not set, the cache is as before and [Get]
    still returns the old value.  When it did set, [Get] returns the new
    value up to the expiry, and for ever when [ttl] is zero or negative
    (no default applies, other than in [Set]); after the expiry [Get]
    returns [ErrKeyExpired]. *)
Theorem SetNX_sets_what_Get_misses (c : cache.MemoryCache) (now now' : Time)
  (key : string) (v : list Byte.byte) (ttl : Duration) :
  let r := cache.SetNX c now now' key v ttl in
  (forall err, cache.Get c now key = inr err -> snd r = true) /\
  (snd r = false -> fst r = c /\ exists old, cache.Get c now key = inl old) /\
  (snd r = true ->
   forall t, ttl <= 0 \/ t <= now' + ttl -> cache.Get (fst r) t key = inl v) /\
  (snd r = true -> 0 < ttl -> now' + ttl <> 0 ->
   forall t, now' + ttl < t -> cache.Get (fst r) t key = inr cache.ErrKeyExpired).
Proof.
  cbn zeta. unfold cache.SetNX, cache.Get.
  destruct (cache.items c !! cache.buildKey c key) as [item|] eqn:Hitem.
  - unfold cache.unexpired, cache.expired, gotime.IsZero, gotime.Before, gotime.After,
      gotime.Add.
    destruct (cache.expiresAt item =? 0) eqn:Hz; cbn [negb andb orb fst snd].
    + rewrite Hitem. cbn [negb andb].
      split; [discriminate|]. split; [split; [done | by eexists]|]. split; discriminate.
    + destruct (now <? cache.expiresAt item) eqn:Hb; cbn [fst snd].
      * rewrite Hitem, Hz. cbn [negb andb].
        replace (cache.expiresAt item <? now) with false by lia.
        split; [discriminate|]. split; [split; [done | by eexists]|]. split; discriminate.
      * cbn [cache.items cache.options].
        rewrite !buildKey_items.
        rewrite lookup_insert_eq. cbn [cache.expiresAt cache.value].
        split; [done|]. split; [discriminate|]. split.
        -- intros _ t Ht. destruct (0 <? ttl) eqn:Hpos; [|done].
           destruct (now' + ttl =? 0); cbn [negb andb]; [done|].
           by replace (now' + ttl <? t) with false by lia.
        -- intros _ Hpos Hnz t Ht. replace (0 <? ttl) with true by lia.
           replace (now' + ttl =? 0) with false by lia. cbn [negb andb].
           by replace (now' + ttl <? t) with true by lia.
  - cbn [fst snd cache.items cache.options].
    rewrite !buildKey_items.
    rewrite lookup_insert_eq. cbn [cache.expiresAt cache.value].
    unfold cache.expired, gotime.IsZero, gotime.After, gotime.Add. cbn [cache.expiresAt].
    split; [done|]. split; [discriminate|]. split.
    + intros _ t Ht. destruct (0 <? ttl) eqn:Hpos; [|done].
      destruct (now' + ttl =? 0); cbn [negb andb]; [done|].
      by replace (now' + ttl <? t) with false by lia.
    + intros _ Hpos Hnz t Ht. replace (0 <? ttl) with true by lia.
      replace (now' + ttl =? 0) with false by lia. cbn [negb andb].
      by replace (now' + ttl <? t) with true by lia.
Qed.

(** X8.  [GetSet] installs a value that never expires.  Whatever the old item
    and its time to live, after [GetSet] the key holds the new value at
    every instant; the value returned is nil when [Get] finds nothing to
    return, and the value [Get] returns otherwise, save at the very
    instant of the old item's expiry, when it is nil already. *)
Theorem GetSet_drops_the_expiry (c : cache.MemoryCache) (now : Time)
  (key : string) (v : list Byte.byte) :
  let r := cache.GetSet c now key v in
  (forall t, cache.Get (fst r) t key = inl v) /\
  (forall err, cache.Get c now key = inr err -> snd r = []) /\
  (forall old item,
      cache.Get c now key = inl old ->
      cache.items c !! cache.buildKey c key = Some item ->
      cache.expiresAt item <> now ->
      snd r = old).
Proof.
  cbn zeta. unfold cache.GetSet, cache.Get. cbn [fst snd cache.items cache.options].
  rewrite !buildKey_items. split; [|split].
  - intros t. by rewrite lookup_insert_eq.
  - intros err. destruct (cache.items c !! cache.buildKey c key) as [item|]; [|done].
    unfold cache.expired, cache.unexpired, gotime.IsZero, gotime.After, gotime.Before.
    destruct (cache.expiresAt item =? 0); cbn [negb andb orb]; [done|].
    destruct (cache.expiresAt item <? now) eqn:Ha; [|done].
    by replace (now <? cache.expiresAt item) with false by lia.
  - intros old item Hget Hitem Hne. rewrite Hitem in Hget |- *.
    revert Hget.
    unfold cache.expired, cache.unexpired, gotime.IsZero, gotime.After, gotime.Before.
    destruct (cache.expiresAt item =? 0); cbn [negb andb orb]; [by intros [= <-]|].
    destruct (cache.expiresAt item <? now) eqn:Ha; [done|]. intros [= <-].
    by replace (now <? cache.expiresAt item) with true by lia.
Qed.

Lemma int64_range z : min_int64 <= int64 z <= max_int64.
Proof.
  unfold int64, min_int64, max_int64.
  pose proof (Z.mod_pos_bound (z + 2 ^ 63) (2 ^ 64) ltac:(lia)). lia.
Qed.

Lemma int64_small z : min_int64 <= z <= max_int64 -> int64 z = z.
Proof.
  unfold int64, min_int64, max_int64. intros Hz.
  rewrite Z.mod_small by lia. lia.
Qed.

Lemma int64_add_l a b : int64 (int64 a + b) = int64 (a + b).
Proof.
  unfold int64.
  replace ((a + 2 ^ 63) mod 2 ^ 64 - 2 ^ 63 + b + 2 ^ 63)
    with ((a + 2 ^ 63) mod 2 ^ 64 + b) by lia.
  rewrite Zplus_mod_idemp_l. f_equal. f_equal. lia.
Qed.

Lemma int64_add_r a b : int64 (a + int64 b) = int64 (a + b).
Proof. rewrite (Z.add_comm a), int64_add_l. f_equal. lia. Qed.

Lemma Get_NotFound c now key :
  cache.Get c now key = inr cache.ErrKeyNotFound
  <-> cache.items c !! cache.buildKey c key = None.
Proof.
  unfold cache.Get. destruct (cache.items c !! cache.buildKey c key) as [item|]; [|done].
  by destruct (cache.expired now item).
Qed.

Section CounterFacts.
Variable Marshal : Z -> list Byte.byte.
Variable Unmarshal : list Byte.byte -> Z.
Hypothesis round_trip : forall z, min_int64 <= z <= max_int64 -> Unmarshal (Marshal z) = z.

Lemma Increment_on_counter c now key delta s :
  min_int64 <= s <= max_int64 ->
  cache.items c !! cache.buildKey c key
  = Some {| cache.value := Marshal s; cache.expiresAt := 0 |} ->
  snd (cache.Increment Marshal Unmarshal c now key delta) = int64 (s + delta) /\
  cache.items (fst (cache.Increment Marshal Unmarshal c now key delta))
    !! cache.buildKey c key
  = Some {| cache.value := Marshal (int64 (s + delta)); cache.expiresAt := 0 |} /\
  cache.options (fst (cache.Increment Marshal Unmarshal c now key delta))
  = cache.options c.
Proof.
  intros Hs Hitem. unfold cache.Increment. rewrite Hitem.
  cbn [fst snd cache.items cache.options cache.value cache.expiresAt].
  unfold cache.unexpired, gotime.IsZero. cbn [cache.expiresAt Z.eqb orb negb].
  rewrite round_trip by done. by rewrite lookup_insert_eq.
Qed.

Lemma Increment_steps key (steps : list (Time * Z)) : forall c last s,
  min_int64 <= s <= max_int64 ->
  cache.items c !! cache.buildKey c key
  = Some {| cache.value := Marshal s; cache.expiresAt := 0 |} ->
  let r := foldl (λ cr step,
                    cache.Increment Marshal Unmarshal (fst cr) (fst step) key (snd step))
             (c, last) steps in
  cache.items (fst r) !! cache.buildKey c key
  = Some {| cache.value := Marshal (int64 (s + foldr Z.add 0 steps.*2));
            cache.expiresAt := 0 |} /\
  cache.options (fst r) = cache.options c /\
  (steps <> [] -> snd r = int64 (s + foldr Z.add 0 steps.*2)).
Proof.
  induction steps as [|[t d] steps IH]; intros c last s Hs Hitem; cbn zeta.
  - cbn. rewrite Z.add_0_r, int64_small by done. done.
  - cbn [foldl fst snd fmap list_fmap foldr].
    destruct (Increment_on_counter c t key d s Hs Hitem) as (Hret & Hitem' & Hopt).
    destruct (cache.Increment Marshal Unmarshal c t key d) as [c' ret] eqn:Hinc.
    cbn [fst snd] in *. subst ret.
    assert (Hk : cache.buildKey c' key = cache.buildKey c key)
      by (unfold cache.buildKey; by rewrite Hopt).
    specialize (IH c' (int64 (s + d)) (int64 (s + d)) (int64_range _)).
    rewrite Hk in IH. specialize (IH Hitem'). cbn zeta in IH.
    destruct IH as (IH1 & IH2 & IH3).
    rewrite int64_add_l in IH1, IH3.
    replace (s + (d + foldr Z.add 0 steps.*2)) with (s + d + foldr Z.add 0 steps.*2) by lia.
    split; [exact IH1|]. split; [congruence|]. intros _.
    destruct steps as [|step steps]; [|apply IH3; done].
    cbn. by rewrite Z.add_0_r.
Qed.

(** X9.  A counter counts.  With a serializer that reads back the numbers it
    writes, [Increment] on a key the cache does not hold, by [d0] and
    then by the deltas of [steps] at any instants, returns the sum of all
    the deltas, as an [int64], and leaves a value that does not expire;
    a [Decrement] by [d] then returns the sum less [d]. *)
Theorem Increment_counts (c : cache.MemoryCache) (key : string)
  (t0 : Time) (d0 : Z) (steps : list (Time * Z)) (now t : Time) (d : Z) :
  cache.Get c now key = inr cache.ErrKeyNotFound ->
  let r := foldl (λ cr step,
                    cache.Increment Marshal Unmarshal (fst cr) (fst step) key (snd step))
             (c, 0) ((t0, d0) :: steps) in
  snd r = int64 (d0 + foldr Z.add 0 steps.*2) /\
  (forall u, cache.Get (fst r) u key
             = inl (Marshal (int64 (d0 + foldr Z.add 0 steps.*2)))) /\
  snd (cache.Decrement Marshal Unmarshal (fst r) t key d)
  = int64 (d0 + foldr Z.add 0 steps.*2 - d).
Proof.
  intros Hnew%Get_NotFound. cbn zeta. cbn [foldl fst snd].
  assert (H1 : snd (cache.Increment Marshal Unmarshal c t0 key d0) = int64 d0 /\
               cache.items (fst (cache.Increment Marshal Unmarshal c t0 key d0))
                 !! cache.buildKey c key
               = Some {| cache.value := Marshal (int64 d0); cache.expiresAt := 0 |} /\
               cache.options (fst (cache.Increment Marshal Unmarshal c t0 key d0))
               = cache.options c).
  { unfold cache.Increment. rewrite Hnew.
    cbn [fst snd cache.items cache.options]. by rewrite lookup_insert_eq. }
  destruct H1 as (Hret & Hitem & Hopt).
  destruct (cache.Increment Marshal Unmarshal c t0 key d0) as [c' ret] eqn:Hinc.
  cbn [fst snd] in *. subst ret.
  assert (Hk : cache.buildKey c' key = cache.buildKey c key)
    by (unfold cache.buildKey; by rewrite Hopt).
  pose proof (Increment_steps key steps c' (int64 d0) (int64 d0) (int64_range _)) as IH.
  rewrite Hk in IH. specialize (IH Hitem). cbn zeta in IH.
  destruct IH as (IH1 & IH2 & IH3). rewrite int64_add_l in IH1, IH3.
  set (r := foldl _ _ steps) in *.
  assert (Hkr : cache.buildKey (fst r) key = cache.buildKey c key)
    by (unfold cache.buildKey; by rewrite IH2, Hopt).
  split; [|split].
  - destruct steps as [|step steps]; [|apply IH3; done].
    subst r. cbn. by rewrite Z.add_0_r.
  - intros u. unfold cache.Get. rewrite Hkr, IH1. reflexivity.
  - unfold cache.Decrement.
    destruct (Increment_on_counter (fst r) t key (int64 (- d))
                (int64 (d0 + foldr Z.add 0 steps.*2)) (int64_range _)) as (Hdec & _).
    { by rewrite Hkr. }
    rewrite Hdec, int64_add_l, int64_add_r. reflexivity.
Qed.

End CounterFacts.

Lemma tally_round_trip z : tallyUnmarshal (tallyMarshal z) = z.
Proof.
  unfold tallyMarshal, tallyUnmarshal.
  destruct (0 <=? z) eqn:Hz; rewrite length_replicate; lia.
Qed.

Lemma Increment_counts_witness :
  snd (foldl (λ cr step,
                cache.Increment tallyMarshal tallyUnmarshal (fst cr) (fst step)
                  "hits" (snd step))
         (cache.NewMemoryCache [], 0) [(1000, 2); (2000, 3); (3000, -1)])
  = int64 (2 + foldr Z.add 0 [(2000, 3); (3000, -1)].*2) /\
  (forall u,
      cache.Get
        (fst (foldl (λ cr step,
                       cache.Increment tallyMarshal tallyUnmarshal (fst cr) (fst step)
                         "hits" (snd step))
                (cache.NewMemoryCache [], 0) [(1000, 2); (2000, 3); (3000, -1)]))
        u "hits"
      = inl (tallyMarshal (int64 (2 + foldr Z.add 0 [(2000, 3); (3000, -1)].*2)))) /\
  snd (cache.Decrement tallyMarshal tallyUnmarshal
         (fst (foldl (λ cr step,
                        cache.Increment tallyMarshal tallyUnmarshal (fst cr) (fst step)
                          "hits" (snd step))
                 (cache.NewMemoryCache [], 0) [(1000, 2); (2000, 3); (3000, -1)]))
         4000 "hits" 4)
  = int64 (2 + foldr Z.add 0 [(2000, 3); (3000, -1)].*2 - 4).
Proof.
  apply (Increment_counts tallyMarshal tallyUnmarshal (λ z _, tally_round_trip z)
           (cache.NewMemoryCache []) "hits" 1000 2 [(2000, 3); (3000, -1)] 500 4000 4).
  reflexivity.
Defined.

Lemma Increment_expired Marshal Unmarshal c now key delta item :
  cache.items c !! cache.buildKey c key = Some item ->
  cache.unexpired now item = false ->
  cache.Increment Marshal Unmarshal c now key delta
  = ({| cache.items :=
          <[cache.buildKey c key :=
              {| cache.value := Marshal (int64 delta);
                 cache.expiresAt := cache.expiresAt item |}]> (cache.items c);
        cache.options := cache.options c |},
     int64 delta).
Proof.
  intros Hitem Hdead. unfold cache.Increment. rewrite Hitem, Hdead.
  unfold cache.unexpired in Hdead. apply orb_false_iff in Hdead as [-> _].
  reflexivity.
Qed.

(** X10.  An expired counter does not count.  On a key [Get] reports as expired,
    [Increment] starts again from zero but keeps the old expiry: it
    returns its own delta, and so does every later [Increment], while
    [Get] goes on reporting the key as expired. *)
Theorem Increment_of_expired_key_is_lost (Marshal : Z -> list Byte.byte)
  (Unmarshal : list Byte.byte -> Z) (c : cache.MemoryCache) (key : string)
  (now now1 now2 : Time) (d1 d2 : Z) :
  cache.Get c now key = inr cache.ErrKeyExpired ->
  now <= now1 -> now1 <= now2 ->
  let r1 := cache.Increment Marshal Unmarshal c now1 key d1 in
  let r2 := cache.Increment Marshal Unmarshal (fst r1) now2 key d2 in
  snd r1 = int64 d1 /\ snd r2 = int64 d2 /\
  forall t, now <= t ->
    cache.Get (fst r1) t key = inr cache.ErrKeyExpired /\
    cache.Get (fst r2) t key = inr cache.ErrKeyExpired.
Proof.
  intros Hget H1 H2. cbn zeta. unfold cache.Get in Hget.
  destruct (cache.items c !! cache.buildKey c key) as [item|] eqn:Hitem; [|done].
  destruct (cache.expired now item) eqn:Hexp; [|done]. clear Hget.
  unfold cache.expired, gotime.IsZero, gotime.After in Hexp.
  apply andb_true_iff in Hexp as [Hz Ha].
  apply negb_true_iff in Hz. apply Z.ltb_lt in Ha.
  assert (Hdead : forall t v, now <= t ->
            let item' := {| cache.value := v; cache.expiresAt := cache.expiresAt item |} in
            cache.unexpired t item' = false /\ cache.expired t item' = true).
  { intros t v Ht. unfold cache.unexpired, cache.expired, gotime.IsZero, gotime.Before,
      gotime.After. cbn [cache.expiresAt]. rewrite Hz. cbn [orb negb andb]. lia. }
  rewrite (Increment_expired Marshal Unmarshal c now1 key d1 item Hitem).
  2:{ destruct item as [v0 e0]. exact (proj1 (Hdead now1 v0 H1)). }
  cbn [fst snd].
  erewrite (Increment_expired Marshal Unmarshal _ now2 key d2).
  2:{ rewrite buildKey_items. cbn [cache.items]. apply lookup_insert_eq. }
  2:{ apply (Hdead now2). lia. }
  cbn [fst snd cache.expiresAt cache.items cache.options]. rewrite !buildKey_items.
  split; [done|]. split; [done|]. intros t Ht.
  unfold cache.Get. rewrite !buildKey_items. cbn [cache.items].
  rewrite !lookup_insert_eq. by rewrite !(proj2 (Hdead t _ Ht)).
Qed.

Lemma Increment_of_expired_key_is_lost_witness :
  snd (cache.Increment tallyMarshal tallyUnmarshal
         (cache.Set_ (cache.NewMemoryCache []) 1000 "hits" (tallyMarshal 7) 60)
         1100 "hits" 1)
  = int64 1 /\
  snd (cache.Increment tallyMarshal tallyUnmarshal
         (fst (cache.Increment tallyMarshal tallyUnmarshal
                 (cache.Set_ (cache.NewMemoryCache []) 1000 "hits" (tallyMarshal 7) 60)
                 1100 "hits" 1))
         1200 "hits" 1)
  = int64 1 /\
  forall t, 1061 <= t ->
    cache.Get
      (fst (cache.Increment tallyMarshal tallyUnmarshal
              (cache.Set_ (cache.NewMemoryCache []) 1000 "hits" (tallyMarshal 7) 60)
              1100 "hits" 1))
      t "hits" = inr cache.ErrKeyExpired /\
    cache.Get
      (fst (cache.Increment tallyMarshal tallyUnmarshal
              (fst (cache.Increment tallyMarshal tallyUnmarshal
                      (cache.Set_ (cache.NewMemoryCache []) 1000 "hits"
                         (tallyMarshal 7) 60)
                      1100 "hits" 1))
              1200 "hits" 1))
      t "hits" = inr cache.ErrKeyExpired.
Proof.
  apply (Increment_of_expired_key_is_lost tallyMarshal tallyUnmarshal
           (cache.Set_ (cache.NewMemoryCache []) 1000 "hits" (tallyMarshal 7) 60)
           "hits" 1061 1100 1200 1 1).
  - reflexivity.
  - lia.
  - lia.
Defined.

(** X11.  The sweep is invisible to successful reads.  For a sweep at [now0]
    and a read at [now], no earlier: [Get] returns a value from the swept
    cache exactly when it returns it from the cache as it was; no item
    that had expired at [now0] is left; and the cache has not grown. *)
Theorem removeExpired_keeps_what_Get_returns (c : cache.MemoryCache)
  (now0 now : Time) (key : string) :
  now0 <= now ->
  (forall v, cache.Get (cache.removeExpired c now0) now key = inl v
             <-> cache.Get c now key = inl v) /\
  (forall k item,
      cache.items (cache.removeExpired c now0) !! k = Some item ->
      cache.expired now0 item = false) /\
  (cache.Size (cache.removeExpired c now0) <= cache.Size c)%nat.
Proof.
  intros Hnow. split; [|split].
  - intros v. unfold cache.Get, cache.removeExpired. rewrite buildKey_items.
    cbn [cache.items].
    destruct (cache.items c !! cache.buildKey c key) as [item|] eqn:Hitem.
    + destruct (cache.expired now0 item) eqn:Hexp.
      * rewrite map_lookup_filter_None_2
          by (right; intros x; rewrite Hitem; intros [= <-]; cbn; by rewrite Hexp).
        rewrite (expired_monotone item now0 now Hnow Hexp). done.
      * by rewrite (map_lookup_filter_Some_2 _ _ _ item Hitem Hexp).
    + by rewrite map_lookup_filter_None_2 by (by left).
  - intros k item [_ Hkeep]%map_lookup_filter_Some. exact Hkeep.
  - unfold cache.Size, cache.removeExpired. cbn [cache.items].
    apply map_subseteq_size, map_filter_subseteq.
Qed.

Lemma removeExpired_keeps_what_Get_returns_witness :
  (forall v,
      cache.Get
        (cache.removeExpired
           (cache.Set_ (cache.NewMemoryCache []) 1000 "session" [Byte.x2a] 60) 1030)
        1050 "session" = inl v
      <-> cache.Get (cache.Set_ (cache.NewMemoryCache []) 1000 "session" [Byte.x2a] 60)
            1050 "session" = inl v) /\
  (forall k item,
      cache.items
        (cache.removeExpired
           (cache.Set_ (cache.NewMemoryCache []) 1000 "session" [Byte.x2a] 60) 1030)
        !! k = Some item ->
      cache.expired 1030 item = false) /\
  (cache.Size
     (cache.removeExpired
        (cache.Set_ (cache.NewMemoryCache []) 1000 "session" [Byte.x2a] 60) 1030)
   <= cache.Size (cache.Set_ (cache.NewMemoryCache []) 1000 "session" [Byte.x2a] 60))%nat.
Proof.
  apply (removeExpired_keeps_what_Get_returns
           (cache.Set_ (cache.NewMemoryCache []) 1000 "session" [Byte.x2a] 60)
           1030 1050 "session").
  lia.
Defined.

Lemma DeleteMany_lookup c keys : forall (m : gmap string cache.memoryItem) k,
  foldl (λ m key, delete (cache.buildKey c key) m) m keys !! k
  = if decide (k ∈ cache.buildKey c <$> keys) then None else m !! k.
Proof.
  induction keys as [|key keys IH]; intros m k; cbn [foldl fmap list_fmap].
  - by rewrite decide_False by apply not_elem_of_nil.
  - rewrite IH. destruct (decide (k = cache.buildKey c key)) as [->|Hne].
    + rewrite lookup_delete_eq.
      rewrite (decide_True (P := _ ∈ _ :: _)) by apply list_elem_of_here.
      by destruct (decide _).
    + rewrite lookup_delete_ne by done.
      destruct (decide (k ∈ cache.buildKey c <$> keys)) as [Hin|Hnin].
      * by rewrite decide_True by (by apply list_elem_of_further).
      * rewrite decide_False; [done|]. by intros [?|?]%elem_of_cons.
Qed.

(** X12.  [DeleteMany] removes the listed keys and no other.  After it [Get]
    reports every listed key as not found, whether or not the cache held
    it, and returns for every other key what it returned before; for one
    key it is [Delete]. *)
Theorem DeleteMany_removes_the_listed_keys (c : cache.MemoryCache)
  (keys : list string) (now : Time) (key : string) :
  (key ∈ keys ->
   cache.Get (cache.DeleteMany c keys) now key = inr cache.ErrKeyNotFound) /\
  (key ∉ keys -> cache.Get (cache.DeleteMany c keys) now key = cache.Get c now key) /\
  cache.DeleteMany c [key] = cache.Delete c key.
Proof.
  split; [|split]; [| |reflexivity].
  - intros Hin. unfold cache.Get, cache.DeleteMany. rewrite buildKey_items.
    cbn [cache.items]. rewrite DeleteMany_lookup.
    by rewrite decide_True by (by apply list_elem_of_fmap_2).
  - intros Hnin. unfold cache.Get, cache.DeleteMany. rewrite buildKey_items.
    cbn [cache.items]. rewrite DeleteMany_lookup.
    rewrite decide_False; [done|].
    intros (key' & Heq & Hin)%list_elem_of_fmap. apply buildKey_inj in Heq. by subst.
Qed.

Lemma Get_insert_other c item now key key' :
  key <> key' ->
  cache.Get {| cache.items := <[cache.buildKey c key := item]> (cache.items c);
               cache.options := cache.options c |} now key'
  = cache.Get c now key'.
Proof.
  intros Hne. unfold cache.Get. rewrite buildKey_items. cbn [cache.items].
  rewrite lookup_insert_ne; [done|]. intros Heq. by apply buildKey_inj in Heq.
Qed.

(** X13.  Writes to one key leave the others alone.  After [Set], [Delete],
    [SetNX], [GetSet] or [Increment] on a key, [Get] returns for every
    other key what it returned before, whatever the key prefix of the
    options. *)
Theorem writes_leave_other_keys_alone (Marshal : Z -> list Byte.byte)
  (Unmarshal : list Byte.byte -> Z) (c : cache.MemoryCache)
  (key key' : string) (v : list Byte.byte) (ttl : Duration) (delta : Z)
  (now now' t : Time) :
  key <> key' ->
  cache.Get (cache.Set_ c now key v ttl) t key' = cache.Get c t key' /\
  cache.Get (cache.Delete c key) t key' = cache.Get c t key' /\
  cache.Get (fst (cache.SetNX c now now' key v ttl)) t key' = cache.Get c t key' /\
  cache.Get (fst (cache.GetSet c now key v)) t key' = cache.Get c t key' /\
  cache.Get (fst (cache.Increment Marshal Unmarshal c now key delta)) t key'
  = cache.Get c t key'.
Proof.
  intros Hne. repeat split.
  - by apply Get_insert_other.
  - unfold cache.Get, cache.Delete. rewrite buildKey_items. cbn [cache.items].
    rewrite lookup_delete_ne; [done|]. intros Heq. by apply buildKey_inj in Heq.
  - unfold cache.SetNX. cbn zeta.
    destruct (match cache.items c !! _ with Some _ => _ | None => _ end);
      cbn [fst]; [reflexivity|].
    by apply Get_insert_other.
  - by apply Get_insert_other.
  - by apply Get_insert_other.
Qed.

Lemma writes_leave_other_keys_alone_witness :
  cache.Get (cache.Set_ sessionCache 1010 "hits" [Byte.x01] 5) 1020 "session"
  = cache.Get sessionCache 1020 "session" /\
  cache.Get (cache.Delete sessionCache "hits") 1020 "session"
  = cache.Get sessionCache 1020 "session" /\
  cache.Get (fst (cache.SetNX sessionCache 1010 1011 "hits" [Byte.x01] 5)) 1020 "session"
  = cache.Get sessionCache 1020 "session" /\
  cache.Get (fst (cache.GetSet sessionCache 1010 "hits" [Byte.x01])) 1020 "session"
  = cache.Get sessionCache 1020 "session" /\
  cache.Get (fst (cache.Increment tallyMarshal tallyUnmarshal sessionCache 1010 "hits" 1))
    1020 "session"
  = cache.Get sessionCache 1020 "session".
Proof.
  apply (writes_leave_other_keys_alone tallyMarshal tallyUnmarshal sessionCache
           "hits" "session" [Byte.x01] 5 1 1010 1011 1020).
  discriminate.
Defined.

(** X14.  [Keys] lists every key the map holds, once, whatever the pattern:
    the stored keys, prefix included, also those of items that have
    expired but were not swept. *)
Theorem Keys_lists_every_stored_key (c : cache.MemoryCache) (pattern : string) :
  (forall k, k ∈ cache.Keys c pattern <-> is_Some (cache.items c !! k)) /\
  NoDup (cache.Keys c pattern) /\
  length (cache.Keys c pattern) = cache.Size c /\
  (forall now key v ttl,
      cache.buildKey c key ∈ cache.Keys (cache.Set_ c now key v ttl) pattern).
Proof.
  unfold cache.Keys, cache.Size.
  assert (Hin : forall (m : gmap string cache.memoryItem) k,
             k ∈ (map_to_list m).*1 <-> is_Some (m !! k)).
  { intros m k. rewrite list_elem_of_fmap. split.
    - intros ([k' item] & -> & Hin). apply elem_of_map_to_list in Hin. by eexists.
    - intros [item Hitem]. exists (k, item). split; [done|].
      by apply elem_of_map_to_list. }
  split; [apply Hin|]. split; [apply NoDup_fst_map_to_list|].
  split; [by rewrite length_fmap, length_map_to_list|].
  intros now key v ttl. apply Hin. unfold cache.Set_. cbn [cache.items].
  rewrite lookup_insert_eq. by eexists.
Qed.

(** *** The key builder *)

Lemma append_assoc (a b d : string) : (a +:+ b) +:+ d = a +:+ b +:+ d.
Proof.
  induction a as [|x a IH]; [done|].
  change ((String x a +:+ b) +:+ d) with (String x ((a +:+ b) +:+ d)).
  by rewrite IH.
Qed.

Lemma append_nonempty (a b : string) : b <> "" -> String.eqb (a +:+ b) "" = false.
Proof.
  intros Hb. apply String.eqb_neq. destruct a; [done|discriminate].
Qed.

Lemma append_cons (x : ascii) (a b : string) : String x a +:+ b = String x (a +:+ b).
Proof. reflexivity. Qed.

Lemma append_nil (b : string) : "" +:+ b = b.
Proof. reflexivity. Qed.

Lemma length_append (s t : string) :
  String.length (s +:+ t) = (String.length s + String.length t)%nat.
Proof.
  induction s as [|a s IH]; [done|]. rewrite append_cons. cbn [String.length].
  by rewrite IH.
Qed.

Lemma append_nonempty_l (a b : string) : a <> "" -> String.eqb (a +:+ b) "" = false.
Proof.
  intros Ha. apply String.eqb_neq. destruct a; [done|discriminate].
Qed.

Lemma colon_separates (u u' k k' : string) :
  has_byte ":" u = false -> has_byte ":" u' = false ->
  u +:+ ":" +:+ k = u' +:+ ":" +:+ k' -> u = u' /\ k = k'.
Proof.
  revert u'. induction u as [|x u IH]; intros [|x' u'] Hu Hu';
    rewrite ?append_cons, ?append_nil.
  - by intros [= ->].
  - intros [= <- _]. cbn in Hu'. discriminate.
  - intros [= -> _]. cbn in Hu. discriminate.
  - cbn [has_byte] in Hu, Hu'. apply orb_false_iff in Hu as [_ Hu].
    apply orb_false_iff in Hu' as [_ Hu'].
    intros [= -> Heq]. destruct (IH u' Hu Hu' Heq) as [-> ->]. done.
Qed.

Lemma Key_scoped b scope id key :
  scope <> "" ->
  cache.Key b [scope; id; key]
  = ((if negb (String.eqb (cache.prefix b) "") then cache.prefix b +:+ ":"
      else cache.prefix b) +:+ scope) +:+ ":" +:+ id +:+ ":" +:+ key.
Proof.
  intros Hs. unfold cache.Key. cbn [foldl].
  rewrite (append_nonempty _ scope Hs). cbn [negb].
  rewrite append_nonempty_l by (apply String.eqb_neq, append_nonempty; discriminate).
  cbn [negb]. by rewrite !append_assoc.
Qed.

(** X15.  The scoped keys of a key builder do not collide.  For identifiers
    that contain no colon, [UserKey] gives different keys to different
    users and to different keys of one user, and [TenantKey] does the
    same for tenants, whatever the prefix of the builder. *)
Theorem scoped_keys_do_not_collide (b : cache.KeyBuilder)
  (id id' key key' : string) :
  has_byte ":" id = false -> has_byte ":" id' = false ->
  (cache.UserKey b id key = cache.UserKey b id' key' -> id = id' /\ key = key') /\
  (cache.TenantKey b id key = cache.TenantKey b id' key' -> id = id' /\ key = key').
Proof.
  intros Hid Hid'. unfold cache.UserKey, cache.TenantKey.
  rewrite !Key_scoped by done.
  split; intros Heq%append_inj_r%(append_inj_r ":"); by apply colon_separates.
Qed.

Lemma scoped_keys_do_not_collide_witness :
  (cache.UserKey (cache.NewKeyBuilder "app") "17" "cart"
   = cache.UserKey (cache.NewKeyBuilder "app") "18" "cart" ->
   "17" = "18" /\ "cart" = "cart") /\
  (cache.TenantKey (cache.NewKeyBuilder "app") "17" "cart"
   = cache.TenantKey (cache.NewKeyBuilder "app") "18" "cart" ->
   "17" = "18" /\ "cart" = "cart").
Proof.
  apply (scoped_keys_do_not_collide (cache.NewKeyBuilder "app") "17" "18" "cart" "cart");
    reflexivity.
Defined.

(** X16.  [GetOrSet] computes once.  When the cache has nothing to return for
    the key, [compute] succeeds and the serializer reads back what it
    writes for the value, [GetOrSet] returns the value and stores it, and
    until the time to live has passed ([ttl], or the default for a zero
    [ttl]; for ever when that is not positive) every [GetOrSet] for the
    key returns the same value without calling its [compute] and leaves
    the cache as it is.  A [compute] that fails leaves the cache as it
    was. *)
Theorem GetOrSet_computes_once {T : Type}
  (Marshal : T -> list Byte.byte + error) (Unmarshal : list Byte.byte -> T + error)
  (c : cache.MemoryCache) (now now' : Time) (key : string) (ttl : Duration)
  (compute : unit -> T * option error) (v : T) (data : list Byte.byte) (err : error) :
  cache.GetObject Unmarshal c now key = inr err ->
  compute () = (v, None) ->
  Marshal v = inl data ->
  Unmarshal data = inl v ->
  let life := if ttl =? 0 then cache.DefaultTTL (cache.options c) else ttl in
  let r := cache.GetOrSet Marshal Unmarshal c now now' key ttl compute in
  cache.returned r = (v, None) /\
  cache.computed r = true /\
  (forall t t' compute',
      life <= 0 \/ t <= now' + life ->
      cache.GetOrSet Marshal Unmarshal (cache.cacheAfter r) t t' key ttl compute'
      = {| cache.cacheAfter := cache.cacheAfter r;
           cache.returned := (v, None);
           cache.computed := false |}) /\
  (forall failing,
      snd (failing ()) <> None ->
      cache.cacheAfter (cache.GetOrSet Marshal Unmarshal c now now' key ttl failing) = c).
Proof.
  intros Hmiss Hcompute Hmarshal Hunmarshal. cbn zeta.
  assert (Hr : cache.GetOrSet Marshal Unmarshal c now now' key ttl compute
               = {| cache.cacheAfter := cache.Set_ c now' key data ttl;
                    cache.returned := (v, None);
                    cache.computed := true |}).
  { unfold cache.GetOrSet, cache.SetObject. by rewrite Hmiss, Hcompute, Hmarshal. }
  rewrite Hr. cbn [cache.returned cache.computed cache.cacheAfter].
  split; [done|]. split; [done|]. split.
  - intros t t' compute' Hlive.
    unfold cache.GetOrSet, cache.GetObject. rewrite cache_Get_Set_. cbn zeta.
    unfold cache.expired, gotime.IsZero, gotime.After, gotime.Add. cbn [cache.expiresAt].
    set (life := if ttl =? 0 then _ else _) in *.
    destruct (0 <? life) eqn:Hpos.
    + destruct (now' + life =? 0); cbn [negb andb]; [by rewrite Hunmarshal|].
      replace (now' + life <? t) with false by lia. by rewrite Hunmarshal.
    + cbn [Z.eqb negb andb]. by rewrite Hunmarshal.
  - intros failing Hfail. unfold cache.GetOrSet. rewrite Hmiss.
    destruct (failing ()) as [result [e|]]; [done|]. by cbn in Hfail.
Qed.

Lemma GetOrSet_computes_once_witness :
  cache.returned computedOnce = (42, None) /\
  cache.computed computedOnce = true /\
  (forall t t' compute',
      60 <= 0 \/ t <= 1001 + 60 ->
      cache.GetOrSet tallyEncode tallyDecode (cache.cacheAfter computedOnce) t t'
        "answer" 60 compute'
      = {| cache.cacheAfter := cache.cacheAfter computedOnce;
           cache.returned := (42, None);
           cache.computed := false |}) /\
  (forall failing,
      snd (failing ()) <> None ->
      cache.cacheAfter
        (cache.GetOrSet tallyEncode tallyDecode (cache.NewMemoryCache []) 1000 1001
           "answer" 60 failing)
      = cache.NewMemoryCache []).
Proof.
  apply (GetOrSet_computes_once tallyEncode tallyDecode (cache.NewMemoryCache [])
           1000 1001 "answer" 60 (λ _, (42, None)) 42 (tallyMarshal 42)
           cache.ErrKeyNotFound); reflexivity.
Defined.

(** ** Further properties of the token validation paths *)

Lemma skipped_prefix (paths : list string) (p rest : string) :
  p ∈ paths -> existsb (λ q, strings.HasPrefix (p +:+ rest) q) paths = true.
Proof.
  intros Hin. apply existsb_exists. exists p.
  split; [by apply list_elem_of_In | apply prefix_append].
Qed.

Lemma skipped_method (methods : list string) (m : string) :
  m ∈ methods -> existsb (λ method, String.eqb m method) methods = true.
Proof.
  intros Hin. apply existsb_exists. exists m.
  split; [by apply list_elem_of_In | apply String.eqb_refl].
Qed.

(** X17.  What the authentication lets through unseen.  When it is disabled, or
    the path of the request begins with one of [SkipPaths] (so also a
    longer path), the HTTP middleware calls the next handler whatever the
    [Authorization] header; when it is disabled, or the method is one of
    [SkipMethods], the gRPC interceptors call the handler with the
    context they were given.  No token is read, the validator is not
    called and the cache is left as it is. *)
Theorem authentication_bypass
  (cfg : middleware.RemoteServiceAuthConfig) (cache : gmap string cachedValidation)
  (clock : nat -> Time) (path authHeader : string)
  (cfg' : grpc.AuthInterceptorConfig) (cache' : gmap string cachedValidation)
  (clock' : nat -> Time) (ctx : grpc.Context) (FullMethod : string) :
  middleware.Enabled cfg = false \/
    (exists p rest, p ∈ middleware.SkipPaths cfg /\ path = p +:+ rest) ->
  grpc.Enabled cfg' = false \/ FullMethod ∈ grpc.SkipMethods cfg' ->
  middleware.RemoteServiceAuthMiddleware cfg cache clock path authHeader
  = {| middleware.out := middleware.Next [];
       middleware.tokenCache := cache;
       middleware.validated := [] |} /\
  grpc.UnaryAuthInterceptor cfg' cache' clock' ctx FullMethod
  = {| grpc.did := grpc.CallsHandler ctx;
       grpc.cacheAfter := cache';
       grpc.validatorCalls := [] |} /\
  grpc.StreamAuthInterceptor cfg' cache' clock' ctx FullMethod
  = {| grpc.did := grpc.CallsHandler ctx;
       grpc.cacheAfter := cache';
       grpc.validatorCalls := [] |}.
Proof.
  intros Hhttp Hgrpc. split; [|split].
  - unfold middleware.RemoteServiceAuthMiddleware.
    destruct (middleware.Enabled cfg); cbn [negb]; [|done].
    destruct Hhttp as [|(p & rest & Hin & ->)]; [done|].
    by rewrite skipped_prefix.
  - unfold grpc.UnaryAuthInterceptor.
    destruct (grpc.Enabled cfg'); cbn [negb]; [|done].
    destruct Hgrpc as [|Hin]; [done|]. by rewrite skipped_method.
  - unfold grpc.StreamAuthInterceptor.
    destruct (grpc.Enabled cfg'); cbn [negb]; [|done].
    destruct Hgrpc as [|Hin]; [done|]. by rewrite skipped_method.
Qed.

Lemma authentication_bypass_witness :
  middleware.RemoteServiceAuthMiddleware examples.authConfig ∅ examples.clock
    ("/health" +:+ "z/private") "Bearer forged"
  = {| middleware.out := middleware.Next [];
       middleware.tokenCache := ∅;
       middleware.validated := [] |} /\
  grpc.UnaryAuthInterceptor scopedGrpcConfig ∅ examples.clock
    (examples.incomingWith []) "/grpc.health.v1.Health/Check"
  = {| grpc.did := grpc.CallsHandler (examples.incomingWith []);
       grpc.cacheAfter := ∅;
       grpc.validatorCalls := [] |} /\
  grpc.StreamAuthInterceptor scopedGrpcConfig ∅ examples.clock
    (examples.incomingWith []) "/grpc.health.v1.Health/Check"
  = {| grpc.did := grpc.CallsHandler (examples.incomingWith []);
       grpc.cacheAfter := ∅;
       grpc.validatorCalls := [] |}.
Proof.
  apply (authentication_bypass examples.authConfig ∅ examples.clock
           ("/health" +:+ "z/private") "Bearer forged"
           scopedGrpcConfig ∅ examples.clock (examples.incomingWith [])
           "/grpc.health.v1.Health/Check").
  - right. exists "/health", "z/private". split; [|reflexivity].
    apply list_elem_of_here.
  - right. apply list_elem_of_here.
Defined.

(** X18.  A validated token is served from the cache.  After a request whose
    token the cache did not hold and the validator accepted, every
    request with that token that reaches the token check of the HTTP
    middleware before the cache entry expires, whatever its
    configuration, is answered from the cache: the validator is not
    called (so a token revoked or expired in the meantime still passes),
    the cache is left as it is, and the request goes on with the cached
    service information unless the required scope of that configuration
    is missing. *)
Theorem validated_token_is_served_from_cache
  (cfg cfg2 : middleware.RemoteServiceAuthConfig)
  (cache : gmap string cachedValidation) (clock clock2 : nat -> Time)
  (path path2 token : string) (v : TokenValidationResult) :
  middleware.Enabled cfg = true ->
  existsb (λ p, strings.HasPrefix path p) (middleware.SkipPaths cfg) = false ->
  middleware.Enabled cfg2 = true ->
  existsb (λ p, strings.HasPrefix path2 p) (middleware.SkipPaths cfg2) = false ->
  middleware.get cache (clock 0%nat) token = None ->
  middleware.TokenValidator_ cfg token = (Some v, None) ->
  Valid v = true ->
  clock 2%nat <= clock 1%nat
                 + (if middleware.CacheTTL cfg =? 0 then 5 * gotime.Minute
                    else middleware.CacheTTL cfg) ->
  clock2 0%nat <= clock 1%nat
                  + (if middleware.CacheTTL cfg =? 0 then 5 * gotime.Minute
                     else middleware.CacheTTL cfg) ->
  let h1 := middleware.RemoteServiceAuthMiddleware cfg cache clock path
              ("Bearer " +:+ token) in
  let h2 := middleware.RemoteServiceAuthMiddleware cfg2 (middleware.tokenCache h1)
              clock2 path2 ("Bearer " +:+ token) in
  middleware.validated h1 = [token] /\
  middleware.validated h2 = [] /\
  middleware.tokenCache h2 = middleware.tokenCache h1 /\
  middleware.out h2
  = if negb (String.eqb (middleware.RequiredScope cfg2) "")
       && negb (middleware.hasScopeInList (Scopes v) (middleware.RequiredScope cfg2))
    then middleware.Reply middleware.StatusForbidden
           [("error", "Insufficient permissions")]
    else middleware.Next (middleware.serviceLocals v).
Proof.
  intros Hon Hskip Hon2 Hskip2 Hmiss Hv Hvalid Hsweep Hlive. cbn zeta.
  set (ttl := if middleware.CacheTTL cfg =? 0 then _ else _) in *.
  assert (H1 : middleware.RemoteServiceAuthMiddleware cfg cache clock path
                 ("Bearer " +:+ token)
               = {| middleware.out :=
                      if negb (String.eqb (middleware.RequiredScope cfg) "")
                         && negb (middleware.hasScopeInList (Scopes v)
                                    (middleware.RequiredScope cfg))
                      then middleware.Reply middleware.StatusForbidden
                             [("error", "Insufficient permissions");
                              ("required", middleware.RequiredScope cfg)]
                      else middleware.Next (middleware.serviceLocals v);
                    middleware.tokenCache :=
                      middleware.set cache (clock 1%nat) (clock 2%nat) token v ttl;
                    middleware.validated := [token] |}).
  { unfold middleware.RemoteServiceAuthMiddleware. rewrite Hon, Hskip.
    destruct (Bearer_header token) as (-> & -> & ->). cbn [negb orb].
    rewrite Hmiss, Hv, Hvalid. cbn [negb]. fold ttl. by destruct (negb _ && negb _). }
  rewrite H1. cbn [middleware.validated middleware.tokenCache].
  split; [done|].
  unfold middleware.RemoteServiceAuthMiddleware. rewrite Hon2, Hskip2.
  destruct (Bearer_header token) as (-> & -> & ->). cbn [negb orb].
  rewrite tokencache_get_set. unfold gotime.After, gotime.Add.
  replace (clock 1%nat + ttl <? clock2 0%nat) with false by lia.
  replace (clock 1%nat + ttl <? clock 2%nat) with false by lia.
  rewrite andb_false_r.
  destruct (negb (String.eqb (middleware.RequiredScope cfg2) "") && negb _);
    cbn [middleware.validated middleware.tokenCache middleware.out]; done.
Qed.

Lemma validated_token_is_served_from_cache_witness :
  middleware.validated
    (middleware.RemoteServiceAuthMiddleware examples.authConfig ∅ examples.clock
       "/orders" ("Bearer " +:+ "tok")) = ["tok"] /\
  middleware.validated
    (middleware.RemoteServiceAuthMiddleware rejectingConfig
       (middleware.tokenCache
          (middleware.RemoteServiceAuthMiddleware examples.authConfig ∅ examples.clock
             "/orders" ("Bearer " +:+ "tok")))
       (λ n, 2000 + Z.of_nat n) "/ledger" ("Bearer " +:+ "tok")) = [] /\
  middleware.tokenCache
    (middleware.RemoteServiceAuthMiddleware rejectingConfig
       (middleware.tokenCache
          (middleware.RemoteServiceAuthMiddleware examples.authConfig ∅ examples.clock
             "/orders" ("Bearer " +:+ "tok")))
       (λ n, 2000 + Z.of_nat n) "/ledger" ("Bearer " +:+ "tok"))
  = middleware.tokenCache
      (middleware.RemoteServiceAuthMiddleware examples.authConfig ∅ examples.clock
         "/orders" ("Bearer " +:+ "tok")) /\
  middleware.out
    (middleware.RemoteServiceAuthMiddleware rejectingConfig
       (middleware.tokenCache
          (middleware.RemoteServiceAuthMiddleware examples.authConfig ∅ examples.clock
             "/orders" ("Bearer " +:+ "tok")))
       (λ n, 2000 + Z.of_nat n) "/ledger" ("Bearer " +:+ "tok"))
  = if negb (String.eqb (middleware.RequiredScope rejectingConfig) "")
       && negb (middleware.hasScopeInList (Scopes examples.validToken)
                  (middleware.RequiredScope rejectingConfig))
    then middleware.Reply middleware.StatusForbidden
           [("error", "Insufficient permissions")]
    else middleware.Next (middleware.serviceLocals examples.validToken).
Proof.
  apply (validated_token_is_served_from_cache examples.authConfig rejectingConfig ∅
           examples.clock (λ n, 2000 + Z.of_nat n) "/orders" "/ledger" "tok"
           examples.validToken); try reflexivity.
  - vm_compute. discriminate.
  - vm_compute. discriminate.
Defined.

(** X19.  The same for gRPC: after [validateGRPCToken] has had a token
    validated, every call of it with that token before the cache entry
    expires returns the context with the cached service information,
    without a call of the validator and with the cache as it is. *)
Theorem validated_grpc_token_is_served_from_cache
  (cfg cfg2 : grpc.AuthInterceptorConfig)
  (cache : gmap string cachedValidation) (clock clock2 : nat -> Time)
  (ctx ctx2 : grpc.Context) (token : string) (v : TokenValidationResult) :
  grpcAuthorization ctx = Some ("Bearer " +:+ token) ->
  grpcAuthorization ctx2 = Some ("Bearer " +:+ token) ->
  grpc.get cache (clock 0%nat) token = None ->
  grpc.TokenValidator_ cfg token = (Some v, None) ->
  Valid v = true ->
  clock 2%nat <= clock 1%nat
                 + (if grpc.CacheTTL cfg =? 0 then 5 * gotime.Minute
                    else grpc.CacheTTL cfg) ->
  clock2 0%nat <= clock 1%nat
                  + (if grpc.CacheTTL cfg =? 0 then 5 * gotime.Minute
                     else grpc.CacheTTL cfg) ->
  let h1 := grpc.validateGRPCToken ctx cfg cache clock in
  let h2 := grpc.validateGRPCToken ctx2 cfg2 (grpc.tokenCache h1) clock2 in
  h1 = {| grpc.out := grpc.Authenticated (grpc.addServiceInfoToContext ctx v);
          grpc.tokenCache := grpc.tokenCache h1;
          grpc.validated := [token] |} /\
  h2 = {| grpc.out := grpc.Authenticated (grpc.addServiceInfoToContext ctx2 v);
          grpc.tokenCache := grpc.tokenCache h1;
          grpc.validated := [] |}.
Proof.
  intros Hauth Hauth2 Hmiss Hv Hvalid Hsweep Hlive. cbn zeta.
  set (ttl := if grpc.CacheTTL cfg =? 0 then _ else _) in *.
  assert (Hhead : forall c, grpcAuthorization c = Some ("Bearer " +:+ token) ->
            exists md rest, grpc.incoming c = Some md /\
              grpc.md_Get md "authorization" = ("Bearer " +:+ token) :: rest).
  { intros c. unfold grpcAuthorization.
    destruct (grpc.incoming c) as [md|]; [|discriminate].
    destruct (grpc.md_Get md "authorization") as [|h rest] eqn:Hget; [discriminate|].
    intros [= ->]. by exists md, rest. }
  assert (Htrim : strings.TrimPrefix ("Bearer " +:+ token) "Bearer " = token).
  { unfold strings.TrimPrefix. by destruct (Bearer_header token) as (-> & _ & _). }
  assert (Hne : String.eqb token ("Bearer " +:+ token) = false).
  { rewrite <- Htrim at 1. rewrite TrimPrefix_Bearer.
    by destruct (Bearer_header token) as (-> & _ & _). }
  destruct (Hhead ctx Hauth) as (md & rest & Hmd & Hget).
  destruct (Hhead ctx2 Hauth2) as (md2 & rest2 & Hmd2 & Hget2).
  assert (H1 : grpc.validateGRPCToken ctx cfg cache clock
               = {| grpc.out := grpc.Authenticated (grpc.addServiceInfoToContext ctx v);
                    grpc.tokenCache :=
                      grpc.set cache (clock 1%nat) (clock 2%nat) token v ttl;
                    grpc.validated := [token] |}).
  { unfold grpc.validateGRPCToken. rewrite Hmd, Hget, Htrim, Hne, Hmiss, Hv, Hvalid.
    reflexivity. }
  rewrite H1. cbn [grpc.tokenCache]. split; [done|].
  unfold grpc.validateGRPCToken. rewrite Hmd2, Hget2, Htrim, Hne.
  assert (Hhit : grpc.get (grpc.set cache (clock 1%nat) (clock 2%nat) token v ttl)
                   (clock2 0%nat) token = Some v).
  { pose proof (tokencache_get_set cache (clock 1%nat) (clock 2%nat) token v ttl
                  (clock2 0%nat)) as Hgs.
    unfold gotime.After, gotime.Add in Hgs.
    replace (clock 1%nat + ttl <? clock2 0%nat) with false in Hgs by lia.
    replace (clock 1%nat + ttl <? clock 2%nat) with false in Hgs by lia.
    rewrite andb_false_r in Hgs. exact Hgs. }
  by rewrite Hhit.
Qed.

Lemma validated_grpc_token_is_served_from_cache_witness :
  grpc.validateGRPCToken (examples.incomingWith ["Bearer tok"]) examples.grpcAuthConfig
    ∅ examples.clock
  = {| grpc.out :=
         grpc.Authenticated
           (grpc.addServiceInfoToContext (examples.incomingWith ["Bearer tok"])
              examples.validToken);
       grpc.tokenCache :=
         grpc.tokenCache
           (grpc.validateGRPCToken (examples.incomingWith ["Bearer tok"])
              examples.grpcAuthConfig ∅ examples.clock);
       grpc.validated := ["tok"] |} /\
  grpc.validateGRPCToken (examples.incomingWith ["Bearer tok"; "Bearer other"])
    scopedGrpcConfig
    (grpc.tokenCache
       (grpc.validateGRPCToken (examples.incomingWith ["Bearer tok"])
          examples.grpcAuthConfig ∅ examples.clock))
    (λ n, 2000 + Z.of_nat n)
  = {| grpc.out :=
         grpc.Authenticated
           (grpc.addServiceInfoToContext
              (examples.incomingWith ["Bearer tok"; "Bearer other"])
              examples.validToken);
       grpc.tokenCache :=
         grpc.tokenCache
           (grpc.validateGRPCToken (examples.incomingWith ["Bearer tok"])
              examples.grpcAuthConfig ∅ examples.clock);
       grpc.validated := [] |}.
Proof.
  apply (validated_grpc_token_is_served_from_cache examples.grpcAuthConfig
           scopedGrpcConfig ∅ examples.clock (λ n, 2000 + Z.of_nat n)
           (examples.incomingWith ["Bearer tok"])
           (examples.incomingWith ["Bearer tok"; "Bearer other"])
           "tok" examples.validToken); try reflexivity.
  - vm_compute. discriminate.
  - vm_compute. discriminate.
Defined.

(** X20.  Dropping a token from the cache makes the next request validate it
    again.  After [InvalidateToken] for the token, or [ClearTokenCache],
    a request with the token that reaches the token check of the HTTP
    middleware calls the validator with it, and so does
    [validateGRPCToken] after [ClearGRPCTokenCache]; [InvalidateToken]
    leaves the entries of the other tokens as they are. *)
Theorem dropped_token_is_validated_again
  (cfg : middleware.RemoteServiceAuthConfig) (cache : gmap string cachedValidation)
  (clock : nat -> Time) (path token : string)
  (cfg' : grpc.AuthInterceptorConfig) (cache' : gmap string cachedValidation)
  (clock' : nat -> Time) (ctx : grpc.Context) :
  middleware.Enabled cfg = true ->
  existsb (λ p, strings.HasPrefix path p) (middleware.SkipPaths cfg) = false ->
  grpcAuthorization ctx = Some ("Bearer " +:+ token) ->
  middleware.validated
    (middleware.RemoteServiceAuthMiddleware cfg (middleware.InvalidateToken cache token)
       clock path ("Bearer " +:+ token)) = [token] /\
  middleware.validated
    (middleware.RemoteServiceAuthMiddleware cfg (middleware.ClearTokenCache cache)
       clock path ("Bearer " +:+ token)) = [token] /\
  grpc.validated
    (grpc.validateGRPCToken ctx cfg' (grpc.ClearGRPCTokenCache cache') clock') = [token] /\
  (forall token' t,
      token' <> token ->
      middleware.get (middleware.InvalidateToken cache token) t token'
      = middleware.get cache t token').
Proof.
  intros Hon Hskip Hauth.
  assert (Hhttp : forall c,
            c !! token = None ->
            middleware.validated
              (middleware.RemoteServiceAuthMiddleware cfg c clock path
                 ("Bearer " +:+ token)) = [token]).
  { intros c Hc. unfold middleware.RemoteServiceAuthMiddleware. rewrite Hon, Hskip.
    destruct (Bearer_header token) as (-> & -> & ->). cbn [negb orb].
    unfold middleware.get. rewrite Hc.
    destruct (middleware.TokenValidator_ cfg token) as [[v|] [err|]]; try done.
    destruct (Valid v); cbn [negb]; [|done]. by destruct (negb _ && negb _). }
  split; [apply Hhttp, lookup_delete_eq|]. split; [apply Hhttp, lookup_empty|]. split.
  - unfold grpc.validateGRPCToken. unfold grpcAuthorization in Hauth.
    destruct (grpc.incoming ctx) as [md|]; [|discriminate].
    destruct (grpc.md_Get md "authorization") as [|h rest]; [discriminate|].
    injection Hauth as ->. rewrite TrimPrefix_Bearer. unfold strings.TrimPrefix.
    destruct (Bearer_header token) as (-> & Hslice & _). cbn [negb].
    change (String.length "Bearer ") with 7%nat. rewrite Hslice.
    unfold grpc.get, grpc.ClearGRPCTokenCache. rewrite lookup_empty.
    destruct (grpc.TokenValidator_ cfg' token) as [[v|] [err|]]; try done.
    by destruct (Valid v).
  - intros token' t Hne. unfold middleware.get, middleware.InvalidateToken.
    by rewrite lookup_delete_ne.
Qed.

Lemma dropped_token_is_validated_again_witness :
  middleware.validated
    (middleware.RemoteServiceAuthMiddleware examples.authConfig
       (middleware.InvalidateToken
          (middleware.set ∅ 1000 1001 "tok" examples.validToken 300) "tok")
       examples.clock "/orders" ("Bearer " +:+ "tok")) = ["tok"] /\
  middleware.validated
    (middleware.RemoteServiceAuthMiddleware examples.authConfig
       (middleware.ClearTokenCache
          (middleware.set ∅ 1000 1001 "tok" examples.validToken 300))
       examples.clock "/orders" ("Bearer " +:+ "tok")) = ["tok"] /\
  grpc.validated
    (grpc.validateGRPCToken (examples.incomingWith ["Bearer tok"]) examples.grpcAuthConfig
       (grpc.ClearGRPCTokenCache (grpc.set ∅ 1000 1001 "tok" examples.validToken 300))
       examples.clock) = ["tok"] /\
  (forall token' t,
      token' <> "tok" ->
      middleware.get
        (middleware.InvalidateToken
           (middleware.set ∅ 1000 1001 "tok" examples.validToken 300) "tok") t token'
      = middleware.get (middleware.set ∅ 1000 1001 "tok" examples.validToken 300)
          t token').
Proof.
  apply (dropped_token_is_validated_again examples.authConfig
           (middleware.set ∅ 1000 1001 "tok" examples.validToken 300)
           examples.clock "/orders" "tok" examples.grpcAuthConfig
           (grpc.set ∅ 1000 1001 "tok" examples.validToken 300)
           examples.clock (examples.incomingWith ["Bearer tok"])); reflexivity.
Defined.

(** X21.  [RequireScope] after the authentication checks what the required
    scope of the configuration checks.  For a request that reaches the
    token check, the middleware configured with a required scope lets it
    through exactly when the middleware configured without one lets it
    through and [RequireScope] for that scope then lets it through, with
    the same locals; it answers 403 when [RequireScope] would; and both
    configurations treat the cache and the validator alike.  On a request
    that carries no scopes, such as one the authentication skipped,
    [RequireScope] answers 403. *)
Theorem RequireScope_after_authentication
  (cfg : middleware.RemoteServiceAuthConfig) (cache : gmap string cachedValidation)
  (clock : nat -> Time) (path authHeader scope : string) :
  middleware.Enabled cfg = true ->
  existsb (λ p, strings.HasPrefix path p) (middleware.SkipPaths cfg) = false ->
  middleware.RequiredScope cfg = "" ->
  scope <> "" ->
  let scoped :=
    {| middleware.TokenValidator_ := middleware.TokenValidator_ cfg;
       middleware.CacheTTL := middleware.CacheTTL cfg;
       middleware.SkipPaths := middleware.SkipPaths cfg;
       middleware.RequiredScope := scope;
       middleware.Enabled := middleware.Enabled cfg |} in
  let h := middleware.RemoteServiceAuthMiddleware cfg cache clock path authHeader in
  let hs := middleware.RemoteServiceAuthMiddleware scoped cache clock path authHeader in
  middleware.tokenCache hs = middleware.tokenCache h /\
  middleware.validated hs = middleware.validated h /\
  match middleware.out h with
  | middleware.Next locals =>
      (middleware.RequireScope scope locals = middleware.Next [] /\
       middleware.out hs = middleware.Next locals) \/
      (exists body body',
          middleware.RequireScope scope locals
          = middleware.Reply middleware.StatusForbidden body /\
          middleware.out hs = middleware.Reply middleware.StatusForbidden body')
  | o => middleware.out hs = o
  end /\
  middleware.RequireScope scope []
  = middleware.Reply middleware.StatusForbidden [("error", "No scopes available")].
Proof.
  intros Hon Hskip Hnone Hscope. cbn zeta.
  assert (Hne : String.eqb scope "" = false) by (by apply String.eqb_neq).
  unfold middleware.RemoteServiceAuthMiddleware.
  cbn [middleware.Enabled middleware.SkipPaths middleware.RequiredScope
       middleware.TokenValidator_ middleware.CacheTTL].
  rewrite Hon, Hskip, Hnone, Hne. cbn [negb andb String.eqb].
  assert (Hcheck : forall v,
            (middleware.RequireScope scope (middleware.serviceLocals v) = middleware.Next []
             /\ middleware.hasScopeInList (Scopes v) scope = true) \/
            ((exists body, middleware.RequireScope scope (middleware.serviceLocals v)
                           = middleware.Reply middleware.StatusForbidden body)
             /\ middleware.hasScopeInList (Scopes v) scope = false)).
  { intros v. unfold middleware.RequireScope.
    change (middleware.Locals (middleware.serviceLocals v) "serviceScopes")
      with (Some (middleware.LStrings (Scopes v))).
    cbv beta iota.
    destruct (middleware.hasScopeInList (Scopes v) scope); cbn [negb];
      [left; split; reflexivity
      | right; split; [eexists; reflexivity | reflexivity]]. }
  split; [|split; [|split]]; [| | |reflexivity].
  - destruct (_ || _); [done|].
    destruct (middleware.get _ _ _) as [cached|]; [by destruct (negb _)|].
    destruct (middleware.TokenValidator_ cfg _) as [[v|] [err|]]; try done.
    destruct (Valid v); cbn [negb]; [|done]. by destruct (negb _).
  - destruct (_ || _); [done|].
    destruct (middleware.get _ _ _) as [cached|]; [by destruct (negb _)|].
    destruct (middleware.TokenValidator_ cfg _) as [[v|] [err|]]; try done.
    destruct (Valid v); cbn [negb]; [|done]. by destruct (negb _).
  - destruct (_ || _); [done|].
    destruct (middleware.get _ _ _) as [cached|]; cbn [middleware.out].
    + destruct (Hcheck cached) as [[Hreq ->] | [[body Hreq] ->]]; cbn [negb middleware.out].
      * by left.
      * right. by eexists _, _.
    + destruct (middleware.TokenValidator_ cfg _) as [[v|] [err|]]; try done.
      destruct (Valid v); cbn [negb]; [|done]. cbn [middleware.out].
      destruct (Hcheck v) as [[Hreq ->] | [[body Hreq] ->]]; cbn [negb middleware.out].
      * by left.
      * right. by eexists _, _.
Qed.

Lemma RequireScope_after_authentication_witness :
  middleware.tokenCache
    (middleware.RemoteServiceAuthMiddleware unscopedConfigWith ∅ examples.clock
       "/orders" "Bearer tok")
  = middleware.tokenCache
      (middleware.RemoteServiceAuthMiddleware unscopedConfig ∅ examples.clock
         "/orders" "Bearer tok") /\
  middleware.validated
    (middleware.RemoteServiceAuthMiddleware unscopedConfigWith ∅ examples.clock
       "/orders" "Bearer tok")
  = middleware.validated
      (middleware.RemoteServiceAuthMiddleware unscopedConfig ∅ examples.clock
         "/orders" "Bearer tok") /\
  match middleware.out
          (middleware.RemoteServiceAuthMiddleware unscopedConfig ∅ examples.clock
             "/orders" "Bearer tok") with
  | middleware.Next locals =>
      (middleware.RequireScope "billing:write" locals = middleware.Next [] /\
       middleware.out
         (middleware.RemoteServiceAuthMiddleware unscopedConfigWith ∅ examples.clock
            "/orders" "Bearer tok") = middleware.Next locals) \/
      (exists body body',
          middleware.RequireScope "billing:write" locals
          = middleware.Reply middleware.StatusForbidden body /\
          middleware.out
            (middleware.RemoteServiceAuthMiddleware unscopedConfigWith ∅ examples.clock
               "/orders" "Bearer tok")
          = middleware.Reply middleware.StatusForbidden body')
  | o =>
      middleware.out
        (middleware.RemoteServiceAuthMiddleware unscopedConfigWith ∅ examples.clock
           "/orders" "Bearer tok") = o
  end /\
  middleware.RequireScope "billing:write" []
  = middleware.Reply middleware.StatusForbidden [("error", "No scopes available")].
Proof.
  apply (RequireScope_after_authentication unscopedConfig ∅ examples.clock
           "/orders" "Bearer tok" "billing:write"); try reflexivity.
  discriminate.
Defined.

Lemma Value_addServiceInfo ctx v :
  grpc.Value (grpc.addServiceInfoToContext ctx v) grpc.ServiceClientIDKey
  = Some (grpc.VString (ClientID v)) /\
  grpc.Value (grpc.addServiceInfoToContext ctx v) grpc.ServiceNameKey
  = Some (grpc.VString (ServiceName v)) /\
  grpc.Value (grpc.addServiceInfoToContext ctx v) grpc.ServiceScopesKey
  = Some (grpc.VStrings (Scopes v)) /\
  grpc.Value (grpc.addServiceInfoToContext ctx v) grpc.TenantIDKey
  = Some (grpc.VString (TenantID v)) /\
  grpc.Value (grpc.addServiceInfoToContext ctx v) grpc.UserIDKey
  = if String.eqb (UserID v) "" then grpc.Value ctx grpc.UserIDKey
    else Some (grpc.VString (UserID v)).
Proof.
  unfold grpc.addServiceInfoToContext, grpc.Value.
  destruct (String.eqb (UserID v) ""); cbn [negb]; repeat split; reflexivity.
Qed.

(** X22.  The service information put into the context is what the getters
    return.  On the context [addServiceInfoToContext] makes from a
    validation result, the getters return the client, the service name,
    the scopes and the tenant of the result, whatever the context held
    before; [GetUserID] returns the user of the result when there is one,
    and otherwise what the incoming context gave for that key. *)
Theorem service_info_round_trip (ctx : grpc.Context) (v : TokenValidationResult) :
  let newCtx := grpc.addServiceInfoToContext ctx v in
  grpc.GetServiceClientID newCtx = ClientID v /\
  grpc.GetServiceName newCtx = ServiceName v /\
  grpc.GetServiceScopes newCtx = Scopes v /\
  grpc.GetTenantID newCtx = TenantID v /\
  grpc.GetUserID newCtx
  = (if String.eqb (UserID v) "" then grpc.GetUserID ctx else UserID v) /\
  grpc.incoming newCtx = grpc.incoming ctx.
Proof.
  cbn zeta.
  unfold grpc.GetServiceClientID, grpc.GetServiceName, grpc.GetServiceScopes,
    grpc.GetTenantID, grpc.GetUserID.
  destruct (Value_addServiceInfo ctx v) as (-> & -> & -> & -> & ->).
  repeat split; try reflexivity.
  - by destruct (String.eqb (UserID v) "").
  - unfold grpc.addServiceInfoToContext. by destruct (negb _).
Qed.

Lemma validateGRPCToken_context ctx cfg cache clock newCtx :
  grpc.out (grpc.validateGRPCToken ctx cfg cache clock) = grpc.Authenticated newCtx ->
  exists v, newCtx = grpc.addServiceInfoToContext ctx v.
Proof.
  unfold grpc.validateGRPCToken.
  destruct (grpc.incoming ctx) as [md|]; [|discriminate].
  destruct (grpc.md_Get md "authorization") as [|h rest]; [discriminate|].
  destruct (String.eqb _ h); [discriminate|].
  destruct (grpc.get cache _ _) as [cached|]; [intros [= <-]; by eexists|].
  destruct (grpc.TokenValidator_ cfg _) as [[v|] [err|]]; try discriminate.
  destruct (Valid v); cbn [negb]; [|discriminate]. intros [= <-]. by eexists.
Qed.

(** X23.  The scope map is enforced.  For a method the scope map gives a
    required scope, a call that is authenticated reaches the handler
    exactly when the scopes of its token satisfy [HasScope] for that
    scope, and is refused with [PermissionDenied] otherwise; the handler
    is never called with scopes that do not satisfy it.  The unary and
    the stream interceptor decide alike, and neither changes what
    [validateGRPCToken] did to the cache and asked of the validator. *)
Theorem scope_map_is_enforced (cfg : grpc.AuthInterceptorConfig)
  (cache : gmap string cachedValidation) (clock : nat -> Time)
  (ctx : grpc.Context) (FullMethod required : string)
  (scopeMap : gmap string string) :
  grpc.Enabled cfg = true ->
  existsb (λ method, String.eqb FullMethod method) (grpc.SkipMethods cfg) = false ->
  grpc.ScopeMap cfg = Some scopeMap ->
  scopeMap !! FullMethod = Some required ->
  required <> "" ->
  let v := grpc.validateGRPCToken ctx cfg cache clock in
  let r := grpc.UnaryAuthInterceptor cfg cache clock ctx FullMethod in
  grpc.StreamAuthInterceptor cfg cache clock ctx FullMethod = r /\
  grpc.cacheAfter r = grpc.tokenCache v /\
  grpc.validatorCalls r = grpc.validated v /\
  grpc.did r
  = match grpc.out v with
    | grpc.Authenticated newCtx =>
        if grpc.HasScope (grpc.GetServiceScopes newCtx) required
        then grpc.CallsHandler newCtx
        else grpc.Refuses (statusError codes.PermissionDenied "insufficient permissions")
    | grpc.Rejected err => grpc.Refuses err
    | grpc.Panic => grpc.Panics
    end /\
  (forall newCtx,
      grpc.did r = grpc.CallsHandler newCtx ->
      grpc.HasScope (grpc.GetServiceScopes newCtx) required = true).
Proof.
  intros Hon Hskip Hmap Hreq Hne. cbn zeta.
  assert (Hne' : String.eqb required "" = false) by (by apply String.eqb_neq).
  assert (Hdid : grpc.did (grpc.UnaryAuthInterceptor cfg cache clock ctx FullMethod)
                 = match grpc.out (grpc.validateGRPCToken ctx cfg cache clock) with
                   | grpc.Authenticated newCtx =>
                       if grpc.HasScope (grpc.GetServiceScopes newCtx) required
                       then grpc.CallsHandler newCtx
                       else grpc.Refuses
                              (statusError codes.PermissionDenied "insufficient permissions")
                   | grpc.Rejected err => grpc.Refuses err
                   | grpc.Panic => grpc.Panics
                   end).
  { unfold grpc.UnaryAuthInterceptor. rewrite Hon, Hskip, Hmap, Hreq.
    change (default "" (Some required)) with required. cbv zeta.
    rewrite Hne'. cbn [negb].
    destruct (grpc.out _) as [newCtx | err |] eqn:Hout; [|done|done].
    destruct (validateGRPCToken_context _ _ _ _ _ Hout) as [v0 ->].
    unfold grpc.GetServiceScopes.
    destruct (Value_addServiceInfo ctx v0) as (_ & _ & -> & _). cbn [grpc.asStrings].
    by destruct (grpc.HasScope (Scopes v0) required). }
  split; [reflexivity|]. split; [|split; [|split]].
  - unfold grpc.UnaryAuthInterceptor. rewrite Hon, Hskip, Hmap, Hreq.
    change (default "" (Some required)) with required. cbv zeta.
    rewrite Hne'. cbn [negb].
    destruct (grpc.out _) as [newCtx | err |]; [|done|done].
    destruct (grpc.Value _ _) as [[s|scopes]|]; try done. by destruct (negb _).
  - unfold grpc.UnaryAuthInterceptor. rewrite Hon, Hskip, Hmap, Hreq.
    change (default "" (Some required)) with required. cbv zeta.
    rewrite Hne'. cbn [negb].
    destruct (grpc.out _) as [newCtx | err |]; [|done|done].
    destruct (grpc.Value _ _) as [[s|scopes]|]; try done. by destruct (negb _).
  - exact Hdid.
  - intros newCtx. rewrite Hdid.
    destruct (grpc.out _) as [newCtx' | err |]; [|done|done].
    destruct (grpc.HasScope (grpc.GetServiceScopes newCtx') required) eqn:Hhas; [|done].
    by intros [= <-].
Qed.

Lemma scope_map_is_enforced_witness :
  grpc.StreamAuthInterceptor scopedGrpcConfig ∅ examples.clock
    (examples.incomingWith ["Bearer tok"]) "/billing.Ledger/Post"
  = grpc.UnaryAuthInterceptor scopedGrpcConfig ∅ examples.clock
      (examples.incomingWith ["Bearer tok"]) "/billing.Ledger/Post" /\
  grpc.cacheAfter
    (grpc.UnaryAuthInterceptor scopedGrpcConfig ∅ examples.clock
       (examples.incomingWith ["Bearer tok"]) "/billing.Ledger/Post")
  = grpc.tokenCache
      (grpc.validateGRPCToken (examples.incomingWith ["Bearer tok"]) scopedGrpcConfig
         ∅ examples.clock) /\
  grpc.validatorCalls
    (grpc.UnaryAuthInterceptor scopedGrpcConfig ∅ examples.clock
       (examples.incomingWith ["Bearer tok"]) "/billing.Ledger/Post")
  = grpc.validated
      (grpc.validateGRPCToken (examples.incomingWith ["Bearer tok"]) scopedGrpcConfig
         ∅ examples.clock) /\
  grpc.did
    (grpc.UnaryAuthInterceptor scopedGrpcConfig ∅ examples.clock
       (examples.incomingWith ["Bearer tok"]) "/billing.Ledger/Post")
  = match grpc.out
            (grpc.validateGRPCToken (examples.incomingWith ["Bearer tok"])
               scopedGrpcConfig ∅ examples.clock) with
    | grpc.Authenticated newCtx =>
        if grpc.HasScope (grpc.GetServiceScopes newCtx) "billing:write"
        then grpc.CallsHandler newCtx
        else grpc.Refuses (statusError codes.PermissionDenied "insufficient permissions")
    | grpc.Rejected err => grpc.Refuses err
    | grpc.Panic => grpc.Panics
    end /\
  (forall newCtx,
      grpc.did
        (grpc.UnaryAuthInterceptor scopedGrpcConfig ∅ examples.clock
           (examples.incomingWith ["Bearer tok"]) "/billing.Ledger/Post")
      = grpc.CallsHandler newCtx ->
      grpc.HasScope (grpc.GetServiceScopes newCtx) "billing:write" = true).
Proof.
  apply (scope_map_is_enforced scopedGrpcConfig ∅ examples.clock
           (examples.incomingWith ["Bearer tok"]) "/billing.Ledger/Post"
           "billing:write"
           {["/notify.Notifier/Send" := "notifications:send";
             "/billing.Ledger/Post" := "billing:write"]}); try reflexivity.
  discriminate.
Defined.

(** X24.  The bearer token a client sends is the token the server validates.
    When the metadata a server receives is what [BearerAuthInterceptor]
    or [BearerAuthStreamInterceptor] sends for a call whose context had
    no [authorization] value, [validateGRPCToken] takes the interceptor's
    token, whatever its bytes, and looks it up or has it validated.  The
    interceptor appends and the server reads the first value: a value
    the context had before is the one the server uses. *)
Theorem bearer_token_round_trip (token : string) (md : gmap string (list string))
  (vals : list (grpc.contextKey * grpc.ctxValue)) (cfg : grpc.AuthInterceptorConfig)
  (cache : gmap string cachedValidation) (clock : nat -> Time) :
  md !! "authorization" = None ->
  let ctx := {| grpc.incoming := Some (grpcclient.BearerAuthInterceptor token md);
                grpc.values := vals |} in
  grpcclient.BearerAuthStreamInterceptor token md
  = grpcclient.BearerAuthInterceptor token md /\
  grpcAuthorization ctx ≫= bearerToken = Some token /\
  grpc.validated (grpc.validateGRPCToken ctx cfg cache clock)
  = match grpc.get cache (clock 0%nat) token with
    | Some _ => []
    | None => [token]
    end /\
  (forall first rest,
      grpcAuthorization
        {| grpc.incoming :=
             Some (grpcclient.BearerAuthInterceptor token
                     (<["authorization" := first :: rest]> md));
           grpc.values := vals |}
      = Some first).
Proof.
  intros Hnone. cbn zeta. split; [reflexivity|].
  assert (Hauth : grpcAuthorization
                    {| grpc.incoming := Some (grpcclient.BearerAuthInterceptor token md);
                       grpc.values := vals |}
                  = Some ("Bearer " +:+ token)).
  { unfold grpcAuthorization, grpcclient.BearerAuthInterceptor,
      grpcclient.AppendToOutgoingContext, grpc.md_Get. cbn [grpc.incoming].
    rewrite lookup_insert_eq, Hnone. reflexivity. }
  assert (Htok : bearerToken ("Bearer " +:+ token) = Some token).
  { unfold bearerToken. by destruct (Bearer_header token) as (-> & -> & _). }
  split; [by rewrite Hauth|]. split.
  - unfold grpc.validateGRPCToken. unfold grpcAuthorization in Hauth.
    cbn [grpc.incoming] in *.
    destruct (grpc.md_Get _ "authorization") as [|h rest]; [discriminate|].
    injection Hauth as ->. rewrite TrimPrefix_Bearer. unfold strings.TrimPrefix.
    destruct (Bearer_header token) as (-> & Hslice & _). cbn [negb].
    change (String.length "Bearer ") with 7%nat. rewrite Hslice.
    destruct (grpc.get cache (clock 0%nat) token) as [cached|]; [done|].
    destruct (grpc.TokenValidator_ cfg token) as [[v|] [err|]]; try done.
    by destruct (Valid v).
  - intros first rest.
    unfold grpcAuthorization, grpcclient.BearerAuthInterceptor,
      grpcclient.AppendToOutgoingContext, grpc.md_Get. cbn [grpc.incoming].
    by rewrite !lookup_insert_eq.
Qed.

Lemma bearer_token_round_trip_witness :
  grpcclient.BearerAuthStreamInterceptor "Bearer x" ∅
  = grpcclient.BearerAuthInterceptor "Bearer x" ∅ /\
  grpcAuthorization
    {| grpc.incoming := Some (grpcclient.BearerAuthInterceptor "Bearer x" ∅);
       grpc.values := [] |} ≫= bearerToken = Some "Bearer x" /\
  grpc.validated
    (grpc.validateGRPCToken
       {| grpc.incoming := Some (grpcclient.BearerAuthInterceptor "Bearer x" ∅);
          grpc.values := [] |} examples.grpcAuthConfig ∅ examples.clock)
  = match grpc.get ∅ (examples.clock 0%nat) "Bearer x" with
    | Some _ => []
    | None => ["Bearer x"]
    end /\
  (forall first rest,
      grpcAuthorization
        {| grpc.incoming :=
             Some (grpcclient.BearerAuthInterceptor "Bearer x"
                     (<["authorization" := first :: rest]> ∅));
           grpc.values := [] |}
      = Some first).
Proof.
  apply (bearer_token_round_trip "Bearer x" ∅ [] examples.grpcAuthConfig ∅
           examples.clock).
  reflexivity.
Defined.

(** ** The tenant of a request *)

Lemma slice_from_app a b : strings.slice_from (String.length a) (a +:+ b) = b.
Proof. induction a as [|x a IH]; [done|]. by rewrite append_cons. Qed.

Lemma slice_to_app a b : strings.slice_to (String.length a) (a +:+ b) = a.
Proof.
  induction a as [|x a IH]; [by destruct b|]. rewrite append_cons.
  cbn [String.length strings.slice_to]. by rewrite IH.
Qed.

Lemma HasSuffix_app a b : strings.HasSuffix (a +:+ b) b = true.
Proof.
  unfold strings.HasSuffix. rewrite length_append.
  replace (String.length a + String.length b - String.length b)%nat
    with (String.length a) by lia.
  rewrite slice_from_app, String.eqb_refl, andb_true_r. apply Nat.leb_le. lia.
Qed.

Lemma TrimSuffix_app a b : strings.TrimSuffix (a +:+ b) b = a.
Proof.
  unfold strings.TrimSuffix. rewrite HasSuffix_app, length_append.
  replace (String.length a + String.length b - String.length b)%nat
    with (String.length a) by lia.
  apply slice_to_app.
Qed.

Lemma slice_from_app_l n a b :
  (n <= String.length a)%nat ->
  strings.slice_from n (a +:+ b) = strings.slice_from n a +:+ b.
Proof.
  revert a. induction n as [|n IH]; intros a Hn; [done|].
  destruct a as [|x a]; [cbn in Hn; lia|]. rewrite append_cons.
  cbn [strings.slice_from]. apply IH. cbn in Hn. lia.
Qed.

Lemma append_inj_l (a a' b : string) : a +:+ b = a' +:+ b -> a = a'.
Proof.
  revert a'. induction a as [|x a IH]; intros [|x' a'] Heq.
  - done.
  - apply (f_equal String.length) in Heq. rewrite !length_append in Heq.
    cbn in Heq. lia.
  - apply (f_equal String.length) in Heq. rewrite !length_append in Heq.
    cbn in Heq. lia.
  - rewrite !append_cons in Heq. injection Heq as -> Heq. by rewrite (IH a' Heq).
Qed.

Lemma HasSuffix_app_r a s b :
  strings.HasSuffix (a +:+ b) (s +:+ b) = strings.HasSuffix a s.
Proof.
  unfold strings.HasSuffix. rewrite !length_append.
  destruct (String.length s <=? String.length a)%nat eqn:Hle.
  - apply Nat.leb_le in Hle.
    replace (String.length s + String.length b <=? String.length a + String.length b)%nat
      with true by (symmetry; apply Nat.leb_le; lia).
    cbn [andb].
    replace (String.length a + String.length b - (String.length s + String.length b))%nat
      with (String.length a - String.length s)%nat by lia.
    rewrite slice_from_app_l by lia.
    destruct (String.eqb (strings.slice_from _ a) s) eqn:Heq.
    + apply String.eqb_eq in Heq. rewrite Heq. apply String.eqb_refl.
    + apply String.eqb_neq. intros Happ. apply append_inj_l in Happ.
      apply String.eqb_neq in Heq. done.
  - apply Nat.leb_gt in Hle.
    by replace (String.length s + String.length b <=? String.length a + String.length b)%nat
      with false by (symmetry; apply Nat.leb_gt; lia).
Qed.

Lemma Index_none s : has_byte ":" s = false -> strings.Index s ":" = -1.
Proof.
  induction s as [|a s IH]; [done|]. cbn [has_byte strings.Index].
  intros [Ha Hs]%orb_false_iff. by rewrite Ha, IH.
Qed.

Lemma Index_first h port :
  has_byte ":" h = false ->
  strings.Index (h +:+ ":" +:+ port) ":" = Z.of_nat (String.length h).
Proof.
  induction h as [|a h IH]; [done|]. rewrite append_cons.
  cbn [has_byte strings.Index String.length].
  intros [Ha Hh]%orb_false_iff. rewrite Ha, IH by done. cbv zeta.
  destruct (Z.of_nat (String.length h) =? -1) eqn:Hidx; lia.
Qed.

Lemma has_byte_app c a b : has_byte c (a +:+ b) = has_byte c a || has_byte c b.
Proof.
  induction a as [|x a IH]; [done|]. rewrite append_cons. cbn [has_byte].
  by rewrite IH, orb_assoc.
Qed.

(** X26.  The tenant of a host name.  For a base domain and a subdomain
    without colons, the subdomain not empty, [www] or [api] and not
    ending in the base domain itself, the host [sub.base] gives the
    tenant [sub], with or without a port.  The dot is not required: when
    [sub] does not end in one, the host [sub] followed at once by the
    base domain gives the tenant [sub] too, so a host that only ends in
    the letters of the base domain names a tenant. *)
Theorem tenant_of_a_hostname (sub base port : string) :
  has_byte ":" sub = false -> has_byte ":" base = false ->
  strings.HasSuffix sub base = false ->
  sub <> "" -> sub <> "www" -> sub <> "api" ->
  middleware.tenant.extractTenantFromSubdomain (sub +:+ "." +:+ base) base = sub /\
  middleware.tenant.extractTenantFromSubdomain (sub +:+ "." +:+ base +:+ ":" +:+ port) base
  = sub /\
  (strings.HasSuffix sub "." = false ->
   middleware.tenant.extractTenantFromSubdomain (sub +:+ base) base = sub).
Proof.
  intros Hsub Hbase Hsuf Hne Hwww Hapi.
  assert (Hkeep : (String.eqb sub "" || String.eqb sub "www" || String.eqb sub "api")
                  = false).
  { apply String.eqb_neq in Hne, Hwww, Hapi. by rewrite Hne, Hwww, Hapi. }
  assert (Hdot : forall host,
            host = sub +:+ "." +:+ base ->
            (if negb (strings.HasSuffix host base) then ""
             else
               let subdomain := strings.TrimSuffix host ("." +:+ base) in
               let subdomain := strings.TrimSuffix subdomain base in
               if String.eqb subdomain "" || String.eqb subdomain "www"
                  || String.eqb subdomain "api"
               then "" else subdomain) = sub).
  { intros host ->. rewrite <- (append_assoc sub "." base) at 1.
    rewrite HasSuffix_app. cbn [negb]. cbn zeta.
    rewrite (TrimSuffix_app sub ("." +:+ base)).
    unfold strings.TrimSuffix at 1 2 3 4. rewrite Hsuf. by rewrite Hkeep. }
  split; [|split].
  - unfold middleware.tenant.extractTenantFromSubdomain.
    rewrite Index_none by (by rewrite !has_byte_app, Hsub, Hbase).
    cbn [Z.eqb negb]. by apply Hdot.
  - unfold middleware.tenant.extractTenantFromSubdomain.
    replace (sub +:+ "." +:+ base +:+ ":" +:+ port)
      with ((sub +:+ "." +:+ base) +:+ ":" +:+ port) by (by rewrite !append_assoc).
    rewrite Index_first by (by rewrite !has_byte_app, Hsub, Hbase).
    rewrite (proj2 (Z.eqb_neq (Z.of_nat (String.length (sub +:+ "." +:+ base))) (-1)))
      by lia.
    cbn [negb].
    rewrite Nat2Z.id, slice_to_app. by apply Hdot.
  - intros Hnodot. unfold middleware.tenant.extractTenantFromSubdomain.
    rewrite Index_none by (by rewrite has_byte_app, Hsub, Hbase).
    change (-1 =? -1) with true. cbn [negb]. rewrite HasSuffix_app. cbn [negb]. cbn zeta.
    assert (Hinner : strings.TrimSuffix (sub +:+ base) ("." +:+ base) = sub +:+ base).
    { unfold strings.TrimSuffix. by rewrite HasSuffix_app_r, Hnodot. }
    rewrite !Hinner, !TrimSuffix_app. by rewrite Hkeep.
Qed.

Lemma tenant_of_a_hostname_witness :
  middleware.tenant.extractTenantFromSubdomain ("acme" +:+ "." +:+ "example.com")
    "example.com" = "acme" /\
  middleware.tenant.extractTenantFromSubdomain
    ("acme" +:+ "." +:+ "example.com" +:+ ":" +:+ "8443") "example.com" = "acme" /\
  (strings.HasSuffix "acme" "." = false ->
   middleware.tenant.extractTenantFromSubdomain ("acme" +:+ "example.com") "example.com"
   = "acme").
Proof.
  apply (tenant_of_a_hostname "acme" "example.com" "8443");
    first [reflexivity | discriminate].
Defined.

(** X25.  The tenant of a validated token comes first.  On a request the
    authentication let through with a token that names a tenant, the
    tenant middleware, when it is enabled and does not skip the path,
    takes that tenant: no header, host name or query parameter changes
    the tenant it stores or the answer of the tenant validator.  For a
    token without a tenant the header is asked next. *)
Theorem tenant_of_the_token_comes_first (config : middleware.tenant.TenantConfig)
  (v : TokenValidationResult) (Get : string -> string) (Hostname : string)
  (Query : string -> string) (path : string) :
  middleware.tenant.Enabled config = true ->
  existsb (λ skipPath, strings.HasPrefix path skipPath || String.eqb path skipPath)
    (middleware.tenant.SkipPaths config) = false ->
  let contextKey :=
    if String.eqb (middleware.tenant.ContextKey config) "" then "tenantId"
    else middleware.tenant.ContextKey config in
  let headerName :=
    if String.eqb (middleware.tenant.HeaderName config) "" then "X-Tenant-ID"
    else middleware.tenant.HeaderName config in
  let decide tenantID :=
    match middleware.tenant.TenantValidator config with
    | Some validator =>
        if validator tenantID
        then middleware.tenant.Next [(contextKey, middleware.LString tenantID)]
        else middleware.tenant.HandlesError 400 "Invalid tenant"
    | None => middleware.tenant.Next [(contextKey, middleware.LString tenantID)]
    end in
  let r := middleware.tenant.TenantMiddleware config (middleware.serviceLocals v)
             Get Hostname Query path in
  (TenantID v <> "" -> r = decide (TenantID v)) /\
  (TenantID v = "" -> Get headerName <> "" -> r = decide (Get headerName)).
Proof.
  intros Hon Hskip. cbn zeta. unfold middleware.tenant.TenantMiddleware.
  rewrite Hon, Hskip. cbn [negb].
  change (middleware.Locals (middleware.serviceLocals v) "tenantId")
    with (Some (middleware.LString (TenantID v))).
  cbv beta iota. split.
  - intros Hne. apply String.eqb_neq in Hne.
    repeat (rewrite Hne; cbn [negb andb]).
    destruct (middleware.tenant.TenantValidator config) as [validator|]; [|done].
    by destruct (validator (TenantID v)).
  - intros -> Hhdr. apply String.eqb_neq in Hhdr. cbn [String.eqb negb].
    repeat (rewrite Hhdr; cbn [negb andb]).
    destruct (middleware.tenant.TenantValidator config) as [validator|]; [|done].
    by destruct (validator _).
Qed.

Lemma tenant_of_the_token_comes_first_witness :
  (TenantID examples.validToken <> "" ->
   middleware.tenant.TenantMiddleware tenantConfig
     (middleware.serviceLocals examples.validToken)
     (λ _, "tenant-2") "other.example.com" (λ _, "tenant-3") "/orders"
   = middleware.tenant.Next
       [("tenantId", middleware.LString (TenantID examples.validToken))]) /\
  (TenantID examples.validToken = "" ->
   "tenant-2" <> "" ->
   middleware.tenant.TenantMiddleware tenantConfig
     (middleware.serviceLocals examples.validToken)
     (λ _, "tenant-2") "other.example.com" (λ _, "tenant-3") "/orders"
   = middleware.tenant.Next [("tenantId", middleware.LString "tenant-2")]).
Proof.
  apply (tenant_of_the_token_comes_first tenantConfig examples.validToken
           (λ _, "tenant-2") "other.example.com" (λ _, "tenant-3") "/orders");
    reflexivity.
Defined.

(** ** Package [common] *)

Lemma found_elem_of slice elem : common.found slice elem = true <-> elem ∈ slice.
Proof.
  induction slice as [|item rest IH]; cbn [common.found].
  - split; [discriminate | by intros ?%not_elem_of_nil].
  - rewrite elem_of_cons. destruct (String.eqb item elem) eqn:Heq.
    + apply String.eqb_eq in Heq. subst. split; [by left | done].
    + apply String.eqb_neq in Heq. rewrite IH. split; [by right|].
      by intros [->|?].
Qed.

(** X27.  [ContainsAll] is inclusion.  It returns true exactly when every
    element listed occurs in the slice; in particular for no elements at
    all, and whatever the order and the repetitions. *)
Theorem ContainsAll_is_inclusion (slice elements : list string) :
  common.ContainsAll slice elements = true <-> forall elem, elem ∈ elements -> elem ∈ slice.
Proof.
  induction elements as [|elem rest IH]; cbn [common.ContainsAll].
  - split; [by intros _ e ?%not_elem_of_nil | done].
  - destruct (common.found slice elem) eqn:Hfound; cbn [negb].
    + apply found_elem_of in Hfound. rewrite IH. split.
      * intros Hrest e [->|He]%elem_of_cons; [done | by apply Hrest].
      * intros Hall e He. apply Hall. by right.
    + split; [discriminate|]. intros Hall.
      assert (Hin : elem ∈ slice) by (apply Hall; by left).
      apply found_elem_of in Hin. congruence.
Qed.

Lemma onlyDigits_allDigits s : common.allDigits (common.onlyDigits s) = true.
Proof.
  induction s as [|a s IH]; [done|]. cbn [common.onlyDigits].
  destruct (common.isDigit a) eqn:Ha; [|done]. cbn [common.allDigits]. by rewrite Ha.
Qed.

Lemma onlyDigits_id s : common.allDigits s = true -> common.onlyDigits s = s.
Proof.
  induction s as [|a s IH]; [done|]. cbn [common.allDigits common.onlyDigits].
  intros [Ha Hs]%andb_true_iff. rewrite Ha. by rewrite IH.
Qed.

Lemma TrimLeft_allDigits s :
  common.allDigits s = true -> common.allDigits (strings.TrimLeft s "0") = true.
Proof.
  induction s as [|a s IH]; [done|]. cbn [common.allDigits strings.TrimLeft].
  intros [Ha Hs]%andb_true_iff.
  destruct (existsb _ _); [by apply IH|]. cbn [common.allDigits]. by rewrite Ha, Hs.
Qed.

Lemma TrimLeft_zeros zeros s :
  strings.TrimLeft zeros "0" = "" -> strings.TrimLeft (zeros +:+ s) "0" = strings.TrimLeft s "0".
Proof.
  induction zeros as [|a zeros IH]; [done|]. rewrite append_cons.
  cbn [strings.TrimLeft]. destruct (existsb _ _); [exact IH | discriminate].
Qed.

Lemma allDigits_app s t :
  common.allDigits (s +:+ t) = common.allDigits s && common.allDigits t.
Proof.
  induction s as [|a s IH]; [done|]. rewrite append_cons. cbn [common.allDigits].
  by rewrite IH, andb_assoc.
Qed.

Lemma onlyDigits_app s t :
  common.onlyDigits (s +:+ t) = common.onlyDigits s +:+ common.onlyDigits t.
Proof.
  induction s as [|a s IH]; [done|]. rewrite append_cons. cbn [common.onlyDigits].
  destruct (common.isDigit a); [|done]. by rewrite append_cons, IH.
Qed.

Lemma NormalizeIranPhone_digits phone :
  phone <> "" ->
  common.NormalizeIranPhone phone
  = "+" +:+ (let t := strings.TrimLeft (common.onlyDigits phone) "0" in
             if strings.HasPrefix t "98" then t else "98" +:+ t).
Proof.
  intros Hne. unfold common.NormalizeIranPhone, common.NormalizePhoneNumber.
  cbn [common.DefaultCountryCode common.Format].
  replace (String.eqb phone "") with false by (symmetry; by apply String.eqb_neq).
  cbn zeta. change (String.eqb "98" "") with false.
  change (String.eqb common.FormatE164 "") with false.
  change (String.eqb common.FormatE164 common.FormatE164) with true.
  cbn [negb andb]. by destruct (strings.HasPrefix _ "98").
Qed.

Lemma NormalizeIranPhoneLocal_digits phone :
  phone <> "" ->
  common.NormalizeIranPhoneLocal phone
  = "0" +:+ (let t := strings.TrimLeft (common.onlyDigits phone) "0" in
             if strings.HasPrefix t "98" then strings.slice_from 2 t else t).
Proof.
  intros Hne. unfold common.NormalizeIranPhoneLocal, common.NormalizePhoneNumber.
  cbn [common.DefaultCountryCode common.Format].
  replace (String.eqb phone "") with false by (symmetry; by apply String.eqb_neq).
  cbn zeta. change (String.eqb "98" "") with false.
  change (String.eqb common.FormatLocal "") with false.
  change (String.eqb common.FormatLocal common.FormatE164) with false.
  change (String.eqb common.FormatLocal common.FormatLocal) with true.
  cbn [negb andb]. unfold strings.TrimPrefix, strings.HasPrefix.
  destruct (String.prefix "98" (strings.TrimLeft _ "0")) eqn:Hp; cbn [negb].
  - by rewrite Hp.
  - by rewrite (prefix_append "98").
Qed.

Lemma mobileDigits_facts n :
  mobileDigits n ->
  common.allDigits n = true /\ strings.TrimLeft n "0" = n /\
  strings.HasPrefix n "98" = false /\ String.length n = 10%nat /\
  exists rest, n = String "9" rest /\ String.length rest = 9%nat
               /\ common.allDigits rest = true.
Proof.
  intros (d & rest & -> & Hd & Hne & Hrest & Hlen).
  split; [cbn [common.allDigits]; by rewrite Hd, Hrest|].
  split; [reflexivity|]. split.
  - unfold strings.HasPrefix. cbn [String.prefix].
    destruct (ascii_dec "9" "9"); [|done]. by destruct (ascii_dec "8" d).
  - split; [cbn [String.length]; by rewrite Hlen|].
    exists (String d rest). split; [done|]. split; [cbn [String.length]; by rewrite Hlen|].
    cbn [common.allDigits]. by rewrite Hd, Hrest.
Qed.

(** X28.  [NormalizeIranPhone] reads every usual spelling as the same number,
    and only the digits count.  For a national number of ten digits that
    begins with 9 but not with 98, the number alone, with the leading 0,
    with the country code after [+] or after [00], and with separators
    in between all normalise to [+98] and the number; and normalising
    any text twice gives what normalising it once gives. *)
Theorem NormalizeIranPhone_spellings (n sep : string) :
  mobileDigits n ->
  common.onlyDigits sep = "" ->
  common.NormalizeIranPhone n = "+98" +:+ n /\
  common.NormalizeIranPhone ("0" +:+ n) = "+98" +:+ n /\
  common.NormalizeIranPhone ("+98" +:+ n) = "+98" +:+ n /\
  common.NormalizeIranPhone ("0098" +:+ n) = "+98" +:+ n /\
  common.NormalizeIranPhone ("+98" +:+ sep +:+ n) = "+98" +:+ n /\
  forall phone,
    common.NormalizeIranPhone (common.NormalizeIranPhone phone)
    = common.NormalizeIranPhone phone.
Proof.
  intros Hn Hsep.
  destruct (mobileDigits_facts n Hn) as (Hall & Htrim & Hpre & Hlen & rest & Hnine & _).
  assert (Hne : forall p, p +:+ n <> "").
  { intros p Heq. apply (f_equal String.length) in Heq.
    rewrite length_append, Hlen in Heq. cbn in Heq. lia. }
  assert (Hplain : common.NormalizeIranPhone n = "+98" +:+ n).
  { rewrite NormalizeIranPhone_digits by (rewrite Hnine; discriminate).
    cbn zeta. by rewrite (onlyDigits_id n Hall), Htrim, Hpre. }
  assert (Hwith : forall p,
            common.onlyDigits p = "98" \/ common.onlyDigits p = "0098" ->
            common.NormalizeIranPhone (p +:+ n) = "+98" +:+ n).
  { intros p Hp. rewrite NormalizeIranPhone_digits by apply Hne. cbn zeta.
    rewrite onlyDigits_app, (onlyDigits_id n Hall).
    destruct Hp as [-> | ->].
    - change (strings.TrimLeft ("98" +:+ n) "0") with ("98" +:+ n).
      unfold strings.HasPrefix. by rewrite prefix_append.
    - change (strings.TrimLeft ("0098" +:+ n) "0") with ("98" +:+ n).
      unfold strings.HasPrefix. by rewrite prefix_append. }
  split; [exact Hplain|]. split.
  { rewrite NormalizeIranPhone_digits by apply (Hne "0"). cbn zeta.
    rewrite onlyDigits_app, (onlyDigits_id n Hall).
    change (common.onlyDigits "0" +:+ n) with (String "0" n).
    change (strings.TrimLeft (String "0" n) "0") with (strings.TrimLeft n "0").
    by rewrite Htrim, Hpre. }
  split; [apply (Hwith "+98"); by left|].
  split; [apply (Hwith "0098"); by right|]. split.
  { rewrite <- append_assoc. apply Hwith. left.
    rewrite onlyDigits_app, Hsep. reflexivity. }
  intros phone. destruct (String.eqb phone "") eqn:Hempty.
  { apply String.eqb_eq in Hempty. by subst. }
  apply String.eqb_neq in Hempty.
  rewrite (NormalizeIranPhone_digits phone Hempty). cbn zeta.
  set (t := strings.TrimLeft (common.onlyDigits phone) "0").
  assert (Ht : common.allDigits t = true) by apply TrimLeft_allDigits, onlyDigits_allDigits.
  set (d := if strings.HasPrefix t "98" then t else "98" +:+ t).
  assert (Hd : common.allDigits d = true /\ strings.HasPrefix d "98" = true).
  { subst d. destruct (strings.HasPrefix t "98") eqn:Hp; [done|].
    split; [by rewrite allDigits_app, Ht | apply prefix_append]. }
  destruct Hd as [Hdall Hdpre].
  assert (Hdtrim : strings.TrimLeft d "0" = d).
  { unfold strings.HasPrefix in Hdpre. destruct d as [|a d']; [done|].
    cbn [String.prefix] in Hdpre. destruct (ascii_dec "9" a) as [<-|]; [done|discriminate]. }
  rewrite NormalizeIranPhone_digits by discriminate. cbn zeta.
  change (common.onlyDigits ("+" +:+ d)) with (common.onlyDigits d).
  by rewrite (onlyDigits_id d Hdall), Hdtrim, Hdpre.
Qed.

Lemma NormalizeIranPhone_spellings_witness :
  common.NormalizeIranPhone "9011793041" = "+98" +:+ "9011793041" /\
  common.NormalizeIranPhone ("0" +:+ "9011793041") = "+98" +:+ "9011793041" /\
  common.NormalizeIranPhone ("+98" +:+ "9011793041") = "+98" +:+ "9011793041" /\
  common.NormalizeIranPhone ("0098" +:+ "9011793041") = "+98" +:+ "9011793041" /\
  common.NormalizeIranPhone ("+98" +:+ " (-) " +:+ "9011793041")
  = "+98" +:+ "9011793041" /\
  forall phone,
    common.NormalizeIranPhone (common.NormalizeIranPhone phone)
    = common.NormalizeIranPhone phone.
Proof.
  apply (NormalizeIranPhone_spellings "9011793041" " (-) ").
  - exists "0"%char, "11793041".
    split; [reflexivity|]. split; [reflexivity|]. split; [discriminate|].
    split; reflexivity.
  - reflexivity.
Defined.

(** X29.  [ValidateIranMobileNumber] accepts the mobile numbers in every usual
    spelling and nothing that does not normalise to one.  A national
    number of ten digits that begins with 9 but not with 98 is valid
    alone, with the leading 0 and with the country code after [+] or
    [00]; and whatever is valid has the local form [09] and nine digits.
    A local number that begins with 098 is taken for a country code and
    is not valid. *)
Theorem ValidateIranMobileNumber_spellings (n tail : string) :
  mobileDigits n ->
  common.allDigits tail = true -> String.length tail = 8%nat ->
  common.ValidateIranMobileNumber n = true /\
  common.ValidateIranMobileNumber ("0" +:+ n) = true /\
  common.ValidateIranMobileNumber ("+98" +:+ n) = true /\
  common.ValidateIranMobileNumber ("0098" +:+ n) = true /\
  common.ValidateIranMobileNumber ("098" +:+ tail) = false /\
  forall phone,
    common.ValidateIranMobileNumber phone = true ->
    exists rest,
      common.NormalizeIranPhoneLocal phone = "09" +:+ rest /\
      String.length rest = 9%nat /\ common.allDigits rest = true.
Proof.
  intros Hn Htail Hlen8.
  destruct (mobileDigits_facts n Hn)
    as (Hall & Htrim & Hpre & Hlen & rest & Hnine & Hlen9 & Hrest).
  assert (Hne : forall p, p +:+ n <> "").
  { intros p Heq. apply (f_equal String.length) in Heq.
    rewrite length_append, Hlen in Heq. cbn in Heq. lia. }
  assert (Hvalid : forall phone,
            common.NormalizeIranPhoneLocal phone = "0" +:+ n ->
            common.ValidateIranMobileNumber phone = true).
  { intros phone Hlocal. unfold common.ValidateIranMobileNumber. rewrite Hlocal.
    rewrite append_cons, append_nil. cbn [String.length]. rewrite Hlen. cbn [Nat.eqb negb].
    rewrite Hnine. unfold strings.HasPrefix. cbn [String.prefix].
    destruct (ascii_dec "0" "0"); [|done]. destruct (ascii_dec "9" "9"); [|done].
    replace (String.prefix "" rest) with true by (by destruct rest).
    cbn [negb common.matchIranMobile]. by rewrite Hlen9, Hrest. }
  assert (Hwith : forall p,
            common.onlyDigits p = "98" \/ common.onlyDigits p = "0098" ->
            common.NormalizeIranPhoneLocal (p +:+ n) = "0" +:+ n).
  { intros p Hp. rewrite NormalizeIranPhoneLocal_digits by apply Hne. cbn zeta.
    rewrite onlyDigits_app, (onlyDigits_id n Hall).
    destruct Hp as [-> | ->].
    - change (strings.TrimLeft ("98" +:+ n) "0") with ("98" +:+ n).
      unfold strings.HasPrefix. by rewrite prefix_append.
    - change (strings.TrimLeft ("0098" +:+ n) "0") with ("98" +:+ n).
      unfold strings.HasPrefix. by rewrite prefix_append. }
  split.
  { apply Hvalid. rewrite NormalizeIranPhoneLocal_digits by (rewrite Hnine; discriminate).
    cbn zeta. by rewrite (onlyDigits_id n Hall), Htrim, Hpre. }
  split.
  { apply Hvalid. rewrite NormalizeIranPhoneLocal_digits by apply (Hne "0"). cbn zeta.
    rewrite onlyDigits_app, (onlyDigits_id n Hall).
    change (common.onlyDigits "0" +:+ n) with (String "0" n).
    change (strings.TrimLeft (String "0" n) "0") with (strings.TrimLeft n "0").
    by rewrite Htrim, Hpre. }
  split; [apply Hvalid, (Hwith "+98"); by left|].
  split; [apply Hvalid, (Hwith "0098"); by right|]. split.
  { unfold common.ValidateIranMobileNumber.
    rewrite NormalizeIranPhoneLocal_digits by discriminate. cbn zeta.
    rewrite onlyDigits_app, (onlyDigits_id tail Htail).
    change (strings.TrimLeft (common.onlyDigits "098" +:+ tail) "0") with ("98" +:+ tail).
    unfold strings.HasPrefix at 1. rewrite prefix_append.
    change (strings.slice_from 2 ("98" +:+ tail)) with tail.
    rewrite append_cons, append_nil. cbn [String.length]. by rewrite Hlen8. }
  intros phone. unfold common.ValidateIranMobileNumber.
  destruct (common.NormalizeIranPhoneLocal phone) as [|a [|b rest']]; try done.
  destruct (negb (_ =? 11)%nat); [done|].
  destruct (negb (strings.HasPrefix _ "09")); [done|].
  unfold common.matchIranMobile.
  destruct (Ascii.eqb a "0") eqn:Ha; [apply Ascii.eqb_eq in Ha; subst a|].
  2:{ destruct a as [[] [] [] [] [] [] [] []]; try discriminate. }
  destruct (Ascii.eqb b "9") eqn:Hb; [apply Ascii.eqb_eq in Hb; subst b|].
  2:{ destruct b as [[] [] [] [] [] [] [] []]; try discriminate. }
  intros [Hl Hd]%andb_true_iff. exists rest'.
  split; [reflexivity|]. split; [by apply Nat.eqb_eq | done].
Qed.

Lemma ValidateIranMobileNumber_spellings_witness :
  common.ValidateIranMobileNumber "9011793041" = true /\
  common.ValidateIranMobileNumber ("0" +:+ "9011793041") = true /\
  common.ValidateIranMobileNumber ("+98" +:+ "9011793041") = true /\
  common.ValidateIranMobileNumber ("0098" +:+ "9011793041") = true /\
  common.ValidateIranMobileNumber ("098" +:+ "12345678") = false /\
  forall phone,
    common.ValidateIranMobileNumber phone = true ->
    exists rest,
      common.NormalizeIranPhoneLocal phone = "09" +:+ rest /\
      String.length rest = 9%nat /\ common.allDigits rest = true.
Proof.
  apply (ValidateIranMobileNumber_spellings "9011793041" "12345678").
  - exists "0"%char, "11793041".
    split; [reflexivity|]. split; [reflexivity|]. split; [discriminate|].
    split; reflexivity.
  - reflexivity.
  - reflexivity.
Defined.

(** ** Package [pagination] *)

(** X30.  [ParseParams] keeps the parameters in range.  Whatever the query
    holds and whatever [Atoi] makes of it, the page is at least 1, the
    page size is between 1 and [MaxPageSize], the order is [asc] or
    [desc] and the limit is the page size; up to page
    92233720368547758 the offset is the number of items on the pages
    before and not negative.  Beyond, the product wraps around: the
    last page an [int] can number, with 100 items a page, has the
    offset -200. *)
Theorem ParseParams_keeps_parameters_in_range
  (Query : string -> list string -> string) (Atoi : string -> Z) (Itoa : Z -> string) :
  let p := pagination.ParseParams Query Atoi Itoa in
  1 <= pagination.Page p /\
  1 <= pagination.PerPage p <= pagination.MaxPageSize /\
  (pagination.Order p = "asc" \/ pagination.Order p = "desc") /\
  pagination.Limit p = pagination.PerPage p /\
  (pagination.Page p <= 92233720368547758 ->
   pagination.Offset p = (pagination.Page p - 1) * pagination.PerPage p /\
   0 <= pagination.Offset p) /\
  pagination.Offset
    {| pagination.Page := max_int64; pagination.PerPage := 100;
       pagination.Cursor := pagination.Cursor p; pagination.Sort := pagination.Sort p;
       pagination.Order := pagination.Order p |} = -200.
Proof.
  cbn zeta. unfold pagination.ParseParams, pagination.Limit, pagination.Offset,
    pagination.MaxPageSize, pagination.DefaultPageSize.
  cbn [pagination.Page pagination.PerPage pagination.Order].
  set (page := Atoi (Query "page" ["1"])).
  set (perPage := Atoi (Query "per_page" [Itoa 20])).
  set (order := Query "order" ["desc"]).
  assert (Hpage : 1 <= (if page <? 1 then 1 else page)) by (destruct (page <? 1) eqn:?; lia).
  assert (Hper : 1 <= (if 100 <? (if perPage <? 1 then 20 else perPage) then 100
                       else if perPage <? 1 then 20 else perPage) <= 100).
  { destruct (perPage <? 1) eqn:?; destruct (100 <? _) eqn:?; lia. }
  split; [exact Hpage|]. split; [exact Hper|]. split.
  { destruct (String.eqb order "asc") eqn:Hasc; cbn [negb andb].
    - left. by apply String.eqb_eq.
    - destruct (String.eqb order "desc") eqn:Hdesc; cbn [negb]; [|by right].
      right. by apply String.eqb_eq. }
  split; [reflexivity|]. split; [|reflexivity].
  intros Hsmall.
  set (pg := if page <? 1 then 1 else page) in *.
  set (pp := if 100 <? _ then 100 else _) in *.
  assert (Hprod : 0 <= (pg - 1) * pp <= max_int64).
  { unfold max_int64. split; [apply Z.mul_nonneg_nonneg; lia|].
    apply Z.le_trans with (92233720368547757 * 100); [|lia].
    apply Z.mul_le_mono_nonneg; lia. }
  rewrite int64_small by (unfold min_int64; lia). split; [reflexivity | lia].
Qed.
